(** * fbneo_libretro.py: catalog engine, filter pipeline and repeat-rate
      input controller, embedded from [src/fbneo_libretro.py].

    Conventions of the embedding.
    - A Python [str] is a [string]; [str.lower], [str.strip], [str.split],
      [in] and [endswith] are written out on the ASCII range (a byte above
      127 is an opaque character with no case and no white-space meaning).
    - A [dict] is a [gmap], a [set] a [gset].
    - The file system, the XML parser and the clock are outside the program:
      the first two are a record [World] of observations, and a time stamp
      ([time.time() * 1000]) is an integer number of milliseconds, as are
      the delays of the configuration once multiplied by 1000.
    - The list widget is its [count()] and its [currentRow()]; a tick
      records the calls of [setCurrentRow] and of the bound callbacks as
      events.  The callbacks that launch, open or close leave the list as
      it is; the callbacks of the two system buttons rebuild it within the
      tick.
    - A Python exception that the code does not catch is [None] in the
      result of the function that raises. *)

From Stdlib Require Import ZArith Ascii String List Bool Lia Sorted Permutation.
From stdpp Require Import base option list gmap strings fin_maps.

Local Open Scope string_scope.
Set Warnings "-register-all".

(** ** Python string operations *)

Module PyStr.

Definition is_upper (c : ascii) : bool :=
  let n := N_of_ascii c in (65 <=? n)%N && (n <=? 90)%N.

Definition lower_ascii (c : ascii) : ascii :=
  if is_upper c then ascii_of_N (N_of_ascii c + 32) else c.

(** [s.lower()] *)
Fixpoint lower (s : string) : string :=
  match s with
  | EmptyString => EmptyString
  | String c s' => String (lower_ascii c) (lower s')
  end.

(** [c.isspace()] on the ASCII range: tab, LF, VT, FF, CR, FS, GS, RS, US
    and the blank. *)
Definition is_space (c : ascii) : bool :=
  let n := N_of_ascii c in
  ((9 <=? n)%N && (n <=? 13)%N) || ((28 <=? n)%N && (n <=? 32)%N).

Definition nonempty (s : string) : bool :=
  match s with EmptyString => false | String _ _ => true end.

Fixpoint lstrip_by (p : ascii -> bool) (s : string) : string :=
  match s with
  | EmptyString => EmptyString
  | String c s' => if p c then lstrip_by p s' else s
  end.

Fixpoint rstrip_by (p : ascii -> bool) (s : string) : string :=
  match s with
  | EmptyString => EmptyString
  | String c s' =>
      let r := rstrip_by p s' in
      if p c && negb (nonempty r) then EmptyString else String c r
  end.

Definition strip_by (p : ascii -> bool) (s : string) : string :=
  rstrip_by p (lstrip_by p s).

(** [s.strip()] *)
Definition strip : string -> string := strip_by is_space.

(** [s.strip] with the double quote (character 34) as its argument *)
Definition strip_quotes : string -> string :=
  strip_by (fun c => Ascii.eqb c "034"%char).

(** [s.startswith(p)] *)
Fixpoint startswith (s p : string) : bool :=
  match p, s with
  | EmptyString, _ => true
  | String _ _, EmptyString => false
  | String a p', String b s' => Ascii.eqb a b && startswith s' p'
  end.

(** [p in s]: [p] occurs in [s] as a contiguous substring. *)
Fixpoint contains (s p : string) : bool :=
  startswith s p ||
  match s with
  | EmptyString => false
  | String _ s' => contains s' p
  end.

(** [s.endswith(p)] *)
Fixpoint endswith (s p : string) : bool :=
  String.eqb s p ||
  match s with
  | EmptyString => false
  | String _ s' => endswith s' p
  end.

(** [s.endswith((p1, ..., pn))] *)
Definition endswith_any (s : string) (ps : list string) : bool :=
  existsb (endswith s) ps.

(** The first white-space delimited token of [s] and what follows it. *)
Fixpoint break_space (s : string) : string * string :=
  match s with
  | EmptyString => (EmptyString, EmptyString)
  | String c s' =>
      if is_space c then (EmptyString, s)
      else let '(tok, rest) := break_space s' in (String c tok, rest)
  end.

(** [s.split(maxsplit=1)] *)
Definition split_max1 (s : string) : list string :=
  let s1 := lstrip_by is_space s in
  if nonempty s1 then
    let '(tok, rest) := break_space s1 in
    let rest' := lstrip_by is_space rest in
    if nonempty rest' then [tok; rest'] else [tok]
  else [].

(** [s.rfind(".")]; [None] is Python's -1. *)
Fixpoint rfind_dot (s : string) : option nat :=
  match s with
  | EmptyString => None
  | String c s' =>
      match rfind_dot s' with
      | Some i => Some (S i)
      | None => if Ascii.eqb c "."%char then Some 0%nat else None
      end
  end.

(** [s.split("/")] *)
Fixpoint split_slash (s : string) : list string :=
  match s with
  | EmptyString => [EmptyString]
  | String c s' =>
      if Ascii.eqb c "/"%char then EmptyString :: split_slash s'
      else match split_slash s' with
           | [] => [String c EmptyString]
           | p :: ps => String c p :: ps
           end
  end.

End PyStr.

(** ** Paths ([os.path], [pathlib]) in their POSIX flavour *)

Module PyPath.
Import PyStr.

(** [os.path.join(a, b)] *)
Definition join (a b : string) : string :=
  if startswith b "/" then b
  else if negb (nonempty a) || endswith a "/" then a ++ b
  else a ++ "/" ++ b.

(** [Path(p).name]: the last component, empty and [.] components
    dropped. *)
Definition name (p : string) : string :=
  List.last
    (List.filter (fun c => nonempty c && negb (String.eqb c "."))
                 (split_slash p))
    EmptyString.

(** [Path(p).stem]: the name without its last suffix; a leading or a
    trailing dot starts no suffix. *)
Definition stem (p : string) : string :=
  let n := name p in
  match rfind_dot n with
  | Some i =>
      if (0 <? i)%nat && (i <? String.length n - 1)%nat
      then String.substring 0 i n
      else n
  | None => n
  end.

End PyPath.

(** ** The XML document model ([xml.etree.ElementTree]) *)

Module Xml.

(** An element: its tag, its attribute dictionary, its text ([None] when
    the element has no text) and its children in document order. *)
Inductive element : Type :=
| Element (tag : string) (attrib : gmap string string)
          (text : option string) (children : list element).

Definition tag (e : element) : string :=
  match e with Element t _ _ _ => t end.
Definition attrib (e : element) : gmap string string :=
  match e with Element _ a _ _ => a end.
Definition text (e : element) : option string :=
  match e with Element _ _ t _ => t end.
Definition children (e : element) : list element :=
  match e with Element _ _ _ cs => cs end.

(** Every element below [e], in document order ([e] itself excluded). *)
Fixpoint descendants (e : element) : list element :=
  match e with
  | Element _ _ _ cs =>
      (fix go (l : list element) : list element :=
         match l with
         | [] => []
         | c :: l' => c :: descendants c ++ go l'
         end) cs
  end.

(** [e.findall(".//t")] *)
Definition findall_deep (t : string) (e : element) : list element :=
  List.filter (fun d => String.eqb (tag d) t) (descendants e).

(** [e.find(t)]: the first child of [e] with tag [t]. *)
Definition find (t : string) (e : element) : option element :=
  List.find (fun c => String.eqb (tag c) t) (children e).

End Xml.

(** ** The world outside the program *)

Record World : Type := {
  (** [os.path.exists] *)
  path_exists : string -> bool;
  (** [os.path.isfile] *)
  isfile : string -> bool;
  (** [os.listdir]; [None] when it raises *)
  listdir : string -> option (list string);
  (** [os.walk]: per directory visited, its path and its files *)
  walk : string -> list (string * list string);
  (** [os.path.relpath path start] *)
  relpath : string -> string -> string;
  (** the lines of a text file, as iterating the open file gives them;
      [None] when opening or reading raises *)
  read_lines : string -> option (list string);
  (** [ET.parse(path).getroot()]; [None] when it raises *)
  xml_parse : string -> option Xml.element
}.

(** ** Metadata parsers *)

(** One row of the metadata index: title, year, manufacturer, is_clone. *)
Abbreviation meta_row := (string * string * string * bool)%type.

Definition TITLE_PLACEHOLDERS : gset string :=
  {[ "untitled"; "unknown"; "no title" ]}.

(** The body of the loop of [load_rom_titles] on one line. *)
Definition load_rom_titles_line (rom_titles : gmap string string)
    (line : string) : gmap string string :=
  match PyStr.split_max1 (PyStr.strip line) with
  | key0 :: title0 :: _ =>
      let key := PyStr.lower key0 in
      let title := PyStr.strip_quotes title0 in
      if negb (PyStr.nonempty title)
         || bool_decide (PyStr.lower title ∈ TITLE_PLACEHOLDERS)
      then rom_titles
      else <[key := title]> rom_titles
  | _ => rom_titles
  end.

Definition load_rom_titles (w : World) (filename : string)
  : option (gmap string string) :=
  if negb (path_exists w filename) then Some ∅
  else lines ← read_lines w filename;
       Some (foldl load_rom_titles_line ∅ lines).

(** [entry.attrib.get("name") or entry.attrib.get("romname") or ""] *)
Definition record_name (entry : Xml.element) : string :=
  match Xml.attrib entry !! "name" with
  | Some (String c n) => String c n
  | _ => match Xml.attrib entry !! "romname" with
         | Some (String c n) => String c n
         | _ => EmptyString
         end
  end.

(** [entry.attrib.get("isbios", "no") == "yes"] *)
Definition is_bios (entry : Xml.element) : bool :=
  String.eqb (default "no" (Xml.attrib entry !! "isbios")) "yes".

(** [node.text.strip() if node is not None and node.text else dflt] *)
Definition node_text_or (node : option Xml.element) (dflt : string) : string :=
  match node with
  | Some n => match Xml.text n with
              | Some (String c t) => PyStr.strip (String c t)
              | _ => dflt
              end
  | None => dflt
  end.

(** The text of the description of a record: [None] when the record has
    no [description] child or the child has no text. *)
Definition description_text (entry : Xml.element) : option string :=
  match Xml.find "description" entry with
  | Some n => Xml.text n
  | None => None
  end.

(** The row that the loop of [parse_dat_metadata] computes for a record. *)
Definition record_row (entry : Xml.element) : meta_row :=
  let name := record_name entry in
  let title := node_text_or (Xml.find "description" entry) name in
  let year := node_text_or (Xml.find "year" entry) "" in
  let manuf := node_text_or (Xml.find "manufacturer" entry) "" in
  let is_clone := match Xml.attrib entry !! "cloneof" with
                  | Some _ => true
                  | None => false
                  end in
  (title, year, manuf, is_clone).

(** The body of the loop of [parse_dat_metadata] on one record. *)
Definition parse_dat_entry (meta : gmap string meta_row)
    (entry : Xml.element) : gmap string meta_row :=
  if is_bios entry then meta
  else
    let name := record_name entry in
    if PyStr.nonempty name then <[PyStr.lower name := record_row entry]> meta
    else meta.

(** A record that the loop enters into the index, under the key [k]. *)
Definition indexed_as (k : string) (e : Xml.element) : Prop :=
  is_bios e = false /\ PyStr.nonempty (record_name e) = true /\
  PyStr.lower (record_name e) = k.

(** The records of a document, in the order of the loop. *)
Definition dat_entries (root : Xml.element) : list Xml.element :=
  Xml.findall_deep "game" root ++ Xml.findall_deep "machine" root.

Definition parse_dat_root (root : Xml.element) : gmap string meta_row :=
  foldl parse_dat_entry ∅ (dat_entries root).

Definition parse_dat_metadata (w : World) (xml_path : string)
  : gmap string meta_row :=
  if negb (PyStr.nonempty xml_path) || negb (path_exists w xml_path) then ∅
  else match xml_parse w xml_path with
       | Some root => parse_dat_root root
       | None => ∅
       end.

(** ** Catalog engine *)

Definition ROM_HIDE_LIST : gset string := {[ "neocdz"; "rom_to_hide2" ]}.

Definition NEO_GEO_CD : string := "SNK Neo-Geo CD".

(** An element of a catalog: the tuple [(rom, title, year, manuf,
    is_clone)]. *)
Record RomEntry : Type := mkRom {
  rom : string;
  title : string;
  year : string;
  manuf : string;
  is_clone : bool
}.

(** The metadata of an entry, as a row of the index. *)
Definition row_of (e : RomEntry) : meta_row :=
  (title e, year e, manuf e, is_clone e).

(** [sorted(l, key=key)]: the stable ascending sort, by insertion from the
    right; an element goes before every element already placed (all of
    them come later in [l]) whose key is not smaller. *)
Section Sorted.
Context {A : Type} (key : A -> string).

Fixpoint insert_by (x : A) (l : list A) : list A :=
  match l with
  | [] => [x]
  | y :: l' =>
      if String.leb (key x) (key y) then x :: l
      else y :: insert_by x l'
  end.

Fixpoint sorted_by (l : list A) : list A :=
  match l with
  | [] => []
  | x :: l' => insert_by x (sorted_by l')
  end.

(** The order of the keys, and the test that an element has key [k]. *)
Definition key_le (a b : A) : Prop := String.leb (key a) (key b) = true.

Definition key_is (k : string) (a : A) : bool := String.eqb (key a) k.

(** Each element is at most its successor. *)
Definition adjacent_sorted (l : list A) : Prop :=
  forall (i : nat) (a b : A),
    l !! i = Some a -> l !! S i = Some b -> key_le a b.

End Sorted.

(** The sort key of [get_rom_list_cached]: [lambda x: x[1].lower()]. *)
Definition title_key (e : RomEntry) : string := PyStr.lower (title e).

(** The candidate files of a system under [roms_dir]. *)
Definition scan_roms (w : World) (roms_dir system_name : string)
  : option (list string) :=
  if String.eqb system_name NEO_GEO_CD then
    Some (flat_map
            (fun '(root, files) =>
               List.map (fun f => relpath w (PyPath.join root f) roms_dir)
                 (List.filter
                    (fun f => PyStr.endswith (PyStr.lower f) ".cue") files))
            (walk w roms_dir))
  else
    files ← listdir w roms_dir;
    Some (List.filter
            (fun f => isfile w (PyPath.join roms_dir f)
                      && PyStr.endswith_any (PyStr.lower f)
                           [".zip"; ".7z"; ".cue"])
            files).

(** Title, year, manufacturer and clone flag of a candidate that is kept. *)
Definition resolve_rom (meta : gmap string meta_row)
    (rom_titles : gmap string string) (rom : string) : RomEntry :=
  let stem := PyPath.stem rom in
  match meta !! PyStr.lower stem with
  | Some (title, year, manuf, is_clone) => mkRom rom title year manuf is_clone
  | None =>
      mkRom rom (default stem (rom_titles !! PyStr.lower stem)) "" "" false
  end.

(** [k in m] *)
Definition dict_has {V : Type} (m : gmap string V) (k : string) : bool :=
  match m !! k with Some _ => true | None => false end.

(** [if meta]: a dictionary is true when it is not empty. *)
Definition dict_truthy {V : Type} (m : gmap string V) : bool :=
  match map_to_list m with [] => false | _ :: _ => true end.

(** The body of the merge loop on one candidate: the entry appended, or
    [None] when the loop continues without appending. *)
Definition merge_rom (system_name : string) (meta : gmap string meta_row)
    (rom_titles : gmap string string) (rom : string) : option RomEntry :=
  let stem := PyPath.stem rom in
  if bool_decide (PyStr.lower stem ∈ ROM_HIDE_LIST) then None
  else if String.eqb system_name NEO_GEO_CD then
    Some (resolve_rom meta rom_titles rom)
  else if dict_truthy meta && negb (dict_has meta (PyStr.lower stem))
  then None
  else Some (resolve_rom meta rom_titles rom).

(** [rom_list] before it is sorted. *)
Definition merge_roms (system_name : string) (meta : gmap string meta_row)
    (rom_titles : gmap string string) (roms : list string) : list RomEntry :=
  omap (merge_rom system_name meta rom_titles) roms.

Definition load_meta (w : World) (xml_dat_file : string)
  : gmap string meta_row :=
  if PyStr.nonempty xml_dat_file then parse_dat_metadata w xml_dat_file else ∅.

(** What [get_rom_list_cached] computes when the key is not cached: the
    list it stores and returns. *)
Definition build_rom_list (w : World)
    (rom_titles_file roms_dir system_name xml_dat_file : string)
  : option (list RomEntry) :=
  rom_titles ← load_rom_titles w rom_titles_file;
  let meta := load_meta w xml_dat_file in
  if negb (PyStr.nonempty roms_dir) || negb (path_exists w roms_dir) then
    Some []
  else
    roms ← scan_roms w roms_dir system_name;
    Some (sorted_by title_key (merge_roms system_name meta rom_titles roms)).

(** The key of the cache: [(roms_dir, system_name, xml_dat_file)]. *)
Abbreviation cache_key := (string * string * string)%type.

(** [get_rom_list_cached]: the list returned and the cache afterwards. *)
Definition get_rom_list_cached (w : World)
    (rom_titles_file roms_dir system_name xml_dat_file : string)
    (cache_dict : gmap cache_key (list RomEntry))
  : option (list RomEntry * gmap cache_key (list RomEntry)) :=
  let cache_key := (roms_dir, system_name, xml_dat_file) in
  match cache_dict !! cache_key with
  | Some cache => Some (cache, cache_dict)
  | None =>
      rom_list_sorted ←
        build_rom_list w rom_titles_file roms_dir system_name xml_dat_file;
      Some (rom_list_sorted, <[cache_key := rom_list_sorted]> cache_dict)
  end.

(** [TAB_CONFIGS]: system name and title file. *)
Definition TAB_CONFIGS : list (string * string) :=
  [ ("Arcade", "rom_titles_arcade.txt");
    ("CBS ColecoVision", "rom_titles_coleco.txt");
    ("Fairchild ChannelF", "rom_titles_channelf.txt");
    ("MSX 1", "rom_titles_msx.txt");
    ("Nec PC-Engine", "rom_titles_pce.txt");
    ("Nec SuperGrafX", "rom_titles_sgx.txt");
    ("Nec TurboGrafx-16", "rom_titles_tg16.txt");
    ("Nintendo Entertainment System", "rom_titles_nes.txt");
    ("Nintendo Family Disk System", "rom_titles_fds.txt");
    ("Super Nintendo Entertainment System", "rom_titles_snes.txt");
    ("Sega GameGear", "rom_titles_gamegear.txt");
    ("Sega Master System", "rom_titles_sms.txt");
    ("Sega Megadrive", "rom_titles_megadrive.txt");
    ("Sega SG-1000", "rom_titles_sg1000.txt");
    ("SNK Neo-Geo Pocket", "rom_titles_ngp.txt");
    ("SNK Neo-Geo CD", "rom_titles_neocd.txt");
    ("ZX Spectrum", "rom_titles_spectrum.txt") ].

(** ** Filter pipeline *)

(** [p] is a substring of [s] when case is ignored. *)
Definition ci_contains (s p : string) : bool :=
  PyStr.contains (PyStr.lower s) (PyStr.lower p).

(** [filter_rom_list]: the loop keeps an entry when no [continue] is taken
    and the search test holds. *)
Definition filter_keep (search year_filter manuf_filter : string)
    (hide_clones : bool) (e : RomEntry) : bool :=
  if hide_clones && is_clone e then false
  else if PyStr.nonempty year_filter
          && negb (PyStr.contains (year e) year_filter) then false
  else if PyStr.nonempty manuf_filter
          && negb (PyStr.contains (PyStr.lower (manuf e))
                                  (PyStr.lower manuf_filter)) then false
  else negb (PyStr.nonempty search)
       || PyStr.contains (PyStr.lower (title e)) search.

Definition filter_rom_list (rom_list : list RomEntry)
    (search year_filter manuf_filter : string) (hide_clones : bool)
  : list RomEntry :=
  List.filter (filter_keep search year_filter manuf_filter hide_clones)
              rom_list.

(** The call of [filter_rom_list] in [MainWindow.update_rom_list]: the
    search box is lower-cased, the year and manufacturer boxes stripped. *)
Definition update_rom_list_filter (all_roms : list RomEntry)
    (search_text year_text manuf_text : string) (hide_clones : bool)
  : list RomEntry :=
  filter_rom_list all_roms (PyStr.lower search_text) (PyStr.strip year_text)
                  (PyStr.strip manuf_text) hide_clones.

(** ** Repeat-rate input controller *)

Module Input.

Local Open Scope Z_scope.

(** What a poll tick asks of the user interface, in the order asked: a
    call of [setCurrentRow] with its argument, or one of the bound
    callbacks. *)
Inductive Event : Type :=
| SetCurrentRow (row : Z)
| LaunchSelected
| ShowFavorites
| CloseDialog
| PrevTab
| NextTab.

(** The state of a view between two ticks: the dictionaries of
    [MainWindow] and [FavoritesDialog], the list widget ([count()] and
    [currentRow()], -1 when no row is current) and the events so far. *)
Record Ctl : Type := mkCtl {
  last_hat_held : gmap string bool;
  last_hat_held_time : gmap string Z;
  last_key_held : gmap string bool;
  last_key_held_time : gmap string Z;
  last_button_states : gmap string bool;
  last_button_times : gmap string Z;
  count : Z;
  currentRow : Z;
  events : list Event
}.

(** [joystick_config] with its delays in milliseconds
    ([hat_fastest_delay * 1000], [hat_scroll_cooldown * 1000]) and the
    view's [debounce_delay]. *)
Record Config : Type := mkConfig {
  fastest_steps : Z;
  fastest_delay_ms : Z;
  scroll_cooldown_ms : Z;
  debounce_delay : Z;
  buttons : gmap string Z
}.

(** The first joystick as [pygame] reports it at a tick. *)
Record Joystick : Type := mkJoystick {
  numhats : Z;
  hat : Z * Z;
  numbuttons : Z;
  button : Z -> bool
}.

(** A tick's sample: is the window active, the joystick if any, and what
    a change of system would show: the number of rows with which
    [update_rom_list] fills the list when the previous-system button, or
    the next-system button, triggers in this tick. *)
Record Sample : Type := mkSample {
  active : bool;
  joystick : option Joystick;
  prev_tab_rows : Z;
  next_tab_rows : Z
}.

(** [QListWidget.setCurrentRow]: a row of the list becomes current, any
    other argument leaves no current row; the call is recorded. *)
Definition setCurrentRow (row : Z) (st : Ctl) : Ctl :=
  mkCtl (last_hat_held st) (last_hat_held_time st)
        (last_key_held st) (last_key_held_time st)
        (last_button_states st) (last_button_times st)
        (count st)
        (if (0 <=? row) && (row <? count st) then row else -1)
        (events st ++ [SetCurrentRow row]).

Definition emit (e : Event) (st : Ctl) : Ctl :=
  mkCtl (last_hat_held st) (last_hat_held_time st)
        (last_key_held st) (last_key_held_time st)
        (last_button_states st) (last_button_times st)
        (count st) (currentRow st) (events st ++ [e]).

(** What [update_rom_list] leaves of the list widget: [clear()] and one
    [addItem] per row, so [rows] rows of which none is current. *)
Definition rebuild (rows : Z) (st : Ctl) : Ctl :=
  mkCtl (last_hat_held st) (last_hat_held_time st)
        (last_key_held st) (last_key_held_time st)
        (last_button_states st) (last_button_times st)
        rows (-1) (events st).

(** The callback of a system button: [setCurrentIndex] on the next or the
    previous index of the box, which holds the systems of [TAB_CONFIGS],
    so that the index changes; [currentIndexChanged] is connected to
    [update_rom_list], which runs before the callback returns. *)
Definition switch_tab (e : Event) (rows : Z) (st : Ctl) : Ctl :=
  rebuild rows (emit e st).

(** [state_dict] and [time_dict] of [scroll_list], read and written. *)
Definition state_dict (is_keyboard : bool) (st : Ctl) : gmap string bool :=
  if is_keyboard then last_key_held st else last_hat_held st.

Definition time_dict (is_keyboard : bool) (st : Ctl) : gmap string Z :=
  if is_keyboard then last_key_held_time st else last_hat_held_time st.

Definition set_state (is_keyboard : bool) (k : string) (v : bool) (st : Ctl)
  : Ctl :=
  if is_keyboard then
    mkCtl (last_hat_held st) (last_hat_held_time st)
          (<[k := v]> (last_key_held st)) (last_key_held_time st)
          (last_button_states st) (last_button_times st)
          (count st) (currentRow st) (events st)
  else
    mkCtl (<[k := v]> (last_hat_held st)) (last_hat_held_time st)
          (last_key_held st) (last_key_held_time st)
          (last_button_states st) (last_button_times st)
          (count st) (currentRow st) (events st).

Definition set_time (is_keyboard : bool) (k : string) (v : Z) (st : Ctl)
  : Ctl :=
  if is_keyboard then
    mkCtl (last_hat_held st) (last_hat_held_time st)
          (last_key_held st) (<[k := v]> (last_key_held_time st))
          (last_button_states st) (last_button_times st)
          (count st) (currentRow st) (events st)
  else
    mkCtl (last_hat_held st) (<[k := v]> (last_hat_held_time st))
          (last_key_held st) (last_key_held_time st)
          (last_button_states st) (last_button_times st)
          (count st) (currentRow st) (events st).

Definition set_button_state (k : string) (v : bool) (st : Ctl) : Ctl :=
  mkCtl (last_hat_held st) (last_hat_held_time st)
        (last_key_held st) (last_key_held_time st)
        (<[k := v]> (last_button_states st)) (last_button_times st)
        (count st) (currentRow st) (events st).

Definition set_button_time (k : string) (v : Z) (st : Ctl) : Ctl :=
  mkCtl (last_hat_held st) (last_hat_held_time st)
        (last_key_held st) (last_key_held_time st)
        (last_button_states st) (<[k := v]> (last_button_times st))
        (count st) (currentRow st) (events st).

(** The row a move of [steps] asks for: [max(0, from - steps)] towards
    the start of the list, [min(size - 1, from + steps)] towards its
    end. *)
Definition target (backward : bool) (size from steps : Z) : Z :=
  if backward then Z.max 0 (from - steps) else Z.min (size - 1) (from + steps).

(** The branch of [MainWindow.poll_joystick.scroll_list] that a call
    takes. *)
Inductive Branch : Type :=
| HeldEdge | FastRepeat | Fallback200 | Waiting | Released.

Definition scroll_branch (cfg : Config) (now : Z) (direction : bool)
    (held_key : string) (is_keyboard : bool) (st : Ctl) : Branch :=
  if direction then
    if negb (default false (state_dict is_keyboard st !! held_key)) then
      HeldEdge
    else if now - default 0 (time_dict is_keyboard st !! held_key)
            >? fastest_delay_ms cfg then FastRepeat
    else if now - default 0 (time_dict is_keyboard st !! held_key) >? 200
    then Fallback200
    else Waiting
  else Released.

(** [MainWindow.poll_joystick.scroll_list]; [now], [idx] and [size] are
    the variables of the enclosing tick. *)
Definition scroll_list (cfg : Config) (now idx size : Z) (direction : bool)
    (steps : Z) (held_key : string) (is_keyboard : bool) (st : Ctl) : Ctl :=
  let left := String.eqb held_key "left" in
  match scroll_branch cfg now direction held_key is_keyboard st with
  | HeldEdge =>
      set_time is_keyboard held_key now
        (set_state is_keyboard held_key true
           (setCurrentRow (target left size idx steps) st))
  | FastRepeat =>
      set_time is_keyboard held_key (now - (fastest_delay_ms cfg - 50))
        (setCurrentRow (target left size (currentRow st) steps) st)
  | Fallback200 =>
      set_time is_keyboard held_key now
        (setCurrentRow (target left size (currentRow st) steps) st)
  | Waiting => st
  | Released => set_state is_keyboard held_key false st
  end.

(** The [hat_up] and [hat_down] blocks of [MainWindow.poll_joystick]:
    one step, repeated every [scroll_cooldown]. *)
Definition hat_step (cfg : Config) (now idx size : Z) (direction : bool)
    (held_key : string) (st : Ctl) : Ctl :=
  let up := String.eqb held_key "up" in
  if direction then
    if negb (default false (last_hat_held st !! held_key)) then
      set_state false held_key true
        (set_time false held_key now
           (setCurrentRow (target up size idx 1) st))
    else if scroll_cooldown_ms cfg
            <=? now - default 0 (last_hat_held_time st !! held_key) then
      set_time false held_key now
        (setCurrentRow (target up size (currentRow st) 1) st)
    else st
  else set_state false held_key false st.

(** [check_button] of [MainWindow.poll_joystick]. *)
Definition check_button (cfg : Config) (now : Z) (j : Joystick)
    (btn_key : string) (action : Ctl -> Ctl) (st : Ctl) : Ctl :=
  let idx := default (-1) (buttons cfg !! btn_key) in
  if (idx <? 0) || (numbuttons j <=? idx) then st
  else
    let pressed := button j idx in
    let last_time := default 0 (last_button_times st !! btn_key) in
    let st1 :=
      if pressed && negb (default false (last_button_states st !! btn_key))
      then
        if debounce_delay cfg <=? now - last_time
        then set_button_time btn_key now (action st)
        else st
      else st in
    set_button_state btn_key pressed st1.

Definition action_up (st : Ctl) : Ctl :=
  setCurrentRow (Z.max 0 (currentRow st - 1)) st.

Definition action_down (st : Ctl) : Ctl :=
  setCurrentRow (Z.min (count st - 1) (currentRow st + 1)) st.

(** [MainWindow.poll_joystick].  The arrow keys are not sampled: the event
    filter sets [last_key_held] and [last_key_held_time] between ticks, so
    that [scroll_list] finds a pressed key held already.  The callbacks of
    the select and favorites buttons leave the list as it is; those of the
    system buttons, checked last, rebuild it. *)
Definition poll_joystick (cfg : Config) (now : Z) (s : Sample) (st : Ctl)
  : Ctl :=
  if negb (active s) then st
  else
    let idx := currentRow st in
    let size := count st in
    let steps := fastest_steps cfg in
    let st1 :=
      match joystick s with
      | Some j =>
          if 0 <? numhats j then
            let hat_up := (snd (hat j) =? 1) in
            let hat_down := (snd (hat j) =? -1) in
            let hat_left := (fst (hat j) =? -1) in
            let hat_right := (fst (hat j) =? 1) in
            scroll_list cfg now idx size hat_right steps "right" false
              (scroll_list cfg now idx size hat_left steps "left" false
                 (hat_step cfg now idx size hat_down "down"
                    (hat_step cfg now idx size hat_up "up" st)))
          else st
      | None => st
      end in
    let st2 :=
      scroll_list cfg now idx size
        (default false (last_key_held st1 !! "left")) steps "left" true st1 in
    let st3 :=
      scroll_list cfg now idx size
        (default false (last_key_held st2 !! "right")) steps "right" true
        st2 in
    match joystick s with
    | Some j =>
        check_button cfg now j "button_next_tab"
          (switch_tab NextTab (next_tab_rows s))
          (check_button cfg now j "button_prev_tab"
             (switch_tab PrevTab (prev_tab_rows s))
             (check_button cfg now j "button_favorites" (emit ShowFavorites)
                (check_button cfg now j "button_select" (emit LaunchSelected)
                   (check_button cfg now j "button_down" action_down
                      (check_button cfg now j "button_up" action_up st3)))))
    | None => st3
    end.

(** [FavoritesDialog.poll_joystick.scroll_list] *)
Definition fav_scroll_list (cfg : Config) (now idx size : Z)
    (direction : bool) (steps : Z) (held_key : string) (st : Ctl) : Ctl :=
  if direction then
    let time_elapsed := now - default 0 (last_hat_held_time st !! held_key) in
    if negb (default false (last_hat_held st !! held_key))
       || (scroll_cooldown_ms cfg <=? time_elapsed)
    then
      set_state false held_key true
        (set_time false held_key now
           (setCurrentRow (target (String.eqb held_key "up") size idx steps)
                          st))
    else st
  else set_state false held_key false st.

(** [check_button] of [FavoritesDialog.poll_joystick]: a release is time
    stamped too. *)
Definition fav_check_button (cfg : Config) (now : Z) (j : Joystick)
    (btn_key : string) (action : Ctl -> Ctl) (st : Ctl) : Ctl :=
  let idx := default (-1) (buttons cfg !! btn_key) in
  if (idx <? 0) || (numbuttons j <=? idx) then st
  else
    let pressed := button j idx in
    let last_state := default false (last_button_states st !! btn_key) in
    let last_time := default 0 (last_button_times st !! btn_key) in
    let st1 :=
      if pressed && negb last_state then
        if debounce_delay cfg <=? now - last_time
        then set_button_time btn_key now (action st)
        else st
      else if negb pressed && last_state then set_button_time btn_key now st
      else st in
    set_button_state btn_key pressed st1.

(** [FavoritesDialog.poll_joystick] *)
Definition fav_poll_joystick (cfg : Config) (now : Z) (s : Sample) (st : Ctl)
  : Ctl :=
  if negb (active s) then st
  else
    let idx := currentRow st in
    let size := count st in
    let st1 :=
      match joystick s with
      | Some j =>
          if 0 <? numhats j then
            let hat_up := (snd (hat j) =? 1) in
            let hat_down := (snd (hat j) =? -1) in
            fav_scroll_list cfg now idx size hat_down 1 "down"
              (fav_scroll_list cfg now idx size hat_up 1 "up" st)
          else st
      | None => st
      end in
    match joystick s with
    | Some j =>
        fav_check_button cfg now j "button_favorites" (emit CloseDialog)
          (fav_check_button cfg now j "button_select" (emit LaunchSelected)
             (fav_check_button cfg now j "button_down" action_down
                (fav_check_button cfg now j "button_up" action_up st1)))
    | None => st1
    end.

(** The state in which a view starts ([__init__]), on a list of [n]
    items with current row [r]. *)
Definition init (n r : Z) : Ctl :=
  mkCtl (list_to_map [("left", false); ("right", false);
                      ("up", false); ("down", false)])
        (list_to_map [("left", 0); ("right", 0); ("up", 0); ("down", 0)])
        (list_to_map [("left", false); ("right", false)])
        (list_to_map [("left", 0); ("right", 0)])
        ∅ ∅ n r [].

(** [DEFAULT_CONFIG["joystick_config"]], with [debounce_delay = 200]. *)
Definition default_config : Config :=
  mkConfig 10 20 80 200
    (list_to_map [("button_up", 2); ("button_down", 3); ("button_select", 0);
                  ("button_favorites", 7); ("button_prev_tab", 4);
                  ("button_next_tab", 5)]).

(** What the right direction of the hat reads and writes of a state: the
    list size, the current row, the events, and its held flag and time
    stamp as [scroll_list] reads them. *)
Definition right_view (st : Ctl) : Z * Z * list Event * bool * Z :=
  (count st, currentRow st, events st,
   default false (last_hat_held st !! "right"),
   default 0 (last_hat_held_time st !! "right")).

(** The arrow keys as [poll_joystick] reads them. *)
Definition keys_view (st : Ctl) : bool * bool :=
  (default false (last_key_held st !! "left"),
   default false (last_key_held st !! "right")).

(** A sample in which the window is active and [j] is plugged in; a
    change of system would show one row. *)
Definition plugged (j : Joystick) : Sample := mkSample true (Some j) 1 1.

(** A joystick whose hat points to [h] and whose buttons are all up. *)
Definition hat_only (h : Z * Z) (nbuttons : Z) : Joystick :=
  mkJoystick 1 h nbuttons (fun _ => false).

(** Ticks in sequence, each with its time and its sample. *)
Definition run (cfg : Config) (ticks : list (Z * Sample)) (st : Ctl) : Ctl :=
  foldl (fun st '(now, s) => poll_joystick cfg now s st) st ticks.


(** The events [evs] are moves and callbacks on the list as it is: [ok]
    holds of every row that they ask the list for, and none of them is a
    change of system. *)
Definition rows_ok (ok : Z -> Prop) (evs : list Event) : Prop :=
  Forall (fun e => match e with
                   | SetCurrentRow r => ok r
                   | PrevTab | NextTab => False
                   | _ => True
                   end) evs.

(** During a tick on a list of [n] items that started with the events
    [base]: the list keeps its size, the current row is a row of the list
    or -1, every row asked for since satisfies [ok] and the system has not
    been changed. *)
Definition tick_inv (ok : Z -> Prop) (n : Z) (base : list Event) (st : Ctl)
  : Prop :=
  count st = n /\ -1 <= currentRow st < Z.max n 0 /\
  exists evs, events st = (base ++ evs)%list /\ rows_ok ok evs.

(** Ticks at the times [ts] during which the hat is held to the right and
    no button is down. *)
Definition hold_right (nbuttons : Z) (ts : list Z) : list (Z * Sample) :=
  List.map (fun t => (t, plugged (hat_only (1, 0) nbuttons))) ts.

End Input.

(** ** Concrete documents, worlds and samples *)

Module Examples.

Definition leaf (t x : string) : Xml.element := Xml.Element t ∅ (Some x) [].

Definition game (nm : string) (attrs : list (string * string))
    (kids : list Xml.element) : Xml.element :=
  Xml.Element "game" (list_to_map (("name", nm) :: attrs)) None kids.

(** A data file with a BIOS record, a parent, its clone, a record whose
    description is blank and a record without description. *)
Definition dat1 : Xml.element :=
  Xml.Element "datafile" ∅ None
    [ game "neogeo" [("isbios", "yes")] [leaf "description" "Neo-Geo"];
      game "sf2" []
        [leaf "description" "Street Fighter II"; leaf "year" "1991";
         leaf "manufacturer" "Capcom"];
      game "sf2ce" [("cloneof", "sf2")]
        [leaf "description" "Street Fighter II' Champion Edition"];
      game "blank" [] [leaf "description" "   "];
      game "nodesc" [] [] ].

(** A data file with nothing but a BIOS record that has no description. *)
Definition dat2 : Xml.element :=
  Xml.Element "datafile" ∅ None [ game "neogeo" [("isbios", "yes")] [] ].

(** A data file with a BIOS record that has no description and a record
    whose description is blank. *)
Definition dat3 : Xml.element :=
  Xml.Element "datafile" ∅ None
    [ game "neogeo" [("isbios", "yes")] [];
      game "blank" [] [leaf "description" "   "] ].

(** A data file with a BIOS record and a playable record whose names
    differ in case only. *)
Definition dat4 : Xml.element :=
  Xml.Element "datafile" ∅ None
    [ game "neogeo" [("isbios", "yes")] [leaf "description" "Neo-Geo"];
      game "NeoGeo" [] [leaf "description" "Not the BIOS"] ].

(** A directory [roms] with archives, a text file and a hidden name; below
    it two disc sheets, one of them hidden; two title files; two data
    files. *)
Definition world1 : World := {|
  path_exists := fun p =>
    bool_decide (p ∈ ["roms"; "t1.txt"; "t2.txt"; "a.dat"; "b.dat"]);
  isfile := fun p => true;
  listdir := fun p =>
    if String.eqb p "roms"
    then Some ["sf2ce.zip"; "SF2.ZIP"; "other.7z"; "readme.txt"; "neocdz.zip"]
    else None;
  walk := fun p =>
    if String.eqb p "roms"
    then [("roms", ["a.cue"; "b.bin"]); ("roms/sub", ["neocdz.cue"; "Z.CUE"])]
    else [];
  relpath := fun p start =>
    String.substring (S (String.length start)) (String.length p) p;
  read_lines := fun p =>
    if String.eqb p "t1.txt" then Some ["other  The Other"; "a  Alpha Game"]
    else if String.eqb p "t2.txt" then Some ["other  Another"; "z Unknown"]
    else None;
  xml_parse := fun p =>
    if String.eqb p "a.dat" then Some dat1
    else if String.eqb p "b.dat" then Some dat2
    else None
|}.

End Examples.

(** ** Launching a ROM *)

Module Launcher.

(** What the operating system answers [run_rom] beyond [World]:
    [os.access(path, os.X_OK)], and whether [subprocess.Popen] starts the
    command ([false] when it raises). *)
Record Process : Type := {
  access_x : string -> bool;
  popen_ok : list string -> bool
}.

(** How a call of [run_rom] ends: with one of its four error boxes, with
    the process started, or with the box for a failed start. *)
Inductive Outcome : Type :=
| RomNotFound (rom_path : string)
| InvalidRetroarch (retroarch : string)
| InvalidCore (core : string)
| BadCoreSuffix (core : string)
| Started (cmd : list string)
| FailedToLaunch (cmd : list string).

(** [core.lower().endswith(".dll") or ... ".so" or ... ".dylib"] *)
Definition core_suffix_ok (core : string) : bool :=
  PyStr.endswith (PyStr.lower core) ".dll"
  || PyStr.endswith (PyStr.lower core) ".so"
  || PyStr.endswith (PyStr.lower core) ".dylib".

(** [system_name == "SNK Neo-Geo CD" or rom.lower().endswith(".cue")] *)
Definition wants_subsystem (system_name rom : string) : bool :=
  String.eqb system_name NEO_GEO_CD || PyStr.endswith (PyStr.lower rom) ".cue".

(** [run_rom] *)
Definition run_rom (w : World) (p : Process)
    (rom roms_dir retroarch core system_name : string) : Outcome :=
  let rom_path := PyPath.join roms_dir rom in
  if negb (path_exists w rom_path) then RomNotFound rom_path
  else if negb (path_exists w retroarch) || negb (access_x p retroarch)
  then InvalidRetroarch retroarch
  else if negb (path_exists w core) then InvalidCore core
  else if negb (core_suffix_ok core) then BadCoreSuffix core
  else
    let cmd :=
      ([retroarch; "-L"; core]
       ++ (if wants_subsystem system_name rom
           then ["--subsystem"; "neocd"] else [])
       ++ [rom_path])%list in
    if popen_ok p cmd then Started cmd else FailedToLaunch cmd.

End Launcher.

(** ** The list of the main window *)

Module MainList.

(** The text of a row: the title, then the year in brackets and the
    manufacturer in parentheses when they are not empty. *)
Definition display_text (title year manuf : string) : string :=
  if PyStr.nonempty year || PyStr.nonempty manuf then
    (title ++ (if PyStr.nonempty year then " [" ++ year ++ "]" else "")
           ++ (if PyStr.nonempty manuf then " (" ++ manuf ++ ")" else ""))
  else title.

Definition NO_ROMS : string := "No ROMs found.".

(** The rows of [roms_list] after [update_rom_list] has filled it from
    [self.roms]. *)
Definition roms_list_items (roms : list RomEntry) : list string :=
  match List.map (fun e => display_text (title e) (year e) (manuf e)) roms with
  | [] => [NO_ROMS]
  | items => items
  end.

(** [l[i]] for a Python list: a negative index counts from the end;
    [None] is [IndexError]. *)
Definition py_index {A : Type} (l : list A) (i : Z) : option A :=
  if (0 <=? i)%Z then l !! Z.to_nat i
  else if (- Z.of_nat (length l) <=? i)%Z
       then l !! Z.to_nat (Z.of_nat (length l) + i)
  else None.

(** [roms_list.item(idx)]: [None] when [idx] is no row. *)
Definition item (items : list string) (idx : Z) : option string :=
  if (0 <=? idx)%Z then items !! Z.to_nat idx else None.

(** How [launch_selected_rom] ends: with the warning box or with the call
    of [run_rom]. *)
Inductive Launch : Type :=
| SelectARom
| Ran (o : Launcher.Outcome).

(** [launch_selected_rom], with [idx] the current row, [roms] the filtered
    list and [items] the rows of the widget; [None] when it raises
    ([item(idx)] is [None], or [roms[idx]] is out of range). *)
Definition launch_selected_rom (w : World) (p : Launcher.Process)
    (roms_dir retroarch core sys_name : string)
    (idx : Z) (roms : list RomEntry) (items : list string) : option Launch :=
  if (idx <? 0)%Z then Some SelectARom
  else match roms with
       | [] => Some SelectARom
       | _ :: _ =>
           it ← item items idx;
           if String.eqb it NO_ROMS then Some SelectARom
           else e ← py_index roms idx;
                Some (Ran (Launcher.run_rom w p (rom e) roms_dir retroarch
                                            core sys_name))
       end.

(** [(currentIndex() - 1) % count()] and [(currentIndex() + 1) % count()]
    of the two system buttons; [None] is [ZeroDivisionError]. *)
Definition prev_tab (count idx : Z) : option Z :=
  if (count =? 0)%Z then None else Some ((idx - 1) mod count)%Z.

Definition next_tab (count idx : Z) : option Z :=
  if (count =? 0)%Z then None else Some ((idx + 1) mod count)%Z.

(** [find_file_case_insensitive]; [isdir] is [os.path.isdir]; the outer
    [None] is an exception of [os.listdir], the inner one the result
    [None]. *)
Definition find_file_case_insensitive (w : World) (isdir : string -> bool)
    (directory filename : string) : option (option string) :=
  if negb (PyStr.nonempty directory) || negb (isdir directory) then Some None
  else
    files ← listdir w directory;
    Some (PyPath.join directory <$>
            List.find (fun f => String.eqb (PyStr.lower f)
                                           (PyStr.lower filename)) files).

End MainList.

(** ** Favorites *)

Module Favorites.

(** A favorite is a tuple when [add_to_favorites] made it and a list when
    [json.load] read it; its items are strings. *)
Inductive PySeq : Type :=
| PyTuple (items : list string)
| PyList (items : list string).

Definition seq_items (s : PySeq) : list string :=
  match s with PyTuple l | PyList l => l end.

(** [a == b]: a tuple is never equal to a list. *)
Definition py_eq (a b : PySeq) : bool :=
  match a, b with
  | PyTuple x, PyTuple y | PyList x, PyList y => bool_decide (x = y)
  | _, _ => false
  end.

(** [x in l] *)
Definition py_in (x : PySeq) (l : list PySeq) : bool := existsb (py_eq x) l.

(** What [json.load] reads back of favorites that [json.dump] wrote:
    every sequence is an array in the file and a list afterwards. *)
Definition json_reload (favorites : list PySeq) : list PySeq :=
  List.map (fun f => PyList (seq_items f)) favorites.

(** [(sys_name, rom, title, year, manuf)] *)
Definition favorite_of (sys_name : string) (e : RomEntry) : PySeq :=
  PyTuple [sys_name; rom e; title e; year e; manuf e].

(** [MainWindow.add_to_favorites]: the favorites afterwards; [None] when
    [self.roms[idx]] raises. *)
Definition add_to_favorites (sys_name : string) (roms : list RomEntry)
    (idx : Z) (favorites : list PySeq) : option (list PySeq) :=
  e ← MainList.py_index roms idx;
  let favorite := favorite_of sys_name e in
  Some (if py_in favorite favorites then favorites
        else (favorites ++ [favorite])%list).

(** [FavoritesDialog.remove_selected_favorite]: the favorites afterwards
    (unchanged behind the warning box); [None] when [favorites[idx]] or
    [fav[2]] raises, which is before [pop(idx)]. *)
Definition remove_selected_favorite (idx : Z) (favorites : list PySeq)
  : option (list PySeq) :=
  if (idx <? 0)%Z then Some favorites
  else match favorites with
       | [] => Some favorites
       | _ :: _ =>
           fav ← favorites !! Z.to_nat idx;
           _ ← seq_items fav !! 2%nat;
           Some (take (Z.to_nat idx) favorites
                 ++ drop (S (Z.to_nat idx)) favorites)%list
       end.

End Favorites.

(** ** Arrow keys and views of the controller state *)

Module Keys.
Import Input.

(** [MainWindow.eventFilter] on a press and on a release of the arrow key
    [k] ([left] or [right]) in the list. *)
Definition key_press (k : string) (now : Z) (st : Ctl) : Ctl :=
  set_time true k now (set_state true k true st).

Definition key_release (k : string) (st : Ctl) : Ctl :=
  set_state true k false st.

(** What a direction reads and writes of a state: the list size, the
    current row, the events, and the held flag and time stamp of the key
    [k] in the hat or in the keyboard dictionaries. *)
Definition dir_view (kb : bool) (k : string) (st : Ctl)
  : Z * Z * list Event * bool * Z :=
  (count st, currentRow st, events st,
   default false (state_dict kb st !! k),
   default 0%Z (time_dict kb st !! k)).

(** What a button reads and writes of a state besides its action: the
    last state and the last time of the key [k]. *)
Definition btn_view (k : string) (st : Ctl) : bool * Z :=
  (default false (last_button_states st !! k),
   default 0%Z (last_button_times st !! k)).

(** A joystick without hat whose button [idx] is down or up. *)
Definition one_button (idx : Z) (down : bool) : Joystick :=
  mkJoystick 0 (0, 0)%Z (idx + 1)%Z (fun i => down && (i =? idx)%Z).

(** Calls of [check_button] of the main window, and of the favorites
    dialog, for one key over ticks with their times and joysticks. *)
Definition button_run (cfg : Config) (k : string) (action : Ctl -> Ctl)
    (ticks : list (Z * Joystick)) (st : Ctl) : Ctl :=
  foldl (fun st '(now, j) => check_button cfg now j k action st) st ticks.

Definition fav_button_run (cfg : Config) (k : string) (action : Ctl -> Ctl)
    (ticks : list (Z * Joystick)) (st : Ctl) : Ctl :=
  foldl (fun st '(now, j) => fav_check_button cfg now j k action st) st ticks.

(** Ticks of the favorites dialog in sequence. *)
Definition fav_run (cfg : Config) (ticks : list (Z * Sample)) (st : Ctl)
  : Ctl :=
  foldl (fun st '(now, s) => fav_poll_joystick cfg now s st) st ticks.

(** Ticks at the times [ts] during which the hat is held to [h] and no
    button is down. *)
Definition hold_hat (h : Z * Z) (nbuttons : Z) (ts : list Z)
  : list (Z * Sample) :=
  List.map (fun t => (t, plugged (hat_only h nbuttons))) ts.

(** Ticks at the times [ts] without joystick. *)
Definition no_joystick (ts : list Z) : list (Z * Sample) :=
  List.map (fun t => (t, mkSample true None 1 1)) ts.

End Keys.

(** ** Further concrete data *)

Module Examples2.

(** A file system with a ROM, an emulator and a core. *)
Definition world2 : World := {|
  path_exists := fun p =>
    bool_decide (p ∈ ["roms"; "roms/sf2.zip"; "roms/disc/game.cue";
                      "/usr/bin/retroarch"; "/cores/fbneo_libretro.so"]);
  isfile := fun p => true;
  listdir := fun p =>
    if String.eqb p "titles" then Some ["SF2.png"; "sf2.PNG"; "other.png"]
    else None;
  walk := fun p => [];
  relpath := fun p start => p;
  read_lines := fun p => None;
  xml_parse := fun p => None
|}.

(** A file system whose data file [c.dat] is [Examples.dat4]. *)
Definition world3 : World := {|
  path_exists := fun p => bool_decide (p ∈ ["c.dat"]);
  isfile := fun p => true;
  listdir := fun p => None;
  walk := fun p => [];
  relpath := fun p start => p;
  read_lines := fun p => None;
  xml_parse := fun p => if String.eqb p "c.dat" then Some Examples.dat4 else None
|}.

(** Every file may be executed and every command starts. *)
Definition process2 : Launcher.Process := {|
  Launcher.access_x := fun p => true;
  Launcher.popen_ok := fun cmd => true
|}.

Definition sf2 : RomEntry :=
  mkRom "sf2.zip" "Street Fighter II" "1991" "Capcom" false.

Definition sf2ce : RomEntry :=
  mkRom "sf2ce.zip" "Street Fighter II' Champion Edition" "" "" true.

End Examples2.

(** * Properties *)

(** ** Strings *)

Lemma nonempty_lower (s : string) :
  PyStr.nonempty (PyStr.lower s) = PyStr.nonempty s.
Proof. by destruct s. Qed.

Lemma nonempty_false (s : string) : PyStr.nonempty s = false ↔ s = "".
Proof. destruct s; naive_solver. Qed.

Lemma leb_refl (s : string) : String.leb s s = true.
Proof. by destruct (String.leb_total s s). Qed.

Example split_max1_title :
  PyStr.split_max1 (PyStr.strip "  sf2   Street Fighter II  ")
  = ["sf2"; "Street Fighter II"].
Proof. reflexivity. Qed.

Example stem_of_paths :
  List.map PyPath.stem ["sub/dir/Game.One.cue"; "SF2.ZIP"; ".zip"; "a.b."]
  = ["Game.One"; "SF2"; ".zip"; "a.b."].
Proof. reflexivity. Qed.

Example lower_mixed : PyStr.lower "Neo-Geo CD_1" = "neo-geo cd_1".
Proof. reflexivity. Qed.

(** ** The sort *)

Section SortedFacts.
Context {A : Type} (key : A → string).

Lemma insert_by_perm (x : A) (l : list A) : insert_by key x l ≡ₚ x :: l.
Proof.
  induction l as [|y l IH]; simpl; [done|].
  destruct (String.leb (key x) (key y)); [done|].
  by rewrite IH, Permutation_swap.
Qed.

Lemma sorted_by_perm (l : list A) : sorted_by key l ≡ₚ l.
Proof.
  induction l as [|x l IH]; simpl; [done|].
  by rewrite insert_by_perm, IH.
Qed.

Lemma insert_by_hdrel (a x : A) (l : list A) :
  key_le key a x → HdRel (key_le key) a l →
  HdRel (key_le key) a (insert_by key x l).
Proof.
  intros Hax Hal. destruct l as [|y l]; simpl; [by constructor|].
  destruct (String.leb (key x) (key y)); constructor; [done|].
  by inversion Hal.
Qed.

Lemma insert_by_sorted (x : A) (l : list A) :
  Sorted (key_le key) l → Sorted (key_le key) (insert_by key x l).
Proof.
  induction 1 as [|y l Hl IH Hy]; simpl; [by repeat constructor|].
  destruct (String.leb (key x) (key y)) eqn:Hxy.
  - constructor; [by constructor|]. by constructor.
  - constructor; [done|]. apply insert_by_hdrel; [|done].
    unfold key_le.
    by destruct (String.leb_total (key x) (key y)) as [?|?]; [congruence|].
Qed.

Lemma sorted_by_sorted (l : list A) : Sorted (key_le key) (sorted_by key l).
Proof.
  induction l as [|x l IH]; simpl; [constructor|].
  by apply insert_by_sorted.
Qed.

(** Inserting an element disturbs no class of equal keys: within its class
    it comes first, as it does in [x :: l]. *)
Lemma insert_by_stable (k : string) (x : A) (l : list A) :
  List.filter (key_is key k) (insert_by key x l)
  = List.filter (key_is key k) (x :: l).
Proof.
  induction l as [|y l IH]; [done|].
  cbn [insert_by]. destruct (String.leb (key x) (key y)) eqn:Hxy; [done|].
  cbn [List.filter] in *. rewrite IH. unfold key_is.
  destruct (String.eqb_spec (key x) k) as [Hx|Hx],
           (String.eqb_spec (key y) k) as [Hy|Hy]; try done.
  rewrite Hx, Hy, leb_refl in Hxy. done.
Qed.

Lemma sorted_by_stable (k : string) (l : list A) :
  List.filter (key_is key k) (sorted_by key l) = List.filter (key_is key k) l.
Proof.
  induction l as [|x l IH]; [done|].
  cbn [sorted_by]. rewrite insert_by_stable. cbn [List.filter].
  by rewrite IH.
Qed.

Lemma sorted_adjacent (l : list A) :
  Sorted (key_le key) l → adjacent_sorted key l.
Proof.
  intros Hl i a b. revert i. induction Hl as [|x l Hl IH Hx]; intros i; [done|].
  destruct i as [|i]; simpl.
  - intros [= ->] Hb. destruct l; simplify_eq/=. by inversion Hx.
  - apply IH.
Qed.

End SortedFacts.

(** ** Catalog engine *)

Lemma build_rom_list_sorted (w : World) (tf dir sys xml : string)
    (l : list RomEntry) :
  build_rom_list w tf dir sys xml = Some l → Sorted (key_le title_key) l.
Proof.
  unfold build_rom_list. intros H.
  destruct (load_rom_titles w tf) as [rom_titles|]; simplify_eq/=.
  destruct (negb (PyStr.nonempty dir) || negb (path_exists w dir));
    simplify_eq/=; [constructor|].
  destruct (scan_roms w dir sys) as [roms|]; simplify_eq/=.
  apply sorted_by_sorted.
Qed.

(** What a build that scans the directory returns. *)
Lemma build_rom_list_scanned (w : World) (tf dir sys xml : string)
    (rom_titles : gmap string string) (roms : list string) :
  load_rom_titles w tf = Some rom_titles →
  PyStr.nonempty dir = true → path_exists w dir = true →
  scan_roms w dir sys = Some roms →
  build_rom_list w tf dir sys xml
  = Some (sorted_by title_key
            (merge_roms sys (load_meta w xml) rom_titles roms)).
Proof.
  intros Ht Hd He Hs. unfold build_rom_list.
  by rewrite Ht, Hd, He, Hs.
Qed.

Lemma get_rom_list_cached_hit (w : World) (tf dir sys xml : string)
    (cache_dict : gmap cache_key (list RomEntry)) (l : list RomEntry) :
  cache_dict !! (dir, sys, xml) = Some l →
  get_rom_list_cached w tf dir sys xml cache_dict = Some (l, cache_dict).
Proof. intros H. unfold get_rom_list_cached. cbv zeta. by rewrite H. Qed.

Lemma get_rom_list_cached_miss (w : World) (tf dir sys xml : string)
    (cache_dict : gmap cache_key (list RomEntry)) :
  cache_dict !! (dir, sys, xml) = None →
  get_rom_list_cached w tf dir sys xml cache_dict
  = (l ← build_rom_list w tf dir sys xml;
     Some (l, <[(dir, sys, xml) := l]> cache_dict)).
Proof. intros H. unfold get_rom_list_cached. cbv zeta. by rewrite H. Qed.

(** C8: after a call of [get_rom_list_cached] that returned [v], the cache
    holds [v] under the key, and a second call with the same key returns
    [v] and leaves the cache as it is whatever the file system and the
    title file are then: nothing is scanned or parsed again. *)
Theorem C8_second_call_returns_cached (w : World) (tf dir sys xml : string)
    (cache_dict cache1 : gmap cache_key (list RomEntry)) (v : list RomEntry) :
  get_rom_list_cached w tf dir sys xml cache_dict = Some (v, cache1) →
  cache1 !! (dir, sys, xml) = Some v ∧
  ∀ (w' : World) (tf' : string),
    get_rom_list_cached w' tf' dir sys xml cache1 = Some (v, cache1).
Proof.
  intros H.
  assert (cache1 !! (dir, sys, xml) = Some v) as Hv.
  { unfold get_rom_list_cached in H. cbv zeta in H.
    destruct (cache_dict !! (dir, sys, xml)) as [c|] eqn:Hc; simplify_eq/=.
    - done.
    - destruct (build_rom_list w tf dir sys xml); simplify_eq/=.
      apply lookup_insert_eq. }
  split; [done|]. intros w' tf'. by apply get_rom_list_cached_hit.
Qed.

(** C4: if every list in the cache is sorted by lower-cased title, the list
    that [get_rom_list_cached] returns is, and so is every list in the
    cache afterwards (the empty cache is such a cache); and when the call
    builds the list from a scan, the entries of each lower-cased title are
    in the list in the order in which the scan enumerated them. *)
Theorem C4_catalog_sorted_stable (w : World) (tf dir sys xml : string)
    (cache_dict cache1 : gmap cache_key (list RomEntry)) (v : list RomEntry) :
  (∀ k l, cache_dict !! k = Some l → adjacent_sorted title_key l) →
  get_rom_list_cached w tf dir sys xml cache_dict = Some (v, cache1) →
  adjacent_sorted title_key v ∧
  (∀ k l, cache1 !! k = Some l → adjacent_sorted title_key l) ∧
  (∀ k l, (∅ : gmap cache_key (list RomEntry)) !! k = Some l →
          adjacent_sorted title_key l) ∧
  (cache_dict !! (dir, sys, xml) = None →
   PyStr.nonempty dir = true → path_exists w dir = true →
   ∃ rom_titles roms,
     load_rom_titles w tf = Some rom_titles ∧
     scan_roms w dir sys = Some roms ∧
     ∀ k, List.filter (key_is title_key k) v
          = List.filter (key_is title_key k)
              (merge_roms sys (load_meta w xml) rom_titles roms)).
Proof.
  intros Hinv H. unfold get_rom_list_cached in H. cbv zeta in H.
  destruct (cache_dict !! (dir, sys, xml)) as [c|] eqn:Hc; simplify_eq/=.
  - split_and!; [by eapply Hinv|done|done|done].
  - destruct (build_rom_list w tf dir sys xml) as [l|] eqn:Hb; simplify_eq/=.
    assert (adjacent_sorted title_key v) as Hv
      by by eapply sorted_adjacent, build_rom_list_sorted.
    split_and!; [done| |done|].
    + intros k l. rewrite lookup_insert. case_decide; [naive_solver|eauto].
    + intros _ Hd He. unfold build_rom_list in Hb. rewrite Hd, He in Hb.
      destruct (load_rom_titles w tf) as [rom_titles|]; simplify_eq/=.
      destruct (scan_roms w dir sys) as [roms|]; simplify_eq/=.
      exists rom_titles, roms. split_and!; [done..|].
      intros k. apply sorted_by_stable.
Qed.

Lemma build_world1_arcade :
  build_rom_list Examples.world1 "t1.txt" "roms" "Arcade" "a.dat"
  = Some [mkRom "SF2.ZIP" "Street Fighter II" "1991" "Capcom" false;
          mkRom "sf2ce.zip" "Street Fighter II' Champion Edition"
                "" "" true].
Proof. vm_compute. reflexivity. Qed.

Lemma C8_witness :
  (<[("roms", "Arcade", "a.dat") :=
       [mkRom "SF2.ZIP" "Street Fighter II" "1991" "Capcom" false;
        mkRom "sf2ce.zip" "Street Fighter II' Champion Edition" "" "" true]]>
     (∅ : gmap cache_key (list RomEntry)))
    !! ("roms", "Arcade", "a.dat")
  = Some [mkRom "SF2.ZIP" "Street Fighter II" "1991" "Capcom" false;
          mkRom "sf2ce.zip" "Street Fighter II' Champion Edition" "" "" true]
  ∧
  get_rom_list_cached Examples.world1 "t2.txt" "roms" "Arcade" "a.dat"
    (<[("roms", "Arcade", "a.dat") :=
         [mkRom "SF2.ZIP" "Street Fighter II" "1991" "Capcom" false;
          mkRom "sf2ce.zip" "Street Fighter II' Champion Edition"
                "" "" true]]> ∅)
  = Some ([mkRom "SF2.ZIP" "Street Fighter II" "1991" "Capcom" false;
           mkRom "sf2ce.zip" "Street Fighter II' Champion Edition"
                 "" "" true],
          <[("roms", "Arcade", "a.dat") :=
              [mkRom "SF2.ZIP" "Street Fighter II" "1991" "Capcom" false;
               mkRom "sf2ce.zip" "Street Fighter II' Champion Edition"
                     "" "" true]]> ∅).
Proof.
  destruct (C8_second_call_returns_cached Examples.world1 "t1.txt" "roms"
              "Arcade" "a.dat" ∅
              (<[("roms", "Arcade", "a.dat") :=
                   [mkRom "SF2.ZIP" "Street Fighter II" "1991" "Capcom" false;
                    mkRom "sf2ce.zip" "Street Fighter II' Champion Edition"
                          "" "" true]]> ∅)
              [mkRom "SF2.ZIP" "Street Fighter II" "1991" "Capcom" false;
               mkRom "sf2ce.zip" "Street Fighter II' Champion Edition"
                     "" "" true]) as [Hkey Hagain].
  - rewrite get_rom_list_cached_miss by apply lookup_empty.
    rewrite build_world1_arcade. reflexivity.
  - split; [exact Hkey|apply Hagain].
Defined.

Lemma C4_witness :
  adjacent_sorted title_key
    [mkRom "SF2.ZIP" "Street Fighter II" "1991" "Capcom" false;
     mkRom "sf2ce.zip" "Street Fighter II' Champion Edition" "" "" true].
Proof.
  apply (C4_catalog_sorted_stable Examples.world1 "t1.txt" "roms" "Arcade"
           "a.dat" ∅
           (<[("roms", "Arcade", "a.dat") :=
                [mkRom "SF2.ZIP" "Street Fighter II" "1991" "Capcom" false;
                 mkRom "sf2ce.zip" "Street Fighter II' Champion Edition"
                       "" "" true]]> ∅)).
  - intros k l Hk. rewrite lookup_empty in Hk. discriminate Hk.
  - rewrite get_rom_list_cached_miss by apply lookup_empty.
    rewrite build_world1_arcade. reflexivity.
Defined.

Lemma resolve_rom_rom (meta : gmap string meta_row)
    (rom_titles : gmap string string) (r : string) :
  rom (resolve_rom meta rom_titles r) = r.
Proof.
  unfold resolve_rom.
  by destruct (meta !! _) as [[[[??]?]?]|].
Qed.

Lemma merge_rom_rom (sys : string) (meta : gmap string meta_row)
    (rom_titles : gmap string string) (r : string) (e : RomEntry) :
  merge_rom sys meta rom_titles r = Some e →
  rom e = r ∧ e = resolve_rom meta rom_titles r.
Proof.
  unfold merge_rom. intros H.
  repeat case_match; simplify_eq; by rewrite resolve_rom_rom.
Qed.

Lemma dict_truthy_true {V : Type} (m : gmap string V) :
  dict_truthy m = true ↔ m ≠ ∅.
Proof.
  unfold dict_truthy. rewrite <-(map_to_list_empty_iff m).
  destruct (map_to_list m); naive_solver.
Qed.

Lemma elem_of_merge_roms (sys : string) (meta : gmap string meta_row)
    (rom_titles : gmap string string) (roms : list string) (e : RomEntry) :
  e ∈ merge_roms sys meta rom_titles roms ↔
  ∃ r, r ∈ roms ∧ merge_rom sys meta rom_titles r = Some e.
Proof. unfold merge_roms. apply list_elem_of_omap. Qed.

Lemma elem_of_sorted_by {A : Type} (key : A → string) (l : list A) (x : A) :
  x ∈ sorted_by key l ↔ x ∈ l.
Proof. by rewrite sorted_by_perm. Qed.

(** C1, as stated, fails: the data file [b.dat] is supplied, exists and
    parses, but holds no playable record, so the index is empty and the
    standard profile keeps [other.7z], whose stem is not in the index; and
    the disc profile drops [sub/neocdz.cue], whose stem is not in the index
    either, because the stem is in the hide list. *)
Lemma C1_counterexample :
  PyStr.nonempty "b.dat" = true ∧
  path_exists Examples.world1 "b.dat" = true ∧
  xml_parse Examples.world1 "b.dat" = Some Examples.dat2 ∧
  scan_roms Examples.world1 "roms" "Arcade"
  = Some ["sf2ce.zip"; "SF2.ZIP"; "other.7z"; "neocdz.zip"] ∧
  load_meta Examples.world1 "b.dat" !! PyStr.lower (PyPath.stem "other.7z")
  = None ∧
  build_rom_list Examples.world1 "t1.txt" "roms" "Arcade" "b.dat"
  = Some [mkRom "SF2.ZIP" "SF2" "" "" false;
          mkRom "sf2ce.zip" "sf2ce" "" "" false;
          mkRom "other.7z" "The Other" "" "" false] ∧
  scan_roms Examples.world1 "roms" NEO_GEO_CD
  = Some ["a.cue"; "sub/neocdz.cue"; "sub/Z.CUE"] ∧
  load_meta Examples.world1 "b.dat"
    !! PyStr.lower (PyPath.stem "sub/neocdz.cue") = None ∧
  build_rom_list Examples.world1 "t1.txt" "roms" NEO_GEO_CD "b.dat"
  = Some [mkRom "a.cue" "Alpha Game" "" "" false;
          mkRom "sub/Z.CUE" "Z" "" "" false].
Proof. vm_compute. repeat split. Qed.

(** C1 (amended): on a build that scans the directory, for a candidate [r]
    whose lower-cased stem is not in the metadata index: under a standard
    profile, if the index is not empty, no entry of the catalog is for [r];
    under a standard profile with an empty index, and under the disc
    profile (system SNK Neo-Geo CD) whatever the index, if the lower-cased
    stem is not in the hide list, the catalog has the entry for [r] whose
    title is the one of the title table for the lower-cased stem, or the
    stem when the table has none, with empty year and manufacturer and
    clone flag false. *)
Theorem C1_merge_precedence (w : World) (tf dir sys xml : string)
    (rom_titles : gmap string string) (roms : list string)
    (l : list RomEntry) (r : string) :
  load_rom_titles w tf = Some rom_titles →
  PyStr.nonempty dir = true → path_exists w dir = true →
  scan_roms w dir sys = Some roms →
  build_rom_list w tf dir sys xml = Some l →
  r ∈ roms →
  load_meta w xml !! PyStr.lower (PyPath.stem r) = None →
  (sys ≠ NEO_GEO_CD → load_meta w xml ≠ ∅ → ∀ e, e ∈ l → rom e ≠ r) ∧
  (sys ≠ NEO_GEO_CD → load_meta w xml = ∅ →
   PyStr.lower (PyPath.stem r) ∉ ROM_HIDE_LIST →
   mkRom r (default (PyPath.stem r)
                    (rom_titles !! PyStr.lower (PyPath.stem r)))
         "" "" false ∈ l) ∧
  (sys = NEO_GEO_CD → PyStr.lower (PyPath.stem r) ∉ ROM_HIDE_LIST →
   mkRom r (default (PyPath.stem r)
                    (rom_titles !! PyStr.lower (PyPath.stem r)))
         "" "" false ∈ l).
Proof.
  intros Ht Hd He Hs Hb Hr Hm.
  rewrite (build_rom_list_scanned _ _ _ _ _ _ _ Ht Hd He Hs) in Hb.
  injection Hb as <-. split_and!.
  - intros Hsys Hne e. rewrite elem_of_sorted_by, elem_of_merge_roms.
    intros (r' & _ & Hmerge) Heq.
    apply merge_rom_rom in Hmerge as Hr'. destruct Hr' as [Hr' _].
    assert (r' = r) as -> by congruence.
    unfold merge_rom in Hmerge. cbv zeta in Hmerge.
    apply String.eqb_neq in Hsys. rewrite Hsys in Hmerge.
    apply dict_truthy_true in Hne. rewrite Hne in Hmerge.
    unfold dict_has in Hmerge. rewrite Hm in Hmerge.
    by case_bool_decide.
  - intros Hsys Hempty Hhide. rewrite elem_of_sorted_by, elem_of_merge_roms.
    exists r. split; [done|]. unfold merge_rom. cbv zeta.
    rewrite bool_decide_eq_false_2 by done.
    apply String.eqb_neq in Hsys. rewrite Hsys.
    destruct (dict_truthy (load_meta w xml)) eqn:Htruthy.
    { apply dict_truthy_true in Htruthy. by destruct Htruthy. }
    simpl. unfold resolve_rom. cbv zeta. by rewrite Hm.
  - intros -> Hhide. rewrite elem_of_sorted_by, elem_of_merge_roms.
    exists r. split; [done|]. unfold merge_rom. cbv zeta.
    rewrite bool_decide_eq_false_2 by done.
    rewrite String.eqb_refl. unfold resolve_rom. cbv zeta. by rewrite Hm.
Qed.

Lemma C1_witness :
  (∀ e, e ∈ [mkRom "SF2.ZIP" "Street Fighter II" "1991" "Capcom" false;
             mkRom "sf2ce.zip" "Street Fighter II' Champion Edition"
                   "" "" true] →
        rom e ≠ "other.7z") ∧
  mkRom "other.7z" "The Other" "" "" false
  ∈ [mkRom "SF2.ZIP" "SF2" "" "" false;
     mkRom "sf2ce.zip" "sf2ce" "" "" false;
     mkRom "other.7z" "The Other" "" "" false] ∧
  mkRom "sub/Z.CUE" "Z" "" "" false
  ∈ [mkRom "a.cue" "Alpha Game" "" "" false;
     mkRom "sub/Z.CUE" "Z" "" "" false].
Proof.
  split_and!.
  - destruct (C1_merge_precedence Examples.world1 "t1.txt" "roms" "Arcade"
                "a.dat" {[ "other" := "The Other"; "a" := "Alpha Game" ]}
                ["sf2ce.zip"; "SF2.ZIP"; "other.7z"; "neocdz.zip"]
                [mkRom "SF2.ZIP" "Street Fighter II" "1991" "Capcom" false;
                 mkRom "sf2ce.zip" "Street Fighter II' Champion Edition"
                       "" "" true]
                "other.7z") as [Hstd _];
      try (vm_compute; reflexivity).
    + set_solver.
    + apply Hstd.
      * intros Hsys. vm_compute in Hsys. discriminate Hsys.
      * intros Hempty.
        apply (f_equal (λ m : gmap string meta_row, m !! "sf2")) in Hempty.
        vm_compute in Hempty. discriminate Hempty.
  - destruct (C1_merge_precedence Examples.world1 "t1.txt" "roms" "Arcade"
                "b.dat" {[ "other" := "The Other"; "a" := "Alpha Game" ]}
                ["sf2ce.zip"; "SF2.ZIP"; "other.7z"; "neocdz.zip"]
                [mkRom "SF2.ZIP" "SF2" "" "" false;
                 mkRom "sf2ce.zip" "sf2ce" "" "" false;
                 mkRom "other.7z" "The Other" "" "" false]
                "other.7z") as (_ & Hempty & _);
      try (vm_compute; reflexivity).
    + set_solver.
    + apply Hempty.
      * intros Hsys. vm_compute in Hsys. discriminate Hsys.
      * vm_compute. reflexivity.
      * vm_compute. set_solver.
  - destruct (C1_merge_precedence Examples.world1 "t1.txt" "roms" NEO_GEO_CD
                "a.dat" {[ "other" := "The Other"; "a" := "Alpha Game" ]}
                ["a.cue"; "sub/neocdz.cue"; "sub/Z.CUE"]
                [mkRom "a.cue" "Alpha Game" "" "" false;
                 mkRom "sub/Z.CUE" "Z" "" "" false]
                "sub/Z.CUE") as (_ & _ & Hdisc);
      try (vm_compute; reflexivity).
    + set_solver.
    + apply Hdisc; [reflexivity|]. vm_compute. set_solver.
Defined.

Lemma TAB_CONFIGS_names_NoDup : NoDup (TAB_CONFIGS.*1).
Proof. apply (bool_decide_unpack _). vm_compute. exact I. Qed.

(** C2, as stated, fails: in one file system, two fresh builds under the
    key [("roms", "Arcade", "b.dat")] that differ in the title file alone
    give different lists. *)
Lemma C2_counterexample :
  build_rom_list Examples.world1 "t1.txt" "roms" "Arcade" "b.dat"
  = Some [mkRom "SF2.ZIP" "SF2" "" "" false;
          mkRom "sf2ce.zip" "sf2ce" "" "" false;
          mkRom "other.7z" "The Other" "" "" false] ∧
  build_rom_list Examples.world1 "t2.txt" "roms" "Arcade" "b.dat"
  = Some [mkRom "other.7z" "Another" "" "" false;
          mkRom "SF2.ZIP" "SF2" "" "" false;
          mkRom "sf2ce.zip" "sf2ce" "" "" false] ∧
  build_rom_list Examples.world1 "t1.txt" "roms" "Arcade" "b.dat"
  ≠ build_rom_list Examples.world1 "t2.txt" "roms" "Arcade" "b.dat".
Proof.
  split_and!; [vm_compute; reflexivity..|].
  intros Heq. vm_compute in Heq. discriminate Heq.
Qed.

(** C2 (amended): in one state of the file system, two invocations that
    take the system name and the title file from one row of [TAB_CONFIGS]
    each, as [MainWindow.update_rom_list] does, and have equal cache keys
    build the same list on a cache miss. *)
Theorem C2_key_determines_build (w : World) (i1 i2 : nat)
    (name1 titles1 name2 titles2 dir1 dir2 xml1 xml2 : string) :
  TAB_CONFIGS !! i1 = Some (name1, titles1) →
  TAB_CONFIGS !! i2 = Some (name2, titles2) →
  (dir1, name1, xml1) = (dir2, name2, xml2) →
  build_rom_list w titles1 dir1 name1 xml1
  = build_rom_list w titles2 dir2 name2 xml2.
Proof.
  intros H1 H2 [= -> -> ->].
  assert (titles1 = titles2) as ->; [|done].
  apply list_elem_of_lookup_2 in H1, H2.
  apply (elem_of_list_to_map_1 (M := gmap string)) in H1, H2;
    try apply TAB_CONFIGS_names_NoDup.
  congruence.
Qed.

Lemma C2_witness :
  build_rom_list Examples.world1 "rom_titles_arcade.txt" "roms" "Arcade" "a.dat"
  = build_rom_list Examples.world1 "rom_titles_arcade.txt" "roms" "Arcade"
      "a.dat".
Proof.
  apply (C2_key_determines_build Examples.world1 0 0);
    vm_compute; reflexivity.
Defined.

(** ** The metadata index *)

Lemma parse_dat_entry_lookup (meta : gmap string meta_row) (e : Xml.element)
    (k : string) :
  parse_dat_entry meta e !! k
  = if bool_decide (indexed_as k e) then Some (record_row e) else meta !! k.
Proof.
  unfold parse_dat_entry, indexed_as.
  destruct (is_bios e);
    [by rewrite bool_decide_eq_false_2 by (intros (? & ? & ?); congruence)|].
  cbv zeta.
  destruct (PyStr.nonempty (record_name e));
    [|by rewrite bool_decide_eq_false_2 by (intros (? & ? & ?); congruence)].
  rewrite lookup_insert. repeat case_decide; naive_solver.
Qed.

(** A row of the index is the row of a record that is not a BIOS record,
    or was in the index before the loop. *)
Lemma parse_fold_lookup (l : list Xml.element) (meta : gmap string meta_row)
    (k : string) (row : meta_row) :
  foldl parse_dat_entry meta l !! k = Some row →
  meta !! k = Some row ∨
  ∃ e, e ∈ l ∧ indexed_as k e ∧ record_row e = row.
Proof.
  revert meta. induction l as [|e l IH]; intros meta; simpl; [auto|].
  intros H. apply IH in H as [H|(e' & He' & Hk & Hrow)].
  - rewrite parse_dat_entry_lookup in H. case_bool_decide.
    + right. exists e. split; [left|]. naive_solver.
    + by left.
  - right. exists e'. split; [by right|done].
Qed.

(** The BIOS records do not contribute to the index. *)
Lemma parse_fold_skip_bios (l : list Xml.element)
    (meta : gmap string meta_row) :
  foldl parse_dat_entry meta l
  = foldl parse_dat_entry meta (List.filter (λ e, negb (is_bios e)) l).
Proof.
  revert meta. induction l as [|e l IH]; intros meta; simpl; [done|].
  destruct (is_bios e) eqn:Hb; simpl.
  - unfold parse_dat_entry at 2. rewrite Hb. apply IH.
  - apply IH.
Qed.

(** The last record entered under a key decides its row; when all records
    entered under [k] have the row [row], so has the index. *)
Lemma parse_fold_agree (l : list Xml.element) (meta : gmap string meta_row)
    (k : string) (row : meta_row) :
  (∀ e, e ∈ l → indexed_as k e → record_row e = row) →
  meta !! k = Some row ∨ (∃ e, e ∈ l ∧ indexed_as k e) →
  foldl parse_dat_entry meta l !! k = Some row.
Proof.
  revert meta. induction l as [|e l IH]; intros meta Hall Hsrc; simpl.
  - destruct Hsrc as [?|(e & He & _)]; [done|]. by apply elem_of_nil in He.
  - apply IH.
    + intros e' He'. apply Hall. by right.
    + rewrite parse_dat_entry_lookup. case_bool_decide as Hk.
      * left. f_equal. apply Hall; [left|done].
      * destruct Hsrc as [?|(e' & He' & Hk')]; [by left|].
        apply elem_of_cons in He' as [->|He']; [done|].
        right. by exists e'.
Qed.

Lemma load_meta_lookup (w : World) (xml : string) (root : Xml.element)
    (k : string) (row : meta_row) :
  xml_parse w xml = Some root →
  load_meta w xml !! k = Some row → parse_dat_root root !! k = Some row.
Proof.
  unfold load_meta, parse_dat_metadata. intros ->.
  repeat case_match; by rewrite ?lookup_empty.
Qed.

Lemma elem_of_build_rom_list (w : World) (tf dir sys xml : string)
    (l : list RomEntry) (entry : RomEntry) :
  build_rom_list w tf dir sys xml = Some l → entry ∈ l →
  ∃ rom_titles,
    load_rom_titles w tf = Some rom_titles ∧
    entry = resolve_rom (load_meta w xml) rom_titles (rom entry).
Proof.
  unfold build_rom_list. intros H Hin.
  destruct (load_rom_titles w tf) as [rom_titles|]; simplify_eq/=.
  destruct (negb (PyStr.nonempty dir) || negb (path_exists w dir));
    simplify_eq/=; [by apply elem_of_nil in Hin|].
  destruct (scan_roms w dir sys) as [roms|]; simplify_eq/=.
  apply elem_of_sorted_by, elem_of_merge_roms in Hin as (r & _ & Hr).
  apply merge_rom_rom in Hr as [<- ?]. by exists rom_titles.
Qed.

(** C5, as stated, fails on the data file [dat4]: its first record is a
    BIOS record with the identifier [neogeo], and [neogeo] is a key of the
    index, entered for the second record, [NeoGeo], which is not a BIOS
    record. *)
Lemma C5_counterexample :
  dat_entries Examples.dat4
  = [Examples.game "neogeo" [("isbios", "yes")]
       [Examples.leaf "description" "Neo-Geo"];
     Examples.game "NeoGeo" [] [Examples.leaf "description" "Not the BIOS"]] ∧
  is_bios (Examples.game "neogeo" [("isbios", "yes")]
             [Examples.leaf "description" "Neo-Geo"]) = true ∧
  record_name (Examples.game "neogeo" [("isbios", "yes")]
                 [Examples.leaf "description" "Neo-Geo"]) = "neogeo" ∧
  xml_parse Examples2.world3 "c.dat" = Some Examples.dat4 ∧
  load_meta Examples2.world3 "c.dat" !! "neogeo"
  = Some ("Not the BIOS", "", "", false).
Proof. vm_compute. repeat split. Qed.

(** C5 (amended): for a record [e] of the metadata file whose BIOS flag is
    [yes]: the index is the one built from the other records alone; the
    lower-cased identifier of [e] is not a key of the index, provided no
    record that is not a BIOS record carries the same lower-cased
    identifier; every row of the index is the row
    of a record that is not a BIOS record; and every entry of a catalog
    built with this file has the title, year, manufacturer and clone flag
    of such a record with the lower-cased stem as identifier, or has no
    row in the index and an empty year and manufacturer and a false clone
    flag. *)
Theorem C5_bios_exclusion (w : World) (xml : string) (root e : Xml.element) :
  xml_parse w xml = Some root →
  e ∈ dat_entries root → is_bios e = true →
  parse_dat_root root
  = foldl parse_dat_entry ∅
      (List.filter (λ e', negb (is_bios e')) (dat_entries root)) ∧
  ((∀ e', e' ∈ dat_entries root → is_bios e' = false →
          PyStr.lower (record_name e') ≠ PyStr.lower (record_name e)) →
   load_meta w xml !! PyStr.lower (record_name e) = None) ∧
  (∀ k row, load_meta w xml !! k = Some row →
     ∃ e', e' ∈ dat_entries root ∧ indexed_as k e' ∧ record_row e' = row) ∧
  (∀ tf dir sys l entry,
     build_rom_list w tf dir sys xml = Some l → entry ∈ l →
     (∃ e', e' ∈ dat_entries root ∧
            indexed_as (PyStr.lower (PyPath.stem (rom entry))) e' ∧
            record_row e' = row_of entry) ∨
     (load_meta w xml !! PyStr.lower (PyPath.stem (rom entry)) = None ∧
      year entry = "" ∧ manuf entry = "" ∧ is_clone entry = false)).
Proof.
  intros Hparse He Hbios.
  assert (∀ k row, load_meta w xml !! k = Some row →
            ∃ e', e' ∈ dat_entries root ∧ indexed_as k e' ∧
                  record_row e' = row) as Hrows.
  { intros k row Hk. apply (load_meta_lookup _ _ _ _ _ Hparse) in Hk.
    apply parse_fold_lookup in Hk as [Hk|Hk]; [|done].
    by rewrite lookup_empty in Hk. }
  split_and!; [apply parse_fold_skip_bios| |done|].
  - intros Huniq.
    destruct (load_meta w xml !! PyStr.lower (record_name e))
      as [row|] eqn:Hk; [|done].
    apply Hrows in Hk as (e' & He' & (Hb & _ & Hn) & _).
    by destruct (Huniq e' He' Hb).
  - intros tf dir sys l entry Hb Hin.
    apply (elem_of_build_rom_list _ _ _ _ _ _ _ Hb) in Hin
      as (rom_titles & _ & Hentry).
    unfold resolve_rom in Hentry. cbv zeta in Hentry.
    destruct (load_meta w xml !! PyStr.lower (PyPath.stem (rom entry)))
      as [[[[t y] m] c]|] eqn:Hk.
    + left. apply Hrows in Hk as (e' & He' & Hidx & Hrow).
      exists e'. split_and!; [done..|]. rewrite Hrow, Hentry. done.
    + right. by rewrite Hentry.
Qed.

Lemma C5_witness :
  load_meta Examples.world1 "a.dat" !! "neogeo" = None.
Proof.
  destruct (C5_bios_exclusion Examples.world1 "a.dat" Examples.dat1
              (Examples.game "neogeo" [("isbios", "yes")]
                 [Examples.leaf "description" "Neo-Geo"]))
    as (_ & Hkey & _).
  - vm_compute. reflexivity.
  - vm_compute. left.
  - vm_compute. reflexivity.
  - apply Hkey. intros e' He' Hb.
    vm_compute in He'.
    repeat (apply elem_of_cons in He' as [->|He']);
      try (vm_compute in Hb; discriminate Hb);
      try (vm_compute; discriminate).
    by apply elem_of_nil in He'.
Defined.

(** ** Titles of the index *)

(** C10, as stated, fails on the data file [dat3]: its first record has the
    name [neogeo] and no description, yet is not indexed, because it is a
    BIOS record; its second record is indexed with an empty title, because
    its description is blank. *)
Lemma C10_counterexample :
  dat_entries Examples.dat3
  = [Examples.game "neogeo" [("isbios", "yes")] [];
     Examples.game "blank" [] [Examples.leaf "description" "   "]] ∧
  record_name (Examples.game "neogeo" [("isbios", "yes")] []) = "neogeo" ∧
  description_text (Examples.game "neogeo" [("isbios", "yes")] []) = None ∧
  parse_dat_root Examples.dat3 !! "neogeo" = None ∧
  parse_dat_root Examples.dat3 !! "blank" = Some ("", "", "", false).
Proof. vm_compute. repeat split. Qed.

Lemma node_text_or_empty (node : option Xml.element) (dflt : string) :
  node_text_or node dflt = "" →
  dflt = "" ∨
  ∃ n txt, node = Some n ∧ Xml.text n = Some txt ∧ txt ≠ "" ∧
           PyStr.strip txt = "".
Proof.
  unfold node_text_or. destruct node as [n|]; [|auto].
  destruct (Xml.text n) as [[|c t]|] eqn:Ht; auto.
  intros Hs. right. by exists n, (String c t).
Qed.

(** C10 (amended): a record that is not a BIOS record, has a non-empty
    name ([name], else [romname]) and a description that is absent or
    without text is indexed under its lower-cased name with its name as
    title, provided it is the only such record with that lower-cased name;
    and, in every data file, every row of the index is the row of a record
    indexed under its key, and its title is empty only when the
    description of that record is not empty and consists of white space. *)
Theorem C10_title_falls_back_to_name (root : Xml.element) :
  (∀ e, e ∈ dat_entries root →
        is_bios e = false →
        PyStr.nonempty (record_name e) = true →
        description_text e = None ∨ description_text e = Some "" →
        (∀ e', e' ∈ dat_entries root →
               indexed_as (PyStr.lower (record_name e)) e' → e' = e) →
        ∃ y m c, record_row e = (record_name e, y, m, c) ∧
                 parse_dat_root root !! PyStr.lower (record_name e)
                 = Some (record_name e, y, m, c)) ∧
  (∀ k t y m c, parse_dat_root root !! k = Some (t, y, m, c) →
     ∃ e', e' ∈ dat_entries root ∧ indexed_as k e' ∧
           record_row e' = (t, y, m, c) ∧
           (t = "" →
            ∃ txt, description_text e' = Some txt ∧ txt ≠ "" ∧
                   PyStr.strip txt = "")).
Proof.
  split.
  - intros e He Hb Hn Hd Huniq.
    destruct (record_row e) as [[[t y] m] c] eqn:Hrow.
    assert (t = record_name e) as ->.
    { unfold record_row in Hrow. cbv zeta in Hrow.
      injection Hrow as <- _ _ _.
      unfold description_text in Hd. unfold node_text_or.
      destruct (Xml.find "description" e) as [n|]; [|done].
      by destruct Hd as [->| ->]. }
    exists y, m, c. split; [done|]. rewrite <-Hrow. apply parse_fold_agree.
    + intros e' He' Hk. by rewrite (Huniq e' He' Hk).
    + right. by exists e.
  - intros k t y m c Hk. apply parse_fold_lookup in Hk as [Hk|Hk];
      [by rewrite lookup_empty in Hk|].
    destruct Hk as (e' & He' & Hidx & Hrow).
    exists e'. split_and!; [done..|]. intros ->.
    unfold record_row in Hrow. cbv zeta in Hrow.
    injection Hrow as Ht _ _ _.
    apply node_text_or_empty in Ht as [Ht|(n & txt & Hf & Htxt & ? & ?)].
    + destruct Hidx as (_ & Hne & _). by rewrite Ht in Hne.
    + exists txt. unfold description_text. rewrite Hf. done.
Qed.

Lemma C10_witness :
  ∃ y m c, record_row (Examples.game "nodesc" [] []) = ("nodesc", y, m, c) ∧
           parse_dat_root Examples.dat1 !! "nodesc"
           = Some ("nodesc", y, m, c).
Proof.
  destruct (C10_title_falls_back_to_name Examples.dat1) as [Hidx _].
  apply (Hidx (Examples.game "nodesc" [] [])).
  - vm_compute. do 4 right. left.
  - vm_compute. reflexivity.
  - vm_compute. reflexivity.
  - left. vm_compute. reflexivity.
  - intros e' He' (Hb & Hne & Hk). vm_compute in He'.
    repeat (apply elem_of_cons in He' as [->|He']);
      try (vm_compute in Hb; discriminate Hb);
      try (vm_compute in Hk; discriminate Hk);
      try reflexivity.
    by apply elem_of_nil in He'.
Defined.

(** ** Filter pipeline *)

Lemma filter_keep_search (search y m : string) (h : bool) (e : RomEntry) :
  filter_keep search y m h e
  = filter_keep "" y m h e
    && (negb (PyStr.nonempty search)
        || PyStr.contains (PyStr.lower (title e)) search).
Proof. unfold filter_keep. by repeat case_match. Qed.

Lemma elem_of_filter_rom_list (l : list RomEntry) (search y m : string)
    (h : bool) (e : RomEntry) :
  e ∈ filter_rom_list l search y m h ↔
  e ∈ l ∧ filter_keep "" y m h e = true ∧
  (search = "" ∨ PyStr.contains (PyStr.lower (title e)) search = true).
Proof.
  unfold filter_rom_list.
  rewrite !list_elem_of_In, filter_In, filter_keep_search.
  rewrite andb_true_iff, orb_true_iff, negb_true_iff, nonempty_false.
  tauto.
Qed.

(** C6, as stated, fails: [STREET] is a substring of the title
    [Street Fighter II] when case is ignored, but [filter_rom_list] with
    the search text [STREET] drops the entry. *)
Lemma C6_counterexample :
  ci_contains "Street Fighter II" "STREET" = true ∧
  filter_rom_list [mkRom "sf2.zip" "Street Fighter II" "1991" "Capcom" false]
                  "STREET" "" "" false
  = [].
Proof. vm_compute. split; reflexivity. Qed.

(** C6 (amended): [filter_rom_list] keeps an entry of the list exactly when
    the other criteria permit and the search text is empty or occurs, as
    it is given, in the lower-cased title; so with a lower-cased search
    text, which is what [MainWindow.update_rom_list] passes, it keeps an
    entry exactly when the other criteria permit and the text is empty or a
    substring of the title when case is ignored. *)
Theorem C6_search_is_matched_verbatim (l : list RomEntry)
    (search_text y m : string) (h : bool) (e : RomEntry) :
  (e ∈ filter_rom_list l search_text y m h ↔
   e ∈ l ∧ filter_keep "" y m h e = true ∧
   (search_text = "" ∨
    PyStr.contains (PyStr.lower (title e)) search_text = true)) ∧
  (e ∈ filter_rom_list l (PyStr.lower search_text) y m h ↔
   e ∈ l ∧ filter_keep "" y m h e = true ∧
   (search_text = "" ∨ ci_contains (title e) search_text = true)) ∧
  (e ∈ update_rom_list_filter l search_text y m h ↔
   e ∈ l ∧ filter_keep "" (PyStr.strip y) (PyStr.strip m) h e = true ∧
   (search_text = "" ∨ ci_contains (title e) search_text = true)).
Proof.
  assert (∀ s : string, PyStr.lower s = "" ↔ s = "") as Hlow.
  { intros s. by rewrite <-!nonempty_false, nonempty_lower. }
  unfold update_rom_list_filter, ci_contains.
  rewrite !elem_of_filter_rom_list, !Hlow. done.
Qed.

(** ** Input controller: the multi-step axis *)

Section MultiStep.
Import Input.
Local Open Scope Z_scope.

(** C9: when the fast delay is at most 200 ms, as it is with the default
    20 ms, no call of [scroll_list] takes the 200 ms fallback branch,
    whatever the state and the time: whenever more than 200 ms have passed
    since the time stamp, more than the fast delay has passed, and the
    fast branch comes first. *)
Theorem C9_fallback_branch_dead (cfg : Config) (now : Z) (direction : bool)
    (held_key : string) (is_keyboard : bool) (st : Ctl) :
  fastest_delay_ms cfg <= 200 →
  scroll_branch cfg now direction held_key is_keyboard st ≠ Fallback200 ∧
  ((now - default 0 (time_dict is_keyboard st !! held_key) >? 200) = true →
   (now - default 0 (time_dict is_keyboard st !! held_key)
      >? fastest_delay_ms cfg) = true).
Proof.
  intros Hd. unfold scroll_branch. split.
  - repeat case_match; try done; lia.
  - lia.
Qed.

Lemma C9_witness :
  scroll_branch default_config 1000 true "right" false (init 50 0)
  ≠ Fallback200.
Proof.
  apply (C9_fallback_branch_dead default_config 1000 true "right" false
           (init 50 0)).
  vm_compute. discriminate.
Defined.

(** The parts of a tick that a hat pointing right with all buttons up
    leaves to [scroll_list] on the right direction. *)

Lemma right_view_set_state (kb : bool) (k : string) (v : bool) (st : Ctl) :
  kb = true ∨ k ≠ "right" →
  right_view (set_state kb k v st) = right_view st.
Proof.
  intros Hk. unfold right_view, set_state. destruct kb; simpl; [done|].
  destruct Hk as [?|Hk]; [done|]. by rewrite lookup_insert_ne.
Qed.

Lemma keys_view_release (k : string) (st : Ctl) :
  keys_view st = (false, false) →
  keys_view (set_state true k false st) = (false, false).
Proof.
  unfold keys_view, set_state. simpl. intros [= Hl Hr].
  rewrite !lookup_insert. by repeat case_decide; rewrite ?Hl, ?Hr.
Qed.

Lemma hat_step_released (cfg : Config) (now idx size : Z) (k : string)
    (st : Ctl) :
  hat_step cfg now idx size false k st = set_state false k false st.
Proof. done. Qed.

Lemma scroll_list_released (cfg : Config) (now idx size steps : Z)
    (k : string) (kb : bool) (st : Ctl) :
  scroll_list cfg now idx size false steps k kb st = set_state kb k false st.
Proof. done. Qed.

Lemma check_button_up (cfg : Config) (now : Z) (j : Joystick) (k : string)
    (action : Ctl → Ctl) (st : Ctl) :
  (∀ i, button j i = false) →
  right_view (check_button cfg now j k action st) = right_view st ∧
  keys_view (check_button cfg now j k action st) = keys_view st.
Proof.
  intros Hup. unfold check_button. cbv zeta. rewrite Hup. simpl.
  by case_match.
Qed.

(** On the right direction of the hat, [scroll_list] reads and writes the
    view only. *)
Lemma scroll_list_right_view (cfg : Config) (now idx size steps : Z)
    (st : Ctl) :
  right_view (scroll_list cfg now idx size true steps "right" false st)
  = let '(n, r, evs, h, tm) := right_view st in
    let go from t :=
      let row := Z.min (size - 1) (from + steps) in
      (n, (if (0 <=? row) && (row <? n) then row else -1),
       (evs ++ [SetCurrentRow row])%list, true, t) in
    if negb h then go idx now
    else if now - tm >? fastest_delay_ms cfg
         then go r (now - (fastest_delay_ms cfg - 50))
    else if now - tm >? 200 then go r now
    else (n, r, evs, h, tm).
Proof.
  unfold scroll_list, scroll_branch, right_view. simpl.
  destruct (default false (last_hat_held st !! "right")) eqn:Hh; simpl.
  - repeat case_match; simpl; rewrite ?lookup_insert_eq, ?Hh; done.
  - by rewrite !lookup_insert_eq.
Qed.

Lemma scroll_list_right_keys (cfg : Config) (now idx size steps : Z)
    (d : bool) (st : Ctl) :
  keys_view (scroll_list cfg now idx size d steps "right" false st)
  = keys_view st.
Proof. unfold scroll_list. by repeat case_match. Qed.

(** A tick with the hat to the right and no button down is, for the view,
    the call of [scroll_list] on the right direction. *)
#[local] Arguments hat_step : simpl never.
#[local] Arguments scroll_list : simpl never.
#[local] Arguments check_button : simpl never.
#[local] Arguments set_state : simpl never.

Lemma poll_hat_right (cfg : Config) (now nb : Z) (st : Ctl) :
  keys_view st = (false, false) →
  right_view (poll_joystick cfg now (plugged (hat_only (1, 0) nb)) st)
  = right_view (scroll_list cfg now (currentRow st) (count st) true
                  (fastest_steps cfg) "right" false st) ∧
  keys_view (poll_joystick cfg now (plugged (hat_only (1, 0) nb)) st)
  = (false, false).
Proof.
  intros Hk. unfold poll_joystick, plugged, hat_only. simpl.
  rewrite !hat_step_released, !scroll_list_released.
  set (st0 := set_state false "left" false
                (set_state false "down" false (set_state false "up" false st))).
  assert (right_view st0 = right_view st) as Hv0
    by (unfold st0; by rewrite !right_view_set_state by (right; done)).
  assert (keys_view st0 = (false, false)) as Hk0 by done.
  set (st1 := scroll_list cfg now (currentRow st) (count st) true
                (fastest_steps cfg) "right" false st0).
  assert (keys_view st1 = (false, false)) as Hk1
    by (unfold st1; by rewrite scroll_list_right_keys).
  assert (right_view st1
          = right_view (scroll_list cfg now (currentRow st) (count st) true
                          (fastest_steps cfg) "right" false st)) as Hv1
    by (unfold st1; by rewrite !scroll_list_right_view, Hv0).
  assert (default false (last_key_held st1 !! "left") = false) as Hl1
    by exact (f_equal fst Hk1).
  rewrite Hl1, scroll_list_released.
  set (st2 := set_state true "left" false st1).
  assert (keys_view st2 = (false, false)) as Hk2
    by (by apply keys_view_release).
  assert (default false (last_key_held st2 !! "right") = false) as Hr2
    by exact (f_equal snd Hk2).
  rewrite Hr2, scroll_list_released.
  set (st3 := set_state true "right" false st2).
  assert (keys_view st3 = (false, false)) as Hk3
    by (by apply keys_view_release).
  assert (right_view st3 = right_view st1) as Hv3
    by (unfold st3, st2; by rewrite !right_view_set_state by (left; done)).
  rewrite <-Hv1, <-Hv3, <-Hk3.
  repeat match goal with
  | |- context [check_button cfg now ?j ?k ?a ?s] =>
      let H := fresh in
      destruct (check_button_up cfg now j k a s) as [-> ->]; [done|]
  end.
  done.
Qed.

(** While the hat stays to the right, ticks that come neither later than
    the fast delay nor later than 200 ms after the time stamp change
    nothing in the view. *)
Lemma run_hold_right_waiting (cfg : Config) (nb : Z) (ts : list Z)
    (st : Ctl) (n r tm : Z) (evs : list Event) :
  keys_view st = (false, false) →
  right_view st = (n, r, evs, true, tm) →
  Forall (λ t, t - tm <= fastest_delay_ms cfg ∧ t - tm <= 200) ts →
  right_view (run cfg (hold_right nb ts) st) = (n, r, evs, true, tm) ∧
  keys_view (run cfg (hold_right nb ts) st) = (false, false).
Proof.
  intros Hk Hv Hts. revert st Hk Hv.
  induction Hts as [|t ts [Ht1 Ht2] _ IH]; intros st Hk Hv; [done|].
  simpl. destruct (poll_hat_right cfg t nb st Hk) as [Hv' Hk'].
  apply IH; [done|].
  rewrite Hv', scroll_list_right_view, Hv. simpl.
  destruct (Z.gtb_spec (t - tm) (fastest_delay_ms cfg)); [lia|].
  destruct (Z.gtb_spec (t - tm) 200); [lia|done].
Qed.

(** One tick with the hat to the right, on the view. *)
Lemma tick_hold_right (cfg : Config) (now nb : Z) (st : Ctl)
    (n r tm : Z) (evs : list Event) (h : bool) :
  keys_view st = (false, false) →
  right_view st = (n, r, evs, h, tm) →
  right_view (run cfg (hold_right nb [now]) st)
  = (let go from t :=
       let row := Z.min (n - 1) (from + fastest_steps cfg) in
       (n, (if (0 <=? row) && (row <? n) then row else -1),
        (evs ++ [SetCurrentRow row])%list, true, t) in
     if negb h then go r now
     else if now - tm >? fastest_delay_ms cfg
          then go r (now - (fastest_delay_ms cfg - 50))
     else if now - tm >? 200 then go r now
     else (n, r, evs, h, tm)) ∧
  keys_view (run cfg (hold_right nb [now]) st) = (false, false).
Proof.
  intros Hk Hv.
  change (run cfg (hold_right nb [now]) st)
    with (poll_joystick cfg now (plugged (hat_only (1, 0) nb)) st).
  destruct (poll_hat_right cfg now nb st Hk) as [Hv' Hk'].
  split; [|done].
  rewrite Hv', scroll_list_right_view, Hv.
  assert (count st = n) as -> by (by injection Hv).
  assert (currentRow st = r) as -> by (by injection Hv).
  done.
Qed.

End MultiStep.

(** ** Input controller: the range of the selection *)

Section SelectionRange.
Import Input.
Local Open Scope Z_scope.

Context (ok : Z → Prop) (n : Z) (base : list Event).

Lemma tick_inv_same (st st' : Ctl) :
  count st' = count st → currentRow st' = currentRow st →
  events st' = events st →
  tick_inv ok n base st → tick_inv ok n base st'.
Proof. unfold tick_inv. by intros -> -> ->. Qed.

Lemma tick_inv_set_state (kb : bool) (k : string) (v : bool) (st : Ctl) :
  tick_inv ok n base st → tick_inv ok n base (set_state kb k v st).
Proof. apply tick_inv_same; by destruct kb. Qed.

Lemma tick_inv_set_time (kb : bool) (k : string) (v : Z) (st : Ctl) :
  tick_inv ok n base st → tick_inv ok n base (set_time kb k v st).
Proof. apply tick_inv_same; by destruct kb. Qed.

Lemma tick_inv_set_button_state (k : string) (v : bool) (st : Ctl) :
  tick_inv ok n base st → tick_inv ok n base (set_button_state k v st).
Proof. by apply tick_inv_same. Qed.

Lemma tick_inv_set_button_time (k : string) (v : Z) (st : Ctl) :
  tick_inv ok n base st → tick_inv ok n base (set_button_time k v st).
Proof. by apply tick_inv_same. Qed.

Lemma tick_inv_emit (e : Event) (st : Ctl) :
  e = LaunchSelected ∨ e = ShowFavorites ∨ e = CloseDialog →
  tick_inv ok n base st → tick_inv ok n base (emit e st).
Proof.
  intros He (Hn & Hr & evs & Hevs & Hok).
  split; [exact Hn|]. split; [exact Hr|].
  exists (evs ++ [e])%list. simpl. rewrite Hevs, (assoc_L _). split; [done|].
  apply Forall_app. split; [done|]. constructor; [|constructor].
  by destruct He as [->|[->| ->]].
Qed.

Lemma tick_inv_setCurrentRow (r : Z) (st : Ctl) :
  ok r → tick_inv ok n base st → tick_inv ok n base (setCurrentRow r st).
Proof.
  intros Hr (Hn & Hrow & evs & Hevs & Hok).
  split; [exact Hn|]. split.
  - simpl. rewrite Hn. case_match; lia.
  - exists (evs ++ [SetCurrentRow r])%list. simpl.
    rewrite Hevs, (assoc_L _). split; [done|].
    apply Forall_app. split; [done|]. by repeat constructor.
Qed.

(** The rows that a tick asks for are targets of a move of one step or of
    [steps] steps from a row of the list or from -1. *)
Context (steps : Z).
Hypothesis ok_target :
  ∀ (backward : bool) (from k : Z),
    -1 <= from < Z.max n 0 → k = 1 ∨ k = steps →
    ok (target backward n from k).

Lemma tick_inv_row (st : Ctl) :
  tick_inv ok n base st → -1 <= currentRow st < Z.max n 0.
Proof. by intros (_ & ? & _). Qed.

Lemma tick_inv_hat_step (cfg : Config) (now idx : Z) (d : bool)
    (k : string) (st : Ctl) :
  -1 <= idx < Z.max n 0 →
  tick_inv ok n base st → tick_inv ok n base (hat_step cfg now idx n d k st).
Proof.
  intros Hidx Hst. unfold hat_step. cbv zeta.
  repeat case_match;
    repeat first [apply tick_inv_set_state | apply tick_inv_set_time
                 | apply tick_inv_setCurrentRow]; try done;
    apply ok_target; auto using tick_inv_row.
Qed.

Lemma tick_inv_scroll_list (cfg : Config) (now idx : Z) (d : bool)
    (k : string) (kb : bool) (st : Ctl) :
  -1 <= idx < Z.max n 0 →
  tick_inv ok n base st →
  tick_inv ok n base (scroll_list cfg now idx n d steps k kb st).
Proof.
  intros Hidx Hst. unfold scroll_list. cbv zeta.
  repeat case_match;
    repeat first [apply tick_inv_set_state | apply tick_inv_set_time
                 | apply tick_inv_setCurrentRow]; try done;
    apply ok_target; auto using tick_inv_row.
Qed.

Lemma tick_inv_fav_scroll_list (cfg : Config) (now idx : Z) (d : bool)
    (k : string) (st : Ctl) :
  -1 <= idx < Z.max n 0 →
  tick_inv ok n base st →
  tick_inv ok n base (fav_scroll_list cfg now idx n d 1 k st).
Proof.
  intros Hidx Hst. unfold fav_scroll_list. cbv zeta.
  repeat case_match;
    repeat first [apply tick_inv_set_state | apply tick_inv_set_time
                 | apply tick_inv_setCurrentRow]; try done;
    apply ok_target; auto using tick_inv_row.
Qed.

Lemma tick_inv_action_up (st : Ctl) :
  tick_inv ok n base st → tick_inv ok n base (action_up st).
Proof.
  intros Hst. apply tick_inv_setCurrentRow; [|done].
  apply (ok_target true); auto using tick_inv_row.
Qed.

Lemma tick_inv_action_down (st : Ctl) :
  tick_inv ok n base st → tick_inv ok n base (action_down st).
Proof.
  intros Hst. apply tick_inv_setCurrentRow; [|done].
  destruct Hst as (-> & ? & _).
  apply (ok_target false); auto.
Qed.

Lemma tick_inv_check_button (cfg : Config) (now : Z) (j : Joystick)
    (k : string) (action : Ctl → Ctl) (st : Ctl) :
  (∀ st', tick_inv ok n base st' → tick_inv ok n base (action st')) →
  tick_inv ok n base st →
  tick_inv ok n base (check_button cfg now j k action st).
Proof.
  intros Hact Hst. unfold check_button. cbv zeta.
  repeat case_match;
    repeat first [apply tick_inv_set_button_state
                 | apply tick_inv_set_button_time]; auto.
Qed.

Lemma tick_inv_fav_check_button (cfg : Config) (now : Z) (j : Joystick)
    (k : string) (action : Ctl → Ctl) (st : Ctl) :
  (∀ st', tick_inv ok n base st' → tick_inv ok n base (action st')) →
  tick_inv ok n base st →
  tick_inv ok n base (fav_check_button cfg now j k action st).
Proof.
  intros Hact Hst. unfold fav_check_button. cbv zeta.
  repeat case_match;
    repeat first [apply tick_inv_set_button_state
                 | apply tick_inv_set_button_time]; auto.
Qed.

(** A system button leaves the list as it is, or records its event and
    rebuilds the list. *)
Lemma check_button_switch_tab (cfg : Config) (now : Z) (j : Joystick)
    (k : string) (e : Event) (rows : Z) (st : Ctl) :
  (events (check_button cfg now j k (switch_tab e rows) st) = events st ∧
   count (check_button cfg now j k (switch_tab e rows) st) = count st ∧
   currentRow (check_button cfg now j k (switch_tab e rows) st)
   = currentRow st) ∨
  (events (check_button cfg now j k (switch_tab e rows) st)
   = (events st ++ [e])%list ∧
   count (check_button cfg now j k (switch_tab e rows) st) = rows ∧
   currentRow (check_button cfg now j k (switch_tab e rows) st) = -1).
Proof.
  unfold check_button. cbv zeta. repeat case_match; simpl; auto.
Qed.

(** A tick of the main window is its moves and callbacks on the list as it
    is, the state [stm], and then the system buttons. *)
Lemma tick_inv_poll_joystick (cfg : Config) (now : Z) (s : Sample)
    (st : Ctl) :
  fastest_steps cfg = steps → count st = n →
  tick_inv ok n base st →
  ∃ stm tabs,
    tick_inv ok n base stm ∧
    events (poll_joystick cfg now s st) = (events stm ++ tabs)%list ∧
    tabs `sublist_of` [PrevTab; NextTab] ∧
    (tabs = [] →
     count (poll_joystick cfg now s st) = n ∧
     currentRow (poll_joystick cfg now s st) = currentRow stm) ∧
    (tabs ≠ [] →
     currentRow (poll_joystick cfg now s st) = -1 ∧
     (count (poll_joystick cfg now s st) = prev_tab_rows s ∨
      count (poll_joystick cfg now s st) = next_tab_rows s)).
Proof.
  intros Hsteps Hn Hst. pose proof (tick_inv_row st Hst) as Hrow.
  assert (∀ stm, tick_inv ok n base stm →
            ∃ stm' tabs,
              tick_inv ok n base stm' ∧
              events stm = (events stm' ++ tabs)%list ∧
              tabs `sublist_of` [PrevTab; NextTab] ∧
              (tabs = [] → count stm = n ∧ currentRow stm = currentRow stm') ∧
              (tabs ≠ [] →
               currentRow stm = -1 ∧
               (count stm = prev_tab_rows s ∨ count stm = next_tab_rows s)))
    as Hsame.
  { intros stm Hstm. exists stm, []. rewrite app_nil_r.
    split_and!; [done|done|apply sublist_nil_l| |done].
    intros _. by destruct Hstm as (-> & _). }
  unfold poll_joystick. cbv zeta. rewrite Hsteps, Hn.
  destruct (active s); simpl; [|by apply Hsame].
  destruct (joystick s) as [j|].
  - set (st3 := scroll_list cfg now (currentRow st) n _ steps "right" true _).
    assert (tick_inv ok n base st3) as Hst3.
    { unfold st3.
      repeat case_match;
        repeat first [ apply tick_inv_scroll_list; [done|]
                     | apply tick_inv_hat_step; [done|] ]; done. }
    set (stm := check_button cfg now j "button_favorites" _ _).
    assert (tick_inv ok n base stm) as Hstm.
    { unfold stm.
      repeat (apply tick_inv_check_button;
              [intros st'; first [apply tick_inv_action_up
                                 | apply tick_inv_action_down
                                 | apply tick_inv_emit; auto]|]).
      exact Hst3. }
    set (stp := check_button cfg now j "button_prev_tab" _ stm).
    destruct (check_button_switch_tab cfg now j "button_prev_tab" PrevTab
                (prev_tab_rows s) stm) as [(He1 & Hc1 & Hr1)|(He1 & Hc1 & Hr1)];
      destruct (check_button_switch_tab cfg now j "button_next_tab" NextTab
                  (next_tab_rows s) stp)
        as [(He2 & Hc2 & Hr2)|(He2 & Hc2 & Hr2)];
      fold stp in He1, Hc1, Hr1; rewrite He2, Hc2, Hr2, ?He1, ?Hc1, ?Hr1.
    + exists stm, []. rewrite app_nil_r.
      split_and!; [done|done|apply sublist_nil_l| |done].
      intros _. by destruct Hstm as (-> & _).
    + exists stm, [NextTab]. split_and!; [done|done| |done|auto].
      by apply sublist_cons, sublist_skip.
    + exists stm, [PrevTab]. split_and!; [done|done| |done|auto].
      by apply sublist_skip, sublist_nil_l.
    + exists stm, [PrevTab; NextTab]. rewrite <-(assoc_L _).
      split_and!; [done|done|done|done|auto].
  - apply Hsame.
    repeat case_match;
      repeat first [ apply tick_inv_scroll_list; [done|]
                   | apply tick_inv_hat_step; [done|] ]; done.
Qed.

Lemma tick_inv_fav_poll_joystick (cfg : Config) (now : Z) (s : Sample)
    (st : Ctl) :
  count st = n →
  tick_inv ok n base st →
  tick_inv ok n base (fav_poll_joystick cfg now s st).
Proof.
  intros Hn Hst. pose proof (tick_inv_row st Hst) as Hrow.
  unfold fav_poll_joystick. cbv zeta. rewrite Hn.
  repeat case_match; try done;
    repeat first
      [ apply tick_inv_fav_check_button;
        [intros st'; first [apply tick_inv_action_up
                           | apply tick_inv_action_down
                           | apply tick_inv_emit; auto]|]
      | apply tick_inv_fav_scroll_list; [done|] ]; done.
Qed.

End SelectionRange.



(** * Further properties *)

#[local] Set Warnings "-clear-no-such-hyp".

(** ** Catalog engine: what a catalog holds *)

Lemma merge_rom_Some (sys : string) (meta : gmap string meta_row)
    (rom_titles : gmap string string) (r : string) (e : RomEntry) :
  merge_rom sys meta rom_titles r = Some e ↔
  (PyStr.lower (PyPath.stem r) ∉ ROM_HIDE_LIST) ∧
  (sys = NEO_GEO_CD ∨ meta = ∅ ∨
   is_Some (meta !! PyStr.lower (PyPath.stem r))) ∧
  e = resolve_rom meta rom_titles r.
Proof.
  unfold merge_rom. cbv zeta.
  case_bool_decide as Hhide; [naive_solver|].
  destruct (String.eqb_spec sys NEO_GEO_CD) as [Hsys|Hsys]; [naive_solver|].
  destruct (dict_truthy meta) eqn:Ht.
  - apply dict_truthy_true in Ht. unfold dict_has.
    destruct (meta !! PyStr.lower (PyPath.stem r)) as [row|] eqn:Hrow; simpl.
    + naive_solver.
    + split; [done|]. intros (_ & [?|[?|[? ?]]] & _); done.
  - assert (meta = ∅) as ->.
    { destruct (decide (meta = ∅)) as [?|Hne]; [done|].
      apply dict_truthy_true in Hne. congruence. }
    simpl. naive_solver.
Qed.

(** X1: the content of a catalog built from a scan.  An entry is in the
    catalog exactly when it is the resolved entry of a candidate whose
    lower-cased stem is not in the hide list and, unless the system is the
    disc system or the metadata index is empty, is a key of the index. *)
Theorem catalog_content (w : World) (tf dir sys xml : string)
    (rom_titles : gmap string string) (roms : list string)
    (l : list RomEntry) (e : RomEntry) :
  load_rom_titles w tf = Some rom_titles →
  PyStr.nonempty dir = true → path_exists w dir = true →
  scan_roms w dir sys = Some roms →
  build_rom_list w tf dir sys xml = Some l →
  e ∈ l ↔
  ∃ r, r ∈ roms ∧
       (PyStr.lower (PyPath.stem r) ∉ ROM_HIDE_LIST) ∧
       (sys = NEO_GEO_CD ∨ load_meta w xml = ∅ ∨
        is_Some (load_meta w xml !! PyStr.lower (PyPath.stem r))) ∧
       e = resolve_rom (load_meta w xml) rom_titles r.
Proof.
  intros Ht Hd He Hs Hb.
  rewrite (build_rom_list_scanned _ _ _ _ _ _ _ Ht Hd He Hs) in Hb.
  injection Hb as <-.
  rewrite elem_of_sorted_by, elem_of_merge_roms.
  by setoid_rewrite merge_rom_Some.
Qed.

Lemma catalog_content_witness :
  mkRom "SF2.ZIP" "Street Fighter II" "1991" "Capcom" false
  ∈ [mkRom "SF2.ZIP" "Street Fighter II" "1991" "Capcom" false;
     mkRom "sf2ce.zip" "Street Fighter II' Champion Edition" "" "" true] ↔
  ∃ r, r ∈ ["sf2ce.zip"; "SF2.ZIP"; "other.7z"; "neocdz.zip"] ∧
       (PyStr.lower (PyPath.stem r) ∉ ROM_HIDE_LIST) ∧
       ("Arcade" = NEO_GEO_CD ∨ load_meta Examples.world1 "a.dat" = ∅ ∨
        is_Some (load_meta Examples.world1 "a.dat"
                   !! PyStr.lower (PyPath.stem r))) ∧
       mkRom "SF2.ZIP" "Street Fighter II" "1991" "Capcom" false
       = resolve_rom (load_meta Examples.world1 "a.dat")
           {[ "other" := "The Other"; "a" := "Alpha Game" ]} r.
Proof.
  apply (catalog_content Examples.world1 "t1.txt" "roms" "Arcade" "a.dat");
    vm_compute; reflexivity.
Defined.

(** X2: no entry of a built catalog has a lower-cased stem in the hide
    list, whatever the profile and the metadata. *)
Theorem catalog_excludes_hidden (w : World) (tf dir sys xml : string)
    (l : list RomEntry) (e : RomEntry) :
  build_rom_list w tf dir sys xml = Some l → e ∈ l →
  PyStr.lower (PyPath.stem (rom e)) ∉ ROM_HIDE_LIST.
Proof.
  unfold build_rom_list. intros H Hin.
  destruct (load_rom_titles w tf) as [rom_titles|]; simplify_eq/=.
  destruct (negb (PyStr.nonempty dir) || negb (path_exists w dir));
    simplify_eq/=; [by apply elem_of_nil in Hin|].
  destruct (scan_roms w dir sys) as [roms|]; simplify_eq/=.
  apply elem_of_sorted_by, elem_of_merge_roms in Hin as (r & _ & Hr).
  apply merge_rom_Some in Hr as (Hhide & _ & ->).
  by rewrite resolve_rom_rom.
Qed.

Lemma catalog_excludes_hidden_witness :
  PyStr.lower (PyPath.stem "SF2.ZIP") ∉ ROM_HIDE_LIST.
Proof.
  apply (catalog_excludes_hidden Examples.world1 "t1.txt" "roms" "Arcade"
           "a.dat" _
           (mkRom "SF2.ZIP" "Street Fighter II" "1991" "Capcom" false)
           build_world1_arcade).
  left.
Defined.

Lemma merge_roms_roms (sys : string) (meta : gmap string meta_row)
    (rom_titles : gmap string string) (roms : list string) :
  rom <$> merge_roms sys meta rom_titles roms
  = List.filter (λ r, bool_decide (is_Some (merge_rom sys meta rom_titles r)))
      roms.
Proof.
  induction roms as [|r roms IH]; [done|].
  unfold merge_roms in *. simpl.
  destruct (merge_rom sys meta rom_titles r) as [e|] eqn:Hr; simpl.
  - apply merge_rom_rom in Hr as [-> _]. by rewrite <-IH.
  - done.
Qed.

(** X3: a catalog built from a scan lists candidates only, each at most as
    often as the scan gives it: the file names of the catalog are, up to
    order, a sub-list of the scan, so the catalog is no longer than the
    scan and has no file name twice when the scan has none twice. *)
Theorem catalog_entries_are_candidates (w : World) (tf dir sys xml : string)
    (roms : list string) (l : list RomEntry) :
  PyStr.nonempty dir = true → path_exists w dir = true →
  scan_roms w dir sys = Some roms →
  build_rom_list w tf dir sys xml = Some l →
  rom <$> l ⊆+ roms ∧
  (∀ e, e ∈ l → rom e ∈ roms) ∧
  length l <= length roms ∧
  (NoDup roms → NoDup (rom <$> l)).
Proof.
  intros Hd He Hs Hb. unfold build_rom_list in Hb. rewrite Hd, He, Hs in Hb.
  destruct (load_rom_titles w tf) as [rom_titles|]; simplify_eq/=.
  set (merged := merge_roms sys (load_meta w xml) rom_titles roms).
  assert (rom <$> sorted_by title_key merged ⊆+ roms) as Hsub.
  { rewrite sorted_by_perm. apply sublist_submseteq.
    unfold merged. rewrite merge_roms_roms.
    clear. induction roms as [|r roms IH]; simpl; [constructor|].
    case_bool_decide; by constructor. }
  split_and!.
  - done.
  - intros e Hin. eapply elem_of_submseteq; [|exact Hsub].
    by apply list_elem_of_fmap_2.
  - rewrite <-(length_fmap rom). by apply submseteq_length.
  - intros Hnd. apply submseteq_Permutation in Hsub as [k Hk].
    rewrite Hk in Hnd. by apply NoDup_app in Hnd as [? _].
Qed.

Lemma catalog_entries_are_candidates_witness :
  length [mkRom "SF2.ZIP" "Street Fighter II" "1991" "Capcom" false;
          mkRom "sf2ce.zip" "Street Fighter II' Champion Edition" "" "" true]
  <= length ["sf2ce.zip"; "SF2.ZIP"; "other.7z"; "neocdz.zip"].
Proof.
  apply (catalog_entries_are_candidates Examples.world1 "t1.txt" "roms"
           "Arcade" "a.dat");
    vm_compute; reflexivity.
Defined.

(** X4: a call of [get_rom_list_cached] keeps every list that the cache
    holds and changes the cache under its own key at most. *)
Theorem cache_only_grows (w : World) (tf dir sys xml : string)
    (cache_dict cache1 : gmap cache_key (list RomEntry)) (v : list RomEntry) :
  get_rom_list_cached w tf dir sys xml cache_dict = Some (v, cache1) →
  (∀ k l, cache_dict !! k = Some l → cache1 !! k = Some l) ∧
  (∀ k, k ≠ (dir, sys, xml) → cache1 !! k = cache_dict !! k).
Proof.
  unfold get_rom_list_cached. cbv zeta. intros H.
  destruct (cache_dict !! (dir, sys, xml)) as [c|] eqn:Hc; simplify_eq/=.
  - done.
  - destruct (build_rom_list w tf dir sys xml); simplify_eq/=. split.
    + intros k l Hk. rewrite lookup_insert_ne; [done|congruence].
    + intros k Hk. by rewrite lookup_insert_ne.
Qed.

Lemma cache_only_grows_witness :
  (<[("roms", "Arcade", "a.dat") :=
       [mkRom "SF2.ZIP" "Street Fighter II" "1991" "Capcom" false;
        mkRom "sf2ce.zip" "Street Fighter II' Champion Edition" "" "" true]]>
     (∅ : gmap cache_key (list RomEntry))) !! ("roms", "MSX 1", "")
  = (∅ : gmap cache_key (list RomEntry)) !! ("roms", "MSX 1", "").
Proof.
  destruct (cache_only_grows Examples.world1 "t1.txt" "roms" "Arcade" "a.dat"
              ∅
              (<[("roms", "Arcade", "a.dat") :=
                   [mkRom "SF2.ZIP" "Street Fighter II" "1991" "Capcom" false;
                    mkRom "sf2ce.zip" "Street Fighter II' Champion Edition"
                          "" "" true]]> ∅)
              [mkRom "SF2.ZIP" "Street Fighter II" "1991" "Capcom" false;
               mkRom "sf2ce.zip" "Street Fighter II' Champion Edition"
                     "" "" true]) as [_ Hframe].
  - rewrite get_rom_list_cached_miss by apply lookup_empty.
    rewrite build_world1_arcade. reflexivity.
  - apply Hframe. discriminate.
Defined.

(** X5: a build fails (raises) only when reading the title file raises or,
    under a standard profile with a directory that exists, when listing
    the directory raises; the metadata file never makes it fail, and a
    directory that is not given or does not exist gives the empty
    catalog. *)
Theorem build_failures (w : World) (tf dir sys xml : string) :
  (build_rom_list w tf dir sys xml = None ↔
   load_rom_titles w tf = None ∨
   (PyStr.nonempty dir = true ∧ path_exists w dir = true ∧
    sys ≠ NEO_GEO_CD ∧ listdir w dir = None)) ∧
  (is_Some (load_rom_titles w tf) →
   PyStr.nonempty dir = false ∨ path_exists w dir = false →
   build_rom_list w tf dir sys xml = Some []).
Proof.
  unfold build_rom_list, scan_roms.
  destruct (load_rom_titles w tf) as [rom_titles|]; simpl;
    [|split; [naive_solver|by intros [? ?]]].
  destruct (PyStr.nonempty dir), (path_exists w dir); simpl;
    try (split; [naive_solver|done]).
  destruct (String.eqb_spec sys NEO_GEO_CD) as [->|Hsys]; simpl.
  - split; [naive_solver|naive_solver].
  - destruct (listdir w dir); simpl; split; naive_solver.
Qed.


(** ** Parsers: what the indexes hold *)

Lemma lower_ascii_idem (c : ascii) :
  PyStr.lower_ascii (PyStr.lower_ascii c) = PyStr.lower_ascii c.
Proof. by destruct c as [[] [] [] [] [] [] [] []]. Qed.

Lemma lower_idem (s : string) : PyStr.lower (PyStr.lower s) = PyStr.lower s.
Proof.
  induction s as [|c s IH]; simpl; [done|].
  by rewrite lower_ascii_idem, IH.
Qed.

Lemma lstrip_by_head (p : ascii → bool) (s : string) :
  match PyStr.lstrip_by p s with
  | EmptyString => True
  | String c _ => p c = false
  end.
Proof.
  induction s as [|c s IH]; simpl; [done|].
  by destruct (p c) eqn:Hc; simpl.
Qed.

Lemma lstrip_by_id (p : ascii → bool) (s : string) :
  match s with EmptyString => True | String c _ => p c = false end →
  PyStr.lstrip_by p s = s.
Proof.
  destruct s as [|c s]; simpl; [done|]. intros Hc. by rewrite Hc.
Qed.

Lemma rstrip_by_idem (p : ascii → bool) (s : string) :
  PyStr.rstrip_by p (PyStr.rstrip_by p s) = PyStr.rstrip_by p s.
Proof.
  induction s as [|c s IH]; simpl; [done|].
  destruct (p c && negb (PyStr.nonempty (PyStr.rstrip_by p s))) eqn:Hc;
    simpl; [done|].
  by rewrite IH, Hc.
Qed.

Lemma rstrip_by_head (p : ascii → bool) (s : string) :
  match s with EmptyString => True | String c _ => p c = false end →
  match PyStr.rstrip_by p s with
  | EmptyString => True
  | String c _ => p c = false
  end.
Proof.
  destruct s as [|c s]; simpl; [done|]. intros Hc. by rewrite Hc.
Qed.

(** Stripping a stripped string changes nothing. *)
Lemma strip_by_idem (p : ascii → bool) (s : string) :
  PyStr.strip_by p (PyStr.strip_by p s) = PyStr.strip_by p s.
Proof.
  unfold PyStr.strip_by.
  rewrite (lstrip_by_id p (PyStr.rstrip_by p _)).
  - apply rstrip_by_idem.
  - apply rstrip_by_head, lstrip_by_head.
Qed.

Lemma break_space_nonempty (s : string) :
  match s with
  | EmptyString => True
  | String c _ => PyStr.is_space c = false
  end →
  PyStr.nonempty s = true → PyStr.nonempty (PyStr.break_space s).1 = true.
Proof.
  destruct s as [|c s]; simpl; [done|]. intros Hc _. rewrite Hc.
  by destruct (PyStr.break_space s).
Qed.

Lemma split_max1_head (s key0 : string) (rest : list string) :
  PyStr.split_max1 s = key0 :: rest → PyStr.nonempty key0 = true.
Proof.
  unfold PyStr.split_max1. cbv zeta.
  pose proof (lstrip_by_head PyStr.is_space s) as Hhead.
  destruct (PyStr.nonempty (PyStr.lstrip_by PyStr.is_space s)) eqn:Hne;
    [|done].
  pose proof (break_space_nonempty _ Hhead Hne) as Htok.
  destruct (PyStr.break_space (PyStr.lstrip_by PyStr.is_space s))
    as [tok rest'].
  simpl in Htok.
  destruct (PyStr.nonempty (PyStr.lstrip_by PyStr.is_space rest'));
    intros Heq; injection Heq as Heq _; by subst.
Qed.

Lemma title_fold_pairs (P : string → string → Prop) (lines : list string)
    (m : gmap string string) :
  (∀ key0 title0,
     PyStr.nonempty key0 = true →
     PyStr.nonempty (PyStr.strip_quotes title0) = true →
     PyStr.lower (PyStr.strip_quotes title0) ∉ TITLE_PLACEHOLDERS →
     P (PyStr.lower key0) (PyStr.strip_quotes title0)) →
  (∀ k v, m !! k = Some v → P k v) →
  ∀ k v, foldl load_rom_titles_line m lines !! k = Some v → P k v.
Proof.
  intros Hnew. revert m. induction lines as [|line lines IH]; intros m Hm;
    simpl; [done|].
  apply IH. unfold load_rom_titles_line.
  destruct (PyStr.split_max1 (PyStr.strip line)) as [|key0 [|title0 rest]]
    eqn:Hsplit; try done.
  cbv zeta.
  destruct (PyStr.nonempty (PyStr.strip_quotes title0)) eqn:Hne; simpl;
    [|done].
  case_bool_decide as Hph; [done|].
  intros k v. rewrite lookup_insert. case_decide as Hk; [|by apply Hm].
  intros [= <-]. subst k. apply Hnew; [|done..].
  by eapply split_max1_head.
Qed.

(** X6: every pair of the title index has a key that is not empty and is
    lower-cased, and a title that is not empty, is no placeholder
    ([untitled], [unknown], [no title], whatever the case) and has no
    double quote left at either end. *)
Theorem title_index_pairs (w : World) (filename : string)
    (rom_titles : gmap string string) (k v : string) :
  load_rom_titles w filename = Some rom_titles →
  rom_titles !! k = Some v →
  k ≠ "" ∧ PyStr.lower k = k ∧ v ≠ "" ∧
  (PyStr.lower v ∉ TITLE_PLACEHOLDERS) ∧ PyStr.strip_quotes v = v.
Proof.
  unfold load_rom_titles. intros Hload.
  destruct (path_exists w filename); simpl in Hload;
    [|injection Hload as <-; by rewrite lookup_empty].
  destruct (read_lines w filename) as [lines|]; simplify_eq/=.
  apply (title_fold_pairs
           (λ k v, k ≠ "" ∧ PyStr.lower k = k ∧ v ≠ "" ∧
                   (PyStr.lower v ∉ TITLE_PLACEHOLDERS) ∧
                   PyStr.strip_quotes v = v)).
  - intros key0 title0 Hk Hv Hph. split_and!.
    + rewrite <-nonempty_false, nonempty_lower. congruence.
    + apply lower_idem.
    + rewrite <-nonempty_false. congruence.
    + done.
    + apply strip_by_idem.
  - intros k' v'. by rewrite lookup_empty.
Qed.

Lemma title_index_pairs_witness :
  "other" ≠ "" ∧ PyStr.lower "other" = "other" ∧ "The Other" ≠ "" ∧
  (PyStr.lower "The Other" ∉ TITLE_PLACEHOLDERS) ∧
  PyStr.strip_quotes "The Other" = "The Other".
Proof.
  apply (title_index_pairs Examples.world1 "t1.txt"
           {[ "other" := "The Other"; "a" := "Alpha Game" ]});
    vm_compute; reflexivity.
Defined.

Lemma node_text_or_stripped (node : option Xml.element) :
  PyStr.strip (node_text_or node "") = node_text_or node "".
Proof.
  unfold node_text_or. destruct node as [n|]; [|done].
  destruct (Xml.text n) as [[|c t]|]; try done.
  apply strip_by_idem.
Qed.

(** X7: every row of the metadata index has a key that is not empty and is
    lower-cased; its year and its manufacturer have no white space at
    either end; its title has none either unless it is the name of the
    record; and its clone flag says whether the record that gave the row
    has a [cloneof] attribute. *)
Theorem meta_index_rows (w : World) (xml k t y m : string) (c : bool) :
  load_meta w xml !! k = Some (t, y, m, c) →
  k ≠ "" ∧ PyStr.lower k = k ∧
  PyStr.strip y = y ∧ PyStr.strip m = m ∧
  ∃ root e,
    xml_parse w xml = Some root ∧ e ∈ dat_entries root ∧
    indexed_as k e ∧
    (PyStr.strip t = t ∨ t = record_name e) ∧
    (c = true ↔ is_Some (Xml.attrib e !! "cloneof")).
Proof.
  intros Hk.
  assert (∃ root, xml_parse w xml = Some root) as [root Hroot].
  { unfold load_meta, parse_dat_metadata in Hk.
    destruct (xml_parse w xml) as [root|]; [by exists root|].
    exfalso. destruct (PyStr.nonempty xml); simpl in Hk;
      [|by rewrite lookup_empty in Hk].
    destruct (path_exists w xml); simpl in Hk;
      by rewrite lookup_empty in Hk. }
  pose proof (load_meta_lookup _ _ _ _ _ Hroot Hk) as Hk'.
  apply parse_fold_lookup in Hk' as [Hk'|(e & He & Hidx & Hrow)];
    [by rewrite lookup_empty in Hk'|].
  unfold record_row in Hrow. cbv zeta in Hrow.
  injection Hrow as <- <- <- <-.
  destruct Hidx as (Hb & Hn & Hlow).
  split_and!.
  - rewrite <-Hlow, <-nonempty_false, nonempty_lower. congruence.
  - rewrite <-Hlow. apply lower_idem.
  - apply node_text_or_stripped.
  - apply node_text_or_stripped.
  - exists root, e. split_and!; [done..| |].
    + unfold node_text_or. destruct (Xml.find "description" e) as [n|]; auto.
      destruct (Xml.text n) as [[|c' t']|]; auto.
      left. apply strip_by_idem.
    + destruct (Xml.attrib e !! "cloneof") as [a|].
      * split; [eauto|done].
      * split; [done|]. by intros [? ?].
Qed.

Lemma meta_index_rows_witness :
  "sf2ce" ≠ "" ∧ PyStr.lower "sf2ce" = "sf2ce" ∧
  PyStr.strip "" = "" ∧ PyStr.strip "" = "" ∧
  ∃ root e,
    xml_parse Examples.world1 "a.dat" = Some root ∧ e ∈ dat_entries root ∧
    indexed_as "sf2ce" e ∧
    (PyStr.strip "Street Fighter II' Champion Edition"
     = "Street Fighter II' Champion Edition"
     ∨ "Street Fighter II' Champion Edition" = record_name e) ∧
    (true = true ↔ is_Some (Xml.attrib e !! "cloneof")).
Proof.
  apply (meta_index_rows Examples.world1 "a.dat" "sf2ce"
           "Street Fighter II' Champion Edition" "" "" true).
  vm_compute. reflexivity.
Defined.

(** ** Filter pipeline: composition *)

(** X8: with every criterion empty and clones shown, [filter_rom_list]
    returns the list as it is. *)
Theorem filter_nothing (l : list RomEntry) :
  filter_rom_list l "" "" "" false = l.
Proof.
  unfold filter_rom_list. induction l as [|e l IH]; [done|].
  simpl. by rewrite IH.
Qed.

Lemma adjacent_sorted_Sorted {A : Type} (key : A → string) (l : list A) :
  adjacent_sorted key l → Sorted (key_le key) l.
Proof.
  induction l as [|x l IH]; intros H; [constructor|].
  constructor.
  - apply IH. intros i a b Ha Hb. by apply (H (S i)).
  - destruct l as [|y l]; constructor. by apply (H 0%nat).
Qed.

Lemma key_le_trans {A : Type} (key : A → string) : Transitive (key_le key).
Proof.
  intros a b c Hab Hbc. unfold key_le in *.
  apply Is_true_true. apply Is_true_true in Hab, Hbc.
  exact (transitivity (R := String.le) Hab Hbc).
Qed.

Lemma filter_StronglySorted {A : Type} (R : A → A → Prop) (f : A → bool)
    (l : list A) :
  StronglySorted R l → StronglySorted R (List.filter f l).
Proof.
  induction 1 as [|x l Hl IH Hx]; simpl; [constructor|].
  destruct (f x); [|done]. constructor; [done|].
  rewrite List.Forall_forall in *. intros y Hy.
  apply Hx. by apply filter_In in Hy as [? _].
Qed.

(** X9: [filter_rom_list] keeps the entries in the order of the list, and
    a list sorted by lower-cased title stays sorted. *)
Theorem filter_keeps_order (l : list RomEntry) (search y m : string)
    (h : bool) :
  filter_rom_list l search y m h `sublist_of` l ∧
  (adjacent_sorted title_key l →
   adjacent_sorted title_key (filter_rom_list l search y m h)).
Proof.
  unfold filter_rom_list. split.
  - induction l as [|e l IH]; simpl; [constructor|].
    case_match; by constructor.
  - intros Hl. apply sorted_adjacent, StronglySorted_Sorted.
    apply filter_StronglySorted.
    apply Sorted_StronglySorted; [apply key_le_trans|].
    by apply adjacent_sorted_Sorted.
Qed.

Lemma filter_keep_split (search y m : string) (h : bool) (e : RomEntry) :
  filter_keep search y m h e
  = filter_keep search "" "" false e && filter_keep "" y "" false e
    && filter_keep "" "" m false e && negb (h && is_clone e).
Proof.
  unfold filter_keep. simpl.
  destruct h, (is_clone e); simpl; repeat case_match; simpl in *;
    rewrite ?andb_true_r, ?andb_false_r; try done.
Qed.

(** X10: the criteria are independent tests: filtering by all of them at
    once is filtering by the search text, then by the year, then by the
    manufacturer, then by the clone flag; filtering twice by the same
    criteria is filtering once; and two filterings can be swapped. *)
Theorem filter_composes (l : list RomEntry) (s y m s' y' m' : string)
    (h h' : bool) :
  filter_rom_list l s y m h
  = filter_rom_list
      (filter_rom_list
         (filter_rom_list (filter_rom_list l s "" "" false) "" y "" false)
         "" "" m false) "" "" "" h ∧
  filter_rom_list (filter_rom_list l s y m h) s y m h
  = filter_rom_list l s y m h ∧
  filter_rom_list (filter_rom_list l s y m h) s' y' m' h'
  = filter_rom_list (filter_rom_list l s' y' m' h') s y m h.
Proof.
  unfold filter_rom_list. split_and!.
  - induction l as [|e l IH]; [done|]. simpl.
    rewrite (filter_keep_split s y m h e).
    destruct (filter_keep s "" "" false e); simpl; [|done].
    destruct (filter_keep "" y "" false e); simpl; [|done].
    destruct (filter_keep "" "" m false e); simpl; [|done].
    rewrite (filter_keep_split "" "" "" h e). simpl.
    destruct (negb (h && is_clone e)); simpl; by rewrite IH.
  - induction l as [|e l IH]; [done|]. simpl.
    destruct (filter_keep s y m h e) eqn:He; simpl; [|done].
    by rewrite He, IH.
  - induction l as [|e l IH]; [done|]. simpl.
    destruct (filter_keep s y m h e) eqn:He,
             (filter_keep s' y' m' h' e) eqn:He'; simpl;
      rewrite ?He, ?He', IH; done.
Qed.

(** X11: with clones hidden no entry of the result is a clone, and hiding
    clones does nothing else: the result is the result with clones shown
    less its clones. *)
Theorem filter_hides_clones (l : list RomEntry) (s y m : string) :
  (∀ e, e ∈ filter_rom_list l s y m true → is_clone e = false) ∧
  filter_rom_list l s y m true
  = List.filter (λ e, negb (is_clone e)) (filter_rom_list l s y m false).
Proof.
  unfold filter_rom_list. split.
  - intros e. rewrite list_elem_of_In, filter_In. intros [_ He].
    unfold filter_keep in He. by destruct (is_clone e).
  - induction l as [|e l IH]; [done|]. simpl.
    rewrite (filter_keep_split s y m true e), (filter_keep_split s y m false e).
    set (b := filter_keep s "" "" false e && filter_keep "" y "" false e
              && filter_keep "" "" m false e).
    destruct b, (is_clone e) eqn:Hc; simpl; rewrite ?Hc; simpl;
      by rewrite ?IH.
Qed.

(** X12: the manufacturer criterion is matched without regard to the case
    of the criterion itself: lower-casing it changes no result. *)
Theorem manuf_filter_ignores_case (l : list RomEntry) (s y m : string)
    (h : bool) :
  filter_rom_list l s y (PyStr.lower m) h = filter_rom_list l s y m h.
Proof.
  unfold filter_rom_list.
  assert (∀ e, filter_keep s y (PyStr.lower m) h e = filter_keep s y m h e)
    as Hext.
  { intros e. unfold filter_keep. by rewrite nonempty_lower, lower_idem. }
  induction l as [|e l IH]; [done|]. simpl. by rewrite Hext, IH.
Qed.


(** ** Launching *)

(** X13: [run_rom] hands a command to the operating system only when the
    ROM file exists, the emulator exists and may be executed, and the core
    exists and has the suffix of a library; the command is the emulator,
    [-L], the core, the two words [--subsystem neocd] exactly when the
    system is the disc system or the ROM name ends in [.cue] whatever the
    case, and the path of the ROM last.  The first check that fails decides
    the error, whatever the arguments checked later: a missing ROM file,
    else an emulator that is missing or may not be executed, else a
    missing core, else a core without the suffix of a library. *)
Theorem run_rom_command (w : World) (p : Launcher.Process)
    (rom roms_dir retroarch core sys : string) :
  (∀ cmd,
     Launcher.run_rom w p rom roms_dir retroarch core sys
     = Launcher.Started cmd
     ∨ Launcher.run_rom w p rom roms_dir retroarch core sys
       = Launcher.FailedToLaunch cmd →
     path_exists w (PyPath.join roms_dir rom) = true ∧
     path_exists w retroarch = true ∧ Launcher.access_x p retroarch = true ∧
     path_exists w core = true ∧ Launcher.core_suffix_ok core = true ∧
     cmd = ([retroarch; "-L"; core]
            ++ (if Launcher.wants_subsystem sys rom
                then ["--subsystem"; "neocd"] else [])
            ++ [PyPath.join roms_dir rom])%list ∧
     (Launcher.run_rom w p rom roms_dir retroarch core sys
      = Launcher.Started cmd ↔ Launcher.popen_ok p cmd = true)) ∧
  (path_exists w (PyPath.join roms_dir rom) = false →
   Launcher.run_rom w p rom roms_dir retroarch core sys
   = Launcher.RomNotFound (PyPath.join roms_dir rom)) ∧
  (path_exists w (PyPath.join roms_dir rom) = true →
   path_exists w retroarch = false ∨ Launcher.access_x p retroarch = false →
   Launcher.run_rom w p rom roms_dir retroarch core sys
   = Launcher.InvalidRetroarch retroarch) ∧
  (path_exists w (PyPath.join roms_dir rom) = true →
   path_exists w retroarch = true → Launcher.access_x p retroarch = true →
   path_exists w core = false →
   Launcher.run_rom w p rom roms_dir retroarch core sys
   = Launcher.InvalidCore core) ∧
  (path_exists w (PyPath.join roms_dir rom) = true →
   path_exists w retroarch = true → Launcher.access_x p retroarch = true →
   path_exists w core = true → Launcher.core_suffix_ok core = false →
   Launcher.run_rom w p rom roms_dir retroarch core sys
   = Launcher.BadCoreSuffix core).
Proof.
  unfold Launcher.run_rom. cbv zeta. split_and!.
  - intros cmd H.
    destruct (path_exists w (PyPath.join roms_dir rom)) eqn:H1; simpl in H;
      [|by destruct H].
    destruct (path_exists w retroarch) eqn:H2; simpl in H; [|by destruct H].
    destruct (Launcher.access_x p retroarch) eqn:H3; simpl in H;
      [|by destruct H].
    destruct (path_exists w core) eqn:H4; simpl in H; [|by destruct H].
    destruct (Launcher.core_suffix_ok core) eqn:H5; simpl in H;
      [|by destruct H].
    simpl.
    set (c := retroarch :: "-L" :: core :: _) in *.
    assert (cmd = c) as ->.
    { destruct (Launcher.popen_ok p c); destruct H; congruence. }
    split_and!; try done.
    destruct (Launcher.popen_ok p c); split; congruence.
  - by intros ->.
  - intros -> [-> | ->]; simpl; [done|].
    by destruct (path_exists w retroarch).
  - by intros -> -> -> ->.
  - by intros -> -> -> -> ->.
Qed.

Lemma run_rom_command_witness :
  ["/usr/bin/retroarch"; "-L"; "/cores/fbneo_libretro.so"; "--subsystem";
   "neocd"; "roms/disc/game.cue"]
  = (["/usr/bin/retroarch"; "-L"; "/cores/fbneo_libretro.so"]
     ++ (if Launcher.wants_subsystem "Arcade" "disc/game.cue"
         then ["--subsystem"; "neocd"] else [])
     ++ [PyPath.join "roms" "disc/game.cue"])%list.
Proof.
  destruct (run_rom_command Examples2.world2 Examples2.process2
              "disc/game.cue" "roms" "/usr/bin/retroarch"
              "/cores/fbneo_libretro.so" "Arcade") as [Hcmd _].
  apply (Hcmd ["/usr/bin/retroarch"; "-L"; "/cores/fbneo_libretro.so";
               "--subsystem"; "neocd"; "roms/disc/game.cue"]).
  left. vm_compute. reflexivity.
Defined.

(** ** The list of the main window *)

Lemma roms_list_items_nonempty (roms : list RomEntry) :
  roms ≠ [] →
  MainList.roms_list_items roms
  = List.map (λ e, MainList.display_text (title e) (year e) (manuf e)) roms.
Proof. by destruct roms. Qed.

(** X14: the list of the main window is never empty: it has one row per
    entry of the filtered catalog, in the same order, and the one row
    [No ROMs found.] when there is none; so a tick of the main window
    always finds a list of at least one item. *)
Theorem main_list_rows (roms : list RomEntry) :
  (1 <= length (MainList.roms_list_items roms))%nat ∧
  length (MainList.roms_list_items roms) = Nat.max 1 (length roms) ∧
  (roms = [] → MainList.roms_list_items roms = [MainList.NO_ROMS]) ∧
  (∀ i e, roms !! i = Some e →
          MainList.roms_list_items roms !! i
          = Some (MainList.display_text (title e) (year e) (manuf e))).
Proof.
  destruct roms as [|e0 roms].
  - split_and!; try done.
  - rewrite roms_list_items_nonempty by done. split_and!.
    + simpl. lia.
    + rewrite length_map. simpl. lia.
    + done.
    + intros i e Hi. change (List.map ?f ?l) with (f <$> l).
      by rewrite list_lookup_fmap, Hi.
Qed.

(** X15: [launch_selected_rom] never raises when the current row is a row
    of the list or -1: it shows the warning, or it runs the ROM of the
    entry at the index of the current row; and it shows the warning, and
    runs nothing, when no row is current, when the filtered catalog is
    empty, and when the text of the current row is [No ROMs found.]. *)
Theorem launch_selected_rom_safe (w : World) (p : Launcher.Process)
    (roms_dir retroarch core sys : string) (idx : Z)
    (roms : list RomEntry) :
  (-1 <= idx < Z.of_nat (length (MainList.roms_list_items roms)))%Z →
  ∃ res,
    MainList.launch_selected_rom w p roms_dir retroarch core sys idx roms
      (MainList.roms_list_items roms) = Some res ∧
    (res = MainList.SelectARom ∨
     ∃ e, roms !! Z.to_nat idx = Some e ∧
          MainList.display_text (title e) (year e) (manuf e)
          ≠ MainList.NO_ROMS ∧
          res = MainList.Ran
                  (Launcher.run_rom w p (rom e) roms_dir retroarch core sys))
    ∧ (idx = (-1)%Z ∨ roms = [] → res = MainList.SelectARom).
Proof.
  intros Hidx. unfold MainList.launch_selected_rom.
  destruct (Z.ltb_spec idx 0) as [Hneg|Hpos]; [by eauto|].
  destruct roms as [|e0 roms]; [by eauto|].
  set (rs := e0 :: roms) in *.
  rewrite roms_list_items_nonempty in * by done.
  rewrite length_map in Hidx.
  unfold MainList.item, MainList.py_index.
  destruct (Z.leb_spec 0 idx) as [_|?]; [|lia].
  destruct (lookup_lt_is_Some_2 rs (Z.to_nat idx)) as [e He]; [lia|].
  change (List.map ?f ?l) with (f <$> l).
  rewrite list_lookup_fmap, He. simpl.
  destruct (String.eqb_spec
              (MainList.display_text (title e) (year e) (manuf e))
              MainList.NO_ROMS) as [Heq|Hne].
  - eexists. split; [done|]. split; [by left|done].
  - eexists. split; [done|]. split.
    + right. by exists e.
    + intros [?|?]; [lia|done].
Qed.

Lemma launch_selected_rom_safe_witness :
  ∃ res,
    MainList.launch_selected_rom Examples2.world2 Examples2.process2 "roms"
      "/usr/bin/retroarch" "/cores/fbneo_libretro.so" "Arcade" 0
      [Examples2.sf2; Examples2.sf2ce]
      (MainList.roms_list_items [Examples2.sf2; Examples2.sf2ce])
    = Some res ∧
    (res = MainList.SelectARom ∨
     ∃ e, [Examples2.sf2; Examples2.sf2ce] !! Z.to_nat 0 = Some e ∧
          MainList.display_text (title e) (year e) (manuf e)
          ≠ MainList.NO_ROMS ∧
          res = MainList.Ran
                  (Launcher.run_rom Examples2.world2 Examples2.process2
                     (rom e) "roms" "/usr/bin/retroarch"
                     "/cores/fbneo_libretro.so" "Arcade"))
    ∧ (0%Z = (-1)%Z ∨ [Examples2.sf2; Examples2.sf2ce] = [] →
       res = MainList.SelectARom).
Proof.
  apply (launch_selected_rom_safe Examples2.world2 Examples2.process2).
  vm_compute. split; [discriminate|reflexivity].
Defined.

(** X16: the two system buttons step through the systems in a cycle: from
    a system of the box, the next and the previous index are systems of
    the box, the last system is followed by the first and the first
    preceded by the last, and each button undoes the other. *)
Theorem tab_buttons_cycle (count idx : Z) :
  (0 <= idx < count)%Z →
  ∃ n p,
    MainList.next_tab count idx = Some n ∧
    MainList.prev_tab count idx = Some p ∧
    (0 <= n < count)%Z ∧ (0 <= p < count)%Z ∧
    MainList.prev_tab count n = Some idx ∧
    MainList.next_tab count p = Some idx ∧
    (n = if (idx =? count - 1)%Z then 0%Z else (idx + 1)%Z) ∧
    (p = if (idx =? 0)%Z then (count - 1)%Z else (idx - 1)%Z).
Proof.
  intros Hidx. unfold MainList.next_tab, MainList.prev_tab.
  destruct (Z.eqb_spec count 0) as [?|Hc]; [lia|].
  exists ((idx + 1) mod count)%Z, ((idx - 1) mod count)%Z.
  assert ((idx + 1) mod count
          = if (idx =? count - 1) then 0 else idx + 1)%Z as Hn.
  { destruct (Z.eqb_spec idx (count - 1)) as [->|?].
    - replace (count - 1 + 1)%Z with count by lia. apply Z_mod_same_full.
    - apply Z.mod_small. lia. }
  assert ((idx - 1) mod count
          = if (idx =? 0) then count - 1 else idx - 1)%Z as Hp.
  { destruct (Z.eqb_spec idx 0) as [->|?].
    - replace (0 - 1)%Z with (-1 * count + (count - 1))%Z by lia.
      rewrite Z.add_comm, Z_mod_plus_full. apply Z.mod_small. lia.
    - apply Z.mod_small. lia. }
  split_and!; try done.
  - rewrite Hn. destruct (Z.eqb_spec idx (count - 1)); lia.
  - rewrite Hn. destruct (Z.eqb_spec idx (count - 1)); lia.
  - rewrite Hp. destruct (Z.eqb_spec idx 0); lia.
  - rewrite Hp. destruct (Z.eqb_spec idx 0); lia.
  - f_equal. rewrite Hn.
    destruct (Z.eqb_spec idx (count - 1)) as [->|?].
    + replace (0 - 1)%Z with (-1 * count + (count - 1))%Z by lia.
      rewrite Z.add_comm, Z_mod_plus_full. apply Z.mod_small. lia.
    + replace (idx + 1 - 1)%Z with idx by lia. apply Z.mod_small. lia.
  - f_equal. rewrite Hp.
    destruct (Z.eqb_spec idx 0) as [->|?].
    + replace (count - 1 + 1)%Z with count by lia. apply Z_mod_same_full.
    + replace (idx - 1 + 1)%Z with idx by lia. apply Z.mod_small. lia.
Qed.

Lemma tab_buttons_cycle_witness :
  ∃ n p,
    MainList.next_tab 17 16 = Some n ∧
    MainList.prev_tab 17 16 = Some p ∧
    (0 <= n < 17)%Z ∧ (0 <= p < 17)%Z ∧
    MainList.prev_tab 17 n = Some 16%Z ∧
    MainList.next_tab 17 p = Some 16%Z ∧
    (n = if (16 =? 17 - 1)%Z then 0%Z else (16 + 1)%Z) ∧
    (p = if (16 =? 0)%Z then (17 - 1)%Z else (16 - 1)%Z).
Proof.
  apply (tab_buttons_cycle 17 16).
  vm_compute. split; [discriminate|reflexivity].
Defined.

(** X17: [find_file_case_insensitive] returns the path of an entry of the
    directory whose name is the name asked for when case is ignored, the
    first such entry of the listing; it returns nothing exactly when the
    directory is not given, is no directory or lists no such entry; and
    the case of the name asked for does not matter. *)
Theorem find_file_ignores_case (w : World) (isdir : string → bool)
    (directory filename : string) :
  (∀ path,
     MainList.find_file_case_insensitive w isdir directory filename
     = Some (Some path) →
     ∃ files f i,
       listdir w directory = Some files ∧ files !! i = Some f ∧
       PyStr.lower f = PyStr.lower filename ∧
       path = PyPath.join directory f ∧
       ∀ j g, (j < i)%nat → files !! j = Some g →
              PyStr.lower g ≠ PyStr.lower filename) ∧
  (MainList.find_file_case_insensitive w isdir directory filename = Some None
   ↔ directory = "" ∨ isdir directory = false ∨
     ∃ files, listdir w directory = Some files ∧
              ∀ f, f ∈ files → PyStr.lower f ≠ PyStr.lower filename) ∧
  MainList.find_file_case_insensitive w isdir directory (PyStr.lower filename)
  = MainList.find_file_case_insensitive w isdir directory filename.
Proof.
  unfold MainList.find_file_case_insensitive.
  split_and!.
  - intros path H.
    destruct (PyStr.nonempty directory), (isdir directory); simpl in H;
      try done.
    destruct (listdir w directory) as [files|]; simpl in H; [|done].
    destruct (List.find _ files) as [f|] eqn:Hf; simplify_eq/=.
    exists files.
    induction files as [|g files IH]; [done|]. simpl in Hf.
    destruct (String.eqb_spec (PyStr.lower g) (PyStr.lower filename))
      as [Hg|Hg].
    + injection Hf as ->. exists f, 0%nat. split_and!; try done. lia.
    + destruct (IH Hf) as (f' & i & _ & Hi & Hlow & Hpath & Hfirst).
      exists f', (S i). split_and!; try done.
      intros [|j] g' Hj; simpl; [by intros [= <-]|].
      apply Hfirst. lia.
  - rewrite <-nonempty_false.
    destruct (PyStr.nonempty directory), (isdir directory); simpl;
      try (split; [auto|done]).
    destruct (listdir w directory) as [files|]; simpl.
    + destruct (List.find _ files) as [f|] eqn:Hf; simpl.
      * split; [done|]. intros [?|[?|(fs & [= <-] & Hall)]]; try done.
        apply find_some in Hf as [Hin Heq].
        apply String.eqb_eq in Heq. apply list_elem_of_In in Hin.
        by destruct (Hall f Hin).
      * split; [|done]. intros _. right. right. exists files.
        split; [done|]. intros f Hin Heq.
        apply list_elem_of_In in Hin.
        apply (find_none _ _ Hf) in Hin. apply String.eqb_neq in Hin. done.
    + split; [done|]. intros [?|[?|(fs & ? & _)]]; done.
  - by rewrite lower_idem.
Qed.


(** ** Favorites *)

Lemma py_in_true (x : Favorites.PySeq) (l : list Favorites.PySeq) :
  Favorites.py_in x l = true ↔ x ∈ l.
Proof.
  unfold Favorites.py_in. rewrite existsb_exists. split.
  - intros (y & Hy & Heq). apply list_elem_of_In in Hy.
    assert (x = y) as ->; [|done].
    destruct x, y; simpl in Heq; try done;
      by apply bool_decide_eq_true in Heq as ->.
  - intros Hx. exists x. split; [by apply list_elem_of_In|].
    destruct x; simpl; by apply bool_decide_eq_true.
Qed.

Lemma add_to_favorites_elem (sys : string) (roms : list RomEntry) (idx : Z)
    (favorites favorites1 : list Favorites.PySeq) :
  Favorites.add_to_favorites sys roms idx favorites = Some favorites1 →
  ∃ e, MainList.py_index roms idx = Some e ∧
       Favorites.favorite_of sys e ∈ favorites1.
Proof.
  unfold Favorites.add_to_favorites. intros H.
  destruct (MainList.py_index roms idx) as [e|]; simplify_eq/=.
  exists e. split; [done|].
  destruct (Favorites.py_in (Favorites.favorite_of sys e) favorites) eqn:Hin.
  - by apply py_in_true.
  - apply elem_of_app. right. left.
Qed.

(** X18: adding a ROM to the favorites keeps the favorites that are there,
    in their order, adds one favorite at most, at the end, and makes the
    ROM a favorite; adding the same ROM again in the same session changes
    nothing. *)
Theorem add_to_favorites_once (sys : string) (roms : list RomEntry) (idx : Z)
    (favorites favorites1 : list Favorites.PySeq) :
  Favorites.add_to_favorites sys roms idx favorites = Some favorites1 →
  favorites `prefix_of` favorites1 ∧
  (length favorites1 <= S (length favorites))%nat ∧
  (∃ e, MainList.py_index roms idx = Some e ∧
        Favorites.favorite_of sys e ∈ favorites1) ∧
  Favorites.add_to_favorites sys roms idx favorites1 = Some favorites1.
Proof.
  unfold Favorites.add_to_favorites. intros H.
  destruct (MainList.py_index roms idx) as [e|]; simplify_eq/=.
  destruct (Favorites.py_in (Favorites.favorite_of sys e) favorites) eqn:Hin.
  - split_and!; [done|lia| |by rewrite Hin].
    exists e. split; [done|]. by apply py_in_true.
  - assert (Favorites.favorite_of sys e
            ∈ (favorites ++ [Favorites.favorite_of sys e])%list) as Hnew
      by (apply elem_of_app; right; left).
    split_and!.
    + by apply prefix_app_r.
    + rewrite length_app. simpl. lia.
    + by exists e.
    + apply py_in_true in Hnew. by rewrite Hnew.
Qed.

Lemma add_to_favorites_once_witness :
  Favorites.add_to_favorites "Arcade" [Examples2.sf2; Examples2.sf2ce] 0
    [Favorites.favorite_of "Arcade" Examples2.sf2]
  = Some [Favorites.favorite_of "Arcade" Examples2.sf2].
Proof.
  apply (add_to_favorites_once "Arcade" [Examples2.sf2; Examples2.sf2ce] 0 []).
  vm_compute. reflexivity.
Defined.

Lemma py_in_reload (sys : string) (e : RomEntry)
    (favorites : list Favorites.PySeq) :
  Favorites.py_in (Favorites.favorite_of sys e)
                  (Favorites.json_reload favorites) = false.
Proof.
  unfold Favorites.py_in, Favorites.json_reload.
  induction favorites as [|f favorites IH]; [done|]. simpl. exact IH.
Qed.

(** X19: favorites read back from the configuration file are lists, and
    the tuple that [add_to_favorites] builds equals none of them: after a
    reload the ROM is appended whatever the favorites are, so a ROM that
    was added before the reload is in the favorites twice, with the same
    items, once it is added again. *)
Theorem add_after_reload_duplicates (sys : string) (roms : list RomEntry)
    (idx : Z) (e : RomEntry) (favorites favorites1 : list Favorites.PySeq) :
  MainList.py_index roms idx = Some e →
  Favorites.add_to_favorites sys roms idx favorites = Some favorites1 →
  Favorites.add_to_favorites sys roms idx (Favorites.json_reload favorites1)
  = Some (Favorites.json_reload favorites1
          ++ [Favorites.favorite_of sys e])%list
  ∧
  Favorites.seq_items (Favorites.favorite_of sys e)
  ∈ Favorites.seq_items <$> Favorites.json_reload favorites1.
Proof.
  intros He Hadd. split.
  - unfold Favorites.add_to_favorites. rewrite He. simpl.
    by rewrite py_in_reload.
  - apply add_to_favorites_elem in Hadd as (e' & He' & Hin).
    assert (e' = e) as -> by congruence.
    unfold Favorites.json_reload. change (List.map ?f ?l) with (f <$> l).
    apply list_elem_of_fmap.
    exists (Favorites.PyList
              (Favorites.seq_items (Favorites.favorite_of sys e))).
    split; [done|].
    apply list_elem_of_fmap. by exists (Favorites.favorite_of sys e).
Qed.

Lemma add_after_reload_duplicates_witness :
  Favorites.add_to_favorites "Arcade" [Examples2.sf2; Examples2.sf2ce] 0
    (Favorites.json_reload [Favorites.favorite_of "Arcade" Examples2.sf2])
  = Some (Favorites.json_reload
            [Favorites.favorite_of "Arcade" Examples2.sf2]
          ++ [Favorites.favorite_of "Arcade" Examples2.sf2])%list.
Proof.
  apply (add_after_reload_duplicates "Arcade"
           [Examples2.sf2; Examples2.sf2ce] 0 Examples2.sf2 []);
    vm_compute; reflexivity.
Defined.

(** X20: removing the favorite of the current row drops that row and
    keeps the others in their order; it changes nothing when no row is
    current; and removing the last row after a ROM was added that was no
    favorite gives back the favorites as they were. *)
Theorem remove_selected_favorite_row (idx : Z)
    (favorites favorites1 : list Favorites.PySeq) :
  Favorites.remove_selected_favorite idx favorites = Some favorites1 →
  ((idx < 0)%Z → favorites1 = favorites) ∧
  ((0 <= idx)%Z → favorites ≠ [] →
   (Z.to_nat idx < length favorites)%nat ∧
   S (length favorites1) = length favorites ∧
   (∀ j, (j < Z.to_nat idx)%nat → favorites1 !! j = favorites !! j) ∧
   (∀ j, (Z.to_nat idx <= j)%nat → favorites1 !! j = favorites !! S j)) ∧
  (∀ sys roms i e,
     MainList.py_index roms i = Some e →
     Favorites.favorite_of sys e ∉ favorites →
     ∃ added,
       Favorites.add_to_favorites sys roms i favorites = Some added ∧
       Favorites.remove_selected_favorite (Z.of_nat (length favorites)) added
       = Some favorites).
Proof.
  unfold Favorites.remove_selected_favorite. intros H. split_and!.
  - intros Hneg. apply Z.ltb_lt in Hneg. rewrite Hneg in H. congruence.
  - intros Hpos Hne. destruct (Z.ltb_spec idx 0) as [?|_]; [lia|].
    destruct favorites as [|f0 favorites]; [done|].
    set (fs := f0 :: favorites) in *.
    destruct (fs !! Z.to_nat idx) as [fav|] eqn:Hfav; simplify_eq/=.
    destruct (Favorites.seq_items fav !! 2%nat); simplify_eq/=.
    apply lookup_lt_Some in Hfav as Hlt.
    split_and!.
    + done.
    + rewrite length_app, length_take, length_drop.
      subst fs. cbn [length] in *. lia.
    + intros j Hj. rewrite lookup_app_l by (rewrite length_take; lia).
      by rewrite lookup_take_lt.
    + intros j Hj.
      assert (length (take (Z.to_nat idx) fs) = Z.to_nat idx) as Hlen
        by (rewrite length_take; subst fs; cbn [length] in *; lia).
      rewrite lookup_app_r by lia.
      rewrite Hlen, lookup_drop. f_equal. lia.
  - clear H. intros sys roms i e He Hnew.
    unfold Favorites.add_to_favorites. rewrite He. simpl.
    destruct (Favorites.py_in (Favorites.favorite_of sys e) favorites)
      eqn:Hin; [by apply py_in_true in Hin|].
    eexists. split; [done|].
    destruct (Z.ltb_spec (Z.of_nat (length favorites)) 0) as [?|_]; [lia|].
    rewrite Nat2Z.id.
    destruct (favorites ++ [Favorites.favorite_of sys e])%list
      as [|f0 fs] eqn:Hfs;
      [by destruct favorites|].
    rewrite <-Hfs. rewrite list_lookup_middle by done. simpl.
    rewrite take_app_length.
    rewrite drop_ge by (rewrite length_app; simpl; lia).
    by rewrite app_nil_r.
Qed.

Lemma remove_selected_favorite_row_witness :
  S (length [Favorites.favorite_of "Arcade" Examples2.sf2])
  = length [Favorites.favorite_of "Arcade" Examples2.sf2;
            Favorites.favorite_of "Arcade" Examples2.sf2ce].
Proof.
  destruct (remove_selected_favorite_row 1
              [Favorites.favorite_of "Arcade" Examples2.sf2;
               Favorites.favorite_of "Arcade" Examples2.sf2ce]
              [Favorites.favorite_of "Arcade" Examples2.sf2])
    as (_ & Hrow & _).
  - vm_compute. reflexivity.
  - apply Hrow; [vm_compute; discriminate|discriminate].
Defined.


(** ** Input controller: single steps, arrow keys and buttons *)

Section Controller.
Import Input Keys.
Local Open Scope Z_scope.

#[local] Arguments hat_step : simpl never.
#[local] Arguments scroll_list : simpl never.
#[local] Arguments fav_scroll_list : simpl never.
#[local] Arguments check_button : simpl never.
#[local] Arguments fav_check_button : simpl never.
#[local] Arguments set_state : simpl never.
#[local] Arguments set_time : simpl never.

Lemma dir_view_set_state (kb kb' : bool) (k k' : string) (v : bool)
    (st : Ctl) :
  kb' ≠ kb ∨ k' ≠ k →
  dir_view kb k (set_state kb' k' v st) = dir_view kb k st.
Proof.
  intros Hk. unfold dir_view, set_state, state_dict, time_dict.
  destruct kb, kb'; simpl; try done;
    (destruct Hk as [?|Hk]; [done|]); by rewrite lookup_insert_ne.
Qed.

Lemma keys_view_hat_step (cfg : Config) (now idx size : Z) (d : bool)
    (k : string) (st : Ctl) :
  keys_view (hat_step cfg now idx size d k st) = keys_view st.
Proof. unfold hat_step. by repeat case_match. Qed.

Lemma check_button_up_dir (cfg : Config) (now : Z) (j : Joystick)
    (b : string) (action : Ctl → Ctl) (kb : bool) (k : string) (st : Ctl) :
  (∀ i, button j i = false) →
  dir_view kb k (check_button cfg now j b action st) = dir_view kb k st.
Proof.
  intros Hup. unfold check_button. cbv zeta. rewrite Hup. simpl.
  by case_match.
Qed.

Lemma fav_check_button_up_dir (cfg : Config) (now : Z) (j : Joystick)
    (b : string) (action : Ctl → Ctl) (kb : bool) (k : string) (st : Ctl) :
  (∀ i, button j i = false) →
  dir_view kb k (fav_check_button cfg now j b action st) = dir_view kb k st.
Proof.
  intros Hup. unfold fav_check_button. cbv zeta. rewrite Hup. simpl.
  by repeat case_match.
Qed.

(** [hat_step] on a held direction reads and writes the view only. *)
Lemma hat_step_view (cfg : Config) (now idx size : Z) (k : string)
    (st : Ctl) :
  dir_view false k (hat_step cfg now idx size true k st)
  = let '(n, r, evs, h, tm) := dir_view false k st in
    let go from :=
      let row := target (String.eqb k "up") size from 1 in
      (n, (if (0 <=? row) && (row <? n) then row else -1),
       (evs ++ [SetCurrentRow row])%list, true, now) in
    if negb h then go idx
    else if scroll_cooldown_ms cfg <=? now - tm then go r
    else (n, r, evs, h, tm).
Proof.
  unfold hat_step, dir_view, set_state, set_time, state_dict, time_dict.
  simpl.
  destruct (default false (last_hat_held st !! k)) eqn:Hh; simpl.
  - case_match; simpl; rewrite ?lookup_insert_eq, ?Hh; done.
  - by rewrite !lookup_insert_eq.
Qed.

(** [fav_scroll_list] on a held direction reads and writes the view
    only. *)
Lemma fav_scroll_list_view (cfg : Config) (now idx size : Z) (k : string)
    (st : Ctl) :
  dir_view false k (fav_scroll_list cfg now idx size true 1 k st)
  = let '(n, r, evs, h, tm) := dir_view false k st in
    let row := target (String.eqb k "up") size idx 1 in
    if negb h || (scroll_cooldown_ms cfg <=? now - tm) then
      (n, (if (0 <=? row) && (row <? n) then row else -1),
       (evs ++ [SetCurrentRow row])%list, true, now)
    else (n, r, evs, h, tm).
Proof.
  unfold fav_scroll_list, dir_view, set_state, set_time, state_dict,
    time_dict.
  cbv zeta. simpl.
  destruct (negb (default false (last_hat_held st !! k))
            || (scroll_cooldown_ms cfg
                <=? now - default 0 (last_hat_held_time st !! k)));
    simpl; by rewrite ?lookup_insert_eq.
Qed.

(** [scroll_list] on a held direction reads and writes the view only. *)
Lemma scroll_list_view (cfg : Config) (now idx size steps : Z) (k : string)
    (kb : bool) (st : Ctl) :
  dir_view kb k (scroll_list cfg now idx size true steps k kb st)
  = let '(n, r, evs, h, tm) := dir_view kb k st in
    let go from t :=
      let row := target (String.eqb k "left") size from steps in
      (n, (if (0 <=? row) && (row <? n) then row else -1),
       (evs ++ [SetCurrentRow row])%list, true, t) in
    if negb h then go idx now
    else if now - tm >? fastest_delay_ms cfg
         then go r (now - (fastest_delay_ms cfg - 50))
    else if now - tm >? 200 then go r now
    else (n, r, evs, h, tm).
Proof.
  unfold scroll_list, scroll_branch, dir_view, set_state, set_time.
  destruct kb; simpl.
  - destruct (default false (last_key_held st !! k)) eqn:Hh; simpl.
    + repeat case_match; simpl; rewrite ?lookup_insert_eq, ?Hh; done.
    + by rewrite !lookup_insert_eq.
  - destruct (default false (last_hat_held st !! k)) eqn:Hh; simpl.
    + repeat case_match; simpl; rewrite ?lookup_insert_eq, ?Hh; done.
    + by rewrite !lookup_insert_eq.
Qed.

(** A tick of the main window with the hat up, or centred, and no button
    down, seen from the direction [up]. *)
Lemma poll_hat_up (cfg : Config) (now nb : Z) (up : bool) (st : Ctl) :
  keys_view st = (false, false) →
  dir_view false "up"
    (poll_joystick cfg now (plugged (hat_only (0, if up then 1 else 0) nb)) st)
  = dir_view false "up"
      (hat_step cfg now (currentRow st) (count st) up "up" st) ∧
  keys_view
    (poll_joystick cfg now (plugged (hat_only (0, if up then 1 else 0) nb)) st)
  = (false, false).
Proof.
  intros Hk. unfold poll_joystick, plugged, hat_only.
  cbn [active joystick numhats hat fst snd negb].
  change (0 <? 1) with true. change (0 =? -1) with false.
  change (0 =? 1) with false. cbv iota.
  assert (((if up then 1 else 0) =? 1) = up) as -> by (by destruct up).
  assert (((if up then 1 else 0) =? -1) = false) as -> by (by destruct up).
  rewrite (hat_step_released cfg now _ _ "down"), !scroll_list_released.
  set (st0 := hat_step cfg now (currentRow st) (count st) up "up" st).
  assert (keys_view st0 = (false, false)) as Hk0
    by (unfold st0; by rewrite keys_view_hat_step).
  set (st1 := set_state false "right" false
                (set_state false "left" false
                   (set_state false "down" false st0))).
  assert (dir_view false "up" st1 = dir_view false "up" st0) as Hv1
    by (unfold st1; by rewrite !dir_view_set_state by (right; done)).
  assert (keys_view st1 = (false, false)) as Hk1 by done.
  assert (default false (last_key_held st1 !! "left") = false) as Hl1
    by exact (f_equal fst Hk1).
  rewrite Hl1, scroll_list_released.
  set (st2 := set_state true "left" false st1).
  assert (keys_view st2 = (false, false)) as Hk2
    by (by apply keys_view_release).
  assert (default false (last_key_held st2 !! "right") = false) as Hr2
    by exact (f_equal snd Hk2).
  rewrite Hr2, scroll_list_released.
  set (st3 := set_state true "right" false st2).
  assert (keys_view st3 = (false, false)) as Hk3
    by (by apply keys_view_release).
  assert (dir_view false "up" st3 = dir_view false "up" st0) as Hv3
    by (unfold st3, st2;
        by rewrite !dir_view_set_state by (left; done)).
  rewrite <-Hv3, <-Hk3.
  split.
  - by rewrite !check_button_up_dir.
  - repeat match goal with
    | |- context [check_button cfg now ?j ?k ?a ?s] =>
        destruct (check_button_up cfg now j k a s) as [_ ->]; [done|]
    end.
    done.
Qed.

(** One tick of the main window with the hat up or centred, on the view
    of the direction [up]. *)
Lemma tick_hat_up (cfg : Config) (now nb : Z) (up : bool) (st : Ctl)
    (n r tm : Z) (evs : list Event) (h : bool) :
  keys_view st = (false, false) →
  dir_view false "up" st = (n, r, evs, h, tm) →
  dir_view false "up"
    (run cfg (hold_hat (0, if up then 1 else 0) nb [now]) st)
  = (if up then
       let go from :=
         let row := Z.max 0 (from - 1) in
         (n, (if (0 <=? row) && (row <? n) then row else -1),
          (evs ++ [SetCurrentRow row])%list, true, now) in
       if negb h then go r
       else if scroll_cooldown_ms cfg <=? now - tm then go r
       else (n, r, evs, h, tm)
     else (n, r, evs, false, tm)) ∧
  keys_view (run cfg (hold_hat (0, if up then 1 else 0) nb [now]) st)
  = (false, false).
Proof.
  intros Hk Hv.
  change (run cfg (hold_hat (0, if up then 1 else 0) nb [now]) st)
    with (poll_joystick cfg now
            (plugged (hat_only (0, if up then 1 else 0) nb)) st).
  destruct (poll_hat_up cfg now nb up st Hk) as [Hv' Hk'].
  split; [|done]. rewrite Hv'.
  assert (count st = n) as Hn by (by injection Hv).
  assert (currentRow st = r) as Hr by (by injection Hv).
  destruct up.
  - by rewrite hat_step_view, Hv, Hn, Hr.
  - rewrite hat_step_released.
    unfold dir_view, set_state, state_dict, time_dict in *. simpl in *.
    rewrite lookup_insert_eq. simpl. by injection Hv as -> -> -> _ ->.
Qed.

Lemma run_hold_up_waiting (cfg : Config) (nb : Z) (ts : list Z)
    (st : Ctl) (n r tm : Z) (evs : list Event) :
  keys_view st = (false, false) →
  dir_view false "up" st = (n, r, evs, true, tm) →
  Forall (λ t, t - tm < scroll_cooldown_ms cfg) ts →
  dir_view false "up" (run cfg (hold_hat (0, 1) nb ts) st)
  = (n, r, evs, true, tm) ∧
  keys_view (run cfg (hold_hat (0, 1) nb ts) st) = (false, false).
Proof.
  intros Hk Hv Hts. revert st Hk Hv.
  induction Hts as [|t ts Ht _ IH]; intros st Hk Hv; [done|].
  destruct (tick_hat_up cfg t nb true st _ _ _ _ _ Hk Hv) as [Hv' Hk'].
  simpl in Hv'. destruct (Z.leb_spec (scroll_cooldown_ms cfg) (t - tm));
    [lia|].
  by apply IH.
Qed.

(** X21: the single-step axis of the main window.  The tick that first
    finds the hat held up selects the row above the current one at once
    (the first row stays) and stamps the time; while the hat stays up, no
    tick earlier than the cool-down after the stamp moves the selection;
    the first tick at or after the cool-down moves it one more row and
    stamps its own time. *)
Theorem single_step_up_timeline (cfg : Config) (nb : Z) (st : Ctl)
    (n r tm t0 t1 : Z) (evs : list Event) (ts : list Z) :
  keys_view st = (false, false) →
  dir_view false "up" st = (n, r, evs, false, tm) →
  0 <= r < n →
  Forall (λ t, t - t0 < scroll_cooldown_ms cfg) ts →
  scroll_cooldown_ms cfg <= t1 - t0 →
  let s1 := run cfg (hold_hat (0, 1) nb [t0]) st in
  let s2 := run cfg (hold_hat (0, 1) nb ts) s1 in
  let s3 := run cfg (hold_hat (0, 1) nb [t1]) s2 in
  dir_view false "up" s1
  = (n, Z.max 0 (r - 1), (evs ++ [SetCurrentRow (Z.max 0 (r - 1))])%list,
     true, t0) ∧
  dir_view false "up" s2 = dir_view false "up" s1 ∧
  dir_view false "up" s3
  = (n, Z.max 0 (Z.max 0 (r - 1) - 1),
     (evs ++ [SetCurrentRow (Z.max 0 (r - 1));
              SetCurrentRow (Z.max 0 (Z.max 0 (r - 1) - 1))])%list,
     true, t1).
Proof.
  intros Hk Hv Hr Hts Ht1 s1 s2 s3.
  destruct (tick_hat_up cfg t0 nb true st _ _ _ _ _ Hk Hv) as [Hv1 Hk1].
  fold s1 in Hv1, Hk1. simpl in Hv1.
  assert (((0 <=? Z.max 0 (r - 1)) && (Z.max 0 (r - 1) <? n)) = true) as Hin1
    by (apply andb_true_iff; split; [apply Z.leb_le|apply Z.ltb_lt]; lia).
  rewrite Hin1 in Hv1.
  destruct (run_hold_up_waiting cfg nb ts s1 _ _ _ _ Hk1 Hv1 Hts)
    as [Hv2 Hk2].
  fold s2 in Hv2, Hk2.
  destruct (tick_hat_up cfg t1 nb true s2 _ _ _ _ _ Hk2 Hv2) as [Hv3 _].
  fold s3 in Hv3. simpl in Hv3.
  destruct (Z.leb_spec (scroll_cooldown_ms cfg) (t1 - t0)); [|lia].
  assert (((0 <=? Z.max 0 (Z.max 0 (r - 1) - 1))
           && (Z.max 0 (Z.max 0 (r - 1) - 1) <? n)) = true) as Hin3
    by (apply andb_true_iff; split; [apply Z.leb_le|apply Z.ltb_lt]; lia).
  rewrite Hin3, <-(assoc_L _) in Hv3.
  split_and!; [done|by rewrite Hv2|done].
Qed.

Lemma single_step_up_timeline_witness :
  dir_view false "up"
    (run default_config (hold_hat (0, 1) 8 [80])
       (run default_config (hold_hat (0, 1) 8 [20; 79])
          (run default_config (hold_hat (0, 1) 8 [0]) (init 10 5))))
  = (10, Z.max 0 (Z.max 0 (5 - 1) - 1),
     ([] ++ [SetCurrentRow (Z.max 0 (5 - 1));
             SetCurrentRow (Z.max 0 (Z.max 0 (5 - 1) - 1))])%list,
     true, 80).
Proof.
  destruct (single_step_up_timeline default_config 8 (init 10 5) 10 5 0 0 80
              [] [20; 79]) as (_ & _ & H3).
  - vm_compute. reflexivity.
  - vm_compute. reflexivity.
  - lia.
  - repeat constructor; vm_compute; reflexivity.
  - vm_compute. discriminate.
  - exact H3.
Defined.

(** X22: the cool-down holds while the hat is held only.  After the hat
    has been released for one tick, the next tick that finds it up moves
    the selection at once, however short the time since the last move. *)
Theorem single_step_release_resets (cfg : Config) (nb : Z) (st : Ctl)
    (n r tm t0 t1 t2 : Z) (evs : list Event) :
  keys_view st = (false, false) →
  dir_view false "up" st = (n, r, evs, false, tm) →
  0 <= r < n →
  let s1 := run cfg (hold_hat (0, 1) nb [t0]) st in
  let s2 := run cfg (hold_hat (0, 0) nb [t1]) s1 in
  let s3 := run cfg (hold_hat (0, 1) nb [t2]) s2 in
  dir_view false "up" s2
  = (n, Z.max 0 (r - 1), (evs ++ [SetCurrentRow (Z.max 0 (r - 1))])%list,
     false, t0) ∧
  dir_view false "up" s3
  = (n, Z.max 0 (Z.max 0 (r - 1) - 1),
     (evs ++ [SetCurrentRow (Z.max 0 (r - 1));
              SetCurrentRow (Z.max 0 (Z.max 0 (r - 1) - 1))])%list,
     true, t2).
Proof.
  intros Hk Hv Hr s1 s2 s3.
  destruct (tick_hat_up cfg t0 nb true st _ _ _ _ _ Hk Hv) as [Hv1 Hk1].
  fold s1 in Hv1, Hk1. simpl in Hv1.
  assert (((0 <=? Z.max 0 (r - 1)) && (Z.max 0 (r - 1) <? n)) = true) as Hin1
    by (apply andb_true_iff; split; [apply Z.leb_le|apply Z.ltb_lt]; lia).
  rewrite Hin1 in Hv1.
  destruct (tick_hat_up cfg t1 nb false s1 _ _ _ _ _ Hk1 Hv1) as [Hv2 Hk2].
  fold s2 in Hv2, Hk2. simpl in Hv2.
  destruct (tick_hat_up cfg t2 nb true s2 _ _ _ _ _ Hk2 Hv2) as [Hv3 _].
  fold s3 in Hv3. simpl in Hv3.
  assert (((0 <=? Z.max 0 (Z.max 0 (r - 1) - 1))
           && (Z.max 0 (Z.max 0 (r - 1) - 1) <? n)) = true) as Hin3
    by (apply andb_true_iff; split; [apply Z.leb_le|apply Z.ltb_lt]; lia).
  rewrite Hin3, <-(assoc_L _) in Hv3.
  by split.
Qed.

Lemma single_step_release_resets_witness :
  dir_view false "up"
    (run default_config (hold_hat (0, 1) 8 [2])
       (run default_config (hold_hat (0, 0) 8 [1])
          (run default_config (hold_hat (0, 1) 8 [0]) (init 10 5))))
  = (10, Z.max 0 (Z.max 0 (5 - 1) - 1),
     ([] ++ [SetCurrentRow (Z.max 0 (5 - 1));
             SetCurrentRow (Z.max 0 (Z.max 0 (5 - 1) - 1))])%list,
     true, 2).
Proof.
  destruct (single_step_release_resets default_config 8 (init 10 5) 10 5 0 0
              1 2 []) as [_ H3].
  - vm_compute. reflexivity.
  - vm_compute. reflexivity.
  - lia.
  - exact H3.
Defined.

(** A tick of the favorites dialog with the hat down, or centred, and no
    button down, seen from the direction [down]. *)
Lemma fav_tick_hat_down (cfg : Config) (now nb : Z) (down : bool) (st : Ctl)
    (n r tm : Z) (evs : list Event) (h : bool) :
  dir_view false "down" st = (n, r, evs, h, tm) →
  dir_view false "down"
    (fav_run cfg (hold_hat (0, if down then -1 else 0) nb [now]) st)
  = (if down then
       let row := Z.min (n - 1) (r + 1) in
       if negb h || (scroll_cooldown_ms cfg <=? now - tm) then
         (n, (if (0 <=? row) && (row <? n) then row else -1),
          (evs ++ [SetCurrentRow row])%list, true, now)
       else (n, r, evs, h, tm)
     else (n, r, evs, false, tm)).
Proof.
  intros Hv.
  change (fav_run cfg (hold_hat (0, if down then -1 else 0) nb [now]) st)
    with (fav_poll_joystick cfg now
            (plugged (hat_only (0, if down then -1 else 0) nb)) st).
  unfold fav_poll_joystick, plugged, hat_only.
  cbn [active joystick numhats hat fst snd negb].
  change (0 <? 1) with true. cbv iota.
  assert (((if down then -1 else 0) =? 1) = false) as ->
    by (by destruct down).
  assert (((if down then -1 else 0) =? -1) = down) as ->
    by (by destruct down).
  rewrite !fav_check_button_up_dir by done.
  change (fav_scroll_list cfg now (currentRow st) (count st) false 1 "up" st)
    with (set_state false "up" false st).
  assert (dir_view false "down" (set_state false "up" false st)
          = (n, r, evs, h, tm)) as Hv0
    by (by rewrite dir_view_set_state by (right; done)).
  assert (count st = n) as -> by (by injection Hv).
  assert (currentRow st = r) as -> by (by injection Hv).
  destruct down.
  - by rewrite fav_scroll_list_view, Hv0.
  - change (fav_scroll_list cfg now r n false 1 "down" ?s)
      with (set_state false "down" false s).
    clear Hv. unfold dir_view, set_state, state_dict, time_dict in *.
    simpl in *. rewrite lookup_insert_eq. simpl.
    by injection Hv0 as -> -> -> _ ->.
Qed.

Lemma fav_run_hold_down_waiting (cfg : Config) (nb : Z) (ts : list Z)
    (st : Ctl) (n r tm : Z) (evs : list Event) :
  dir_view false "down" st = (n, r, evs, true, tm) →
  Forall (λ t, t - tm < scroll_cooldown_ms cfg) ts →
  dir_view false "down" (fav_run cfg (hold_hat (0, -1) nb ts) st)
  = (n, r, evs, true, tm).
Proof.
  intros Hv Hts. revert st Hv.
  induction Hts as [|t ts Ht _ IH]; intros st Hv; [done|].
  pose proof (fav_tick_hat_down cfg t nb true st _ _ _ _ _ Hv) as Hv'.
  simpl in Hv'. destruct (Z.leb_spec (scroll_cooldown_ms cfg) (t - tm));
    [lia|].
  by apply IH.
Qed.

(** X23: the single-step axis of the favorites dialog.  The tick that
    first finds the hat held down selects the row below the current one at
    once (the last row stays) and stamps the time; while the hat stays
    down, no tick earlier than the cool-down after the stamp moves the
    selection; the first tick at or after the cool-down moves it one more
    row; and after a tick with the hat released the next tick with the hat
    down moves at once. *)
Theorem fav_single_step_down_timeline (cfg : Config) (nb : Z) (st : Ctl)
    (n r tm t0 t1 t2 t3 : Z) (evs : list Event) (ts : list Z) :
  dir_view false "down" st = (n, r, evs, false, tm) →
  0 <= r < n →
  Forall (λ t, t - t0 < scroll_cooldown_ms cfg) ts →
  scroll_cooldown_ms cfg <= t1 - t0 →
  let r1 := Z.min (n - 1) (r + 1) in
  let r2 := Z.min (n - 1) (r1 + 1) in
  let r3 := Z.min (n - 1) (r2 + 1) in
  let s1 := fav_run cfg (hold_hat (0, -1) nb [t0]) st in
  let s2 := fav_run cfg (hold_hat (0, -1) nb ts) s1 in
  let s3 := fav_run cfg (hold_hat (0, -1) nb [t1]) s2 in
  let s4 := fav_run cfg (hold_hat (0, 0) nb [t2]) s3 in
  let s5 := fav_run cfg (hold_hat (0, -1) nb [t3]) s4 in
  dir_view false "down" s1
  = (n, r1, (evs ++ [SetCurrentRow r1])%list, true, t0) ∧
  dir_view false "down" s2 = dir_view false "down" s1 ∧
  dir_view false "down" s3
  = (n, r2, (evs ++ [SetCurrentRow r1; SetCurrentRow r2])%list, true, t1) ∧
  dir_view false "down" s5
  = (n, r3,
     (evs ++ [SetCurrentRow r1; SetCurrentRow r2; SetCurrentRow r3])%list,
     true, t3).
Proof.
  intros Hv Hr Hts Ht1 r1 r2 r3 s1 s2 s3 s4 s5.
  assert (∀ x, 0 <= x < n →
            ((0 <=? Z.min (n - 1) (x + 1)) && (Z.min (n - 1) (x + 1) <? n))
            = true) as Hin
    by (intros x Hx; apply andb_true_iff;
        split; [apply Z.leb_le|apply Z.ltb_lt]; lia).
  pose proof (fav_tick_hat_down cfg t0 nb true st _ _ _ _ _ Hv) as Hv1.
  fold s1 in Hv1. simpl in Hv1. rewrite Hin in Hv1 by done. fold r1 in Hv1.
  pose proof (fav_run_hold_down_waiting cfg nb ts s1 _ _ _ _ Hv1 Hts) as Hv2.
  fold s2 in Hv2.
  pose proof (fav_tick_hat_down cfg t1 nb true s2 _ _ _ _ _ Hv2) as Hv3.
  fold s3 in Hv3. simpl in Hv3.
  destruct (Z.leb_spec (scroll_cooldown_ms cfg) (t1 - t0)); [|lia].
  rewrite Hin in Hv3 by (unfold r1; lia). fold r2 in Hv3.
  rewrite <-(assoc_L _) in Hv3.
  pose proof (fav_tick_hat_down cfg t2 nb false s3 _ _ _ _ _ Hv3) as Hv4.
  fold s4 in Hv4. simpl in Hv4.
  pose proof (fav_tick_hat_down cfg t3 nb true s4 _ _ _ _ _ Hv4) as Hv5.
  fold s5 in Hv5. simpl in Hv5.
  rewrite Hin in Hv5 by (unfold r2, r1; lia). fold r3 in Hv5.
  rewrite <-(assoc_L _) in Hv5.
  split_and!; [done|by rewrite Hv2|done|done].
Qed.

Lemma fav_single_step_down_timeline_witness :
  dir_view false "down"
    (fav_run default_config (hold_hat (0, -1) 8 [80])
       (fav_run default_config (hold_hat (0, -1) 8 [50])
          (fav_run default_config (hold_hat (0, -1) 8 [0]) (init 3 1))))
  = (3, Z.min (3 - 1) (Z.min (3 - 1) (1 + 1) + 1),
     ([] ++ [SetCurrentRow (Z.min (3 - 1) (1 + 1));
             SetCurrentRow (Z.min (3 - 1) (Z.min (3 - 1) (1 + 1) + 1))])%list,
     true, 80).
Proof.
  destruct (fav_single_step_down_timeline default_config 8 (init 3 1) 3 1 0 0
              80 90 91 [] [50]) as (_ & _ & H3 & _).
  - vm_compute. reflexivity.
  - lia.
  - repeat constructor; vm_compute; reflexivity.
  - vm_compute. discriminate.
  - exact H3.
Defined.

(** A tick of the main window without joystick, seen from the right arrow
    key, while the left arrow key is not held. *)
Lemma tick_key_right (cfg : Config) (now : Z) (st : Ctl)
    (n r tm : Z) (evs : list Event) (h : bool) :
  default false (last_key_held st !! "left") = false →
  dir_view true "right" st = (n, r, evs, h, tm) →
  dir_view true "right" (run cfg (no_joystick [now]) st)
  = (if h then
       let go t :=
         let row := Z.min (n - 1) (r + fastest_steps cfg) in
         (n, (if (0 <=? row) && (row <? n) then row else -1),
          (evs ++ [SetCurrentRow row])%list, true, t) in
       if now - tm >? fastest_delay_ms cfg
       then go (now - (fastest_delay_ms cfg - 50))
       else if now - tm >? 200 then go now
       else (n, r, evs, h, tm)
     else (n, r, evs, false, tm)) ∧
  default false (last_key_held (run cfg (no_joystick [now]) st) !! "left")
  = false.
Proof.
  intros Hl Hv.
  change (run cfg (no_joystick [now]) st)
    with (poll_joystick cfg now (mkSample true None 1 1) st).
  unfold poll_joystick. cbn [active joystick negb]. cbv iota.
  rewrite Hl, scroll_list_released.
  set (st1 := set_state true "left" false st).
  assert (dir_view true "right" st1 = (n, r, evs, h, tm)) as Hv1
    by (unfold st1; by rewrite dir_view_set_state by (right; done)).
  assert (default false (last_key_held st1 !! "right") = h) as Hh
    by (by injection Hv1).
  assert (count st = n) as -> by (by injection Hv).
  assert (currentRow st = r) as -> by (by injection Hv).
  rewrite Hh. split.
  - destruct h.
    + by rewrite scroll_list_view, Hv1.
    + rewrite scroll_list_released.
      clear Hv. unfold dir_view, set_state, state_dict, time_dict in *.
      simpl in *. rewrite lookup_insert_eq. simpl.
      by injection Hv1 as -> -> -> _ ->.
  - assert (default false (last_key_held st1 !! "left") = false) as Hl1
      by (unfold st1, set_state; simpl; by rewrite lookup_insert_eq).
    destruct h.
    + unfold scroll_list, set_time, set_state.
      repeat case_match; simpl; by rewrite ?lookup_insert_ne by done.
    + rewrite scroll_list_released. unfold set_state. simpl.
      by rewrite lookup_insert_ne.
Qed.

Lemma run_key_right_waiting (cfg : Config) (ts : list Z)
    (st : Ctl) (n r tm : Z) (evs : list Event) :
  default false (last_key_held st !! "left") = false →
  dir_view true "right" st = (n, r, evs, true, tm) →
  Forall (λ t, t - tm <= fastest_delay_ms cfg ∧ t - tm <= 200) ts →
  dir_view true "right" (run cfg (no_joystick ts) st)
  = (n, r, evs, true, tm) ∧
  default false (last_key_held (run cfg (no_joystick ts) st) !! "left")
  = false.
Proof.
  intros Hl Hv Hts. revert st Hl Hv.
  induction Hts as [|t ts [Ht1 Ht2] _ IH]; intros st Hl Hv; [done|].
  destruct (tick_key_right cfg t st _ _ _ _ _ Hl Hv) as [Hv' Hl'].
  simpl in Hv'.
  destruct (Z.gtb_spec (t - tm) (fastest_delay_ms cfg)); [lia|].
  destruct (Z.gtb_spec (t - tm) 200); [lia|].
  by apply IH.
Qed.

(** X24: an arrow key never moves the selection at once.  The event
    filter records a press of the right arrow key as held and stamps it;
    the ticks that follow no later than the fast delay (and no later than
    200 ms) after the press leave the selection where it is; the first
    tick later than the fast delay moves it by the fast steps, towards the
    end of the list, and stamps the time less the fast delay plus
    50 ms. *)
Theorem arrow_key_moves_after_delay (cfg : Config) (st : Ctl)
    (n r tm t0 t1 : Z) (evs : list Event) (h : bool) (ts : list Z) :
  default false (last_key_held st !! "left") = false →
  dir_view true "right" st = (n, r, evs, h, tm) →
  0 <= r < n → 0 <= fastest_steps cfg →
  Forall (λ t, t - t0 <= fastest_delay_ms cfg ∧ t - t0 <= 200) ts →
  fastest_delay_ms cfg < t1 - t0 →
  let s1 := run cfg (no_joystick ts) (key_press "right" t0 st) in
  let s2 := run cfg (no_joystick [t1]) s1 in
  dir_view true "right" (key_press "right" t0 st) = (n, r, evs, true, t0) ∧
  dir_view true "right" s1 = (n, r, evs, true, t0) ∧
  dir_view true "right" s2
  = (n, Z.min (n - 1) (r + fastest_steps cfg),
     (evs ++ [SetCurrentRow (Z.min (n - 1) (r + fastest_steps cfg))])%list,
     true, t1 - (fastest_delay_ms cfg - 50)).
Proof.
  intros Hl Hv Hr Hsteps Hts Ht1 s1 s2.
  assert (dir_view true "right" (key_press "right" t0 st)
          = (n, r, evs, true, t0)) as Hv0.
  { clear -Hv. unfold key_press, dir_view, set_state, set_time, state_dict,
      time_dict in *. simpl in *. rewrite !lookup_insert_eq. simpl.
    by injection Hv as -> -> -> _ _. }
  assert (default false (last_key_held (key_press "right" t0 st) !! "left")
          = false) as Hl0.
  { unfold key_press, set_state, set_time. simpl.
    by rewrite lookup_insert_ne. }
  destruct (run_key_right_waiting cfg ts _ _ _ _ _ Hl0 Hv0 Hts) as [Hv1 Hl1].
  fold s1 in Hv1, Hl1.
  destruct (tick_key_right cfg t1 s1 _ _ _ _ _ Hl1 Hv1) as [Hv2 _].
  fold s2 in Hv2. simpl in Hv2.
  destruct (Z.gtb_spec (t1 - t0) (fastest_delay_ms cfg)); [|lia].
  assert (((0 <=? Z.min (n - 1) (r + fastest_steps cfg))
           && (Z.min (n - 1) (r + fastest_steps cfg) <? n)) = true) as Hin
    by (apply andb_true_iff; split; [apply Z.leb_le|apply Z.ltb_lt]; lia).
  rewrite Hin in Hv2. done.
Qed.

Lemma arrow_key_moves_after_delay_witness :
  dir_view true "right"
    (run default_config (no_joystick [21])
       (run default_config (no_joystick [0; 20])
          (key_press "right" 0 (init 50 0))))
  = (50, Z.min (50 - 1) (0 + fastest_steps default_config),
     ([] ++ [SetCurrentRow
               (Z.min (50 - 1) (0 + fastest_steps default_config))])%list,
     true, 21 - (fastest_delay_ms default_config - 50)).
Proof.
  destruct (arrow_key_moves_after_delay default_config (init 50 0) 50 0 0 0 21
              [] false [0; 20]) as (_ & _ & H2).
  - vm_compute. reflexivity.
  - vm_compute. reflexivity.
  - lia.
  - vm_compute. discriminate.
  - repeat constructor; vm_compute; discriminate.
  - vm_compute. reflexivity.
  - exact H2.
Defined.

(** [check_button] and [fav_check_button] with the action of an event, for
    a key bound to a button of the joystick: the events and the view. *)
Lemma check_button_emit (cfg : Config) (now idx : Z) (down : bool)
    (k : string) (e : Event) (st : Ctl) (ls : bool) (lt : Z) :
  buttons cfg !! k = Some idx → 0 <= idx →
  btn_view k st = (ls, lt) →
  let fires := down && negb ls && (debounce_delay cfg <=? now - lt) in
  events (check_button cfg now (one_button idx down) k (emit e) st)
  = (events st ++ if fires then [e] else [])%list ∧
  btn_view k (check_button cfg now (one_button idx down) k (emit e) st)
  = (down, if fires then now else lt).
Proof.
  intros Hb Hidx Hv. unfold btn_view in Hv. injection Hv as Hls Hlt.
  unfold check_button, one_button, btn_view. cbv zeta. rewrite Hb.
  assert (((idx <? 0) || (idx + 1 <=? idx)) = false) as Hrange
    by (apply orb_false_iff; split; [apply Z.ltb_ge|apply Z.leb_gt]; lia).
  simpl. rewrite Hrange, Z.eqb_refl, andb_true_r, Hls, Hlt.
  destruct down, ls; simpl; rewrite ?app_nil_r, ?lookup_insert_eq; simpl;
    rewrite ?Hlt; try done.
  destruct (debounce_delay cfg <=? now - lt); simpl;
    rewrite ?app_nil_r, ?lookup_insert_eq; simpl; by rewrite ?Hlt.
Qed.

Lemma fav_check_button_emit (cfg : Config) (now idx : Z) (down : bool)
    (k : string) (e : Event) (st : Ctl) (ls : bool) (lt : Z) :
  buttons cfg !! k = Some idx → 0 <= idx →
  btn_view k st = (ls, lt) →
  let fires := down && negb ls && (debounce_delay cfg <=? now - lt) in
  events (fav_check_button cfg now (one_button idx down) k (emit e) st)
  = (events st ++ if fires then [e] else [])%list ∧
  btn_view k (fav_check_button cfg now (one_button idx down) k (emit e) st)
  = (down, if fires || (negb down && ls) then now else lt).
Proof.
  intros Hb Hidx Hv. unfold btn_view in Hv. injection Hv as Hls Hlt.
  unfold fav_check_button, one_button, btn_view. cbv zeta. rewrite Hb.
  assert (((idx <? 0) || (idx + 1 <=? idx)) = false) as Hrange
    by (apply orb_false_iff; split; [apply Z.ltb_ge|apply Z.leb_gt]; lia).
  simpl. rewrite Hrange, Z.eqb_refl, andb_true_r, Hls, Hlt.
  destruct down, ls; simpl; rewrite ?app_nil_r, ?lookup_insert_eq; simpl;
    rewrite ?Hlt; try done.
  destruct (debounce_delay cfg <=? now - lt); simpl;
    rewrite ?app_nil_r, ?lookup_insert_eq; simpl; by rewrite ?Hlt.
Qed.

Lemma button_run_held (cfg : Config) (idx : Z) (k : string) (e : Event)
    (ts : list Z) (st : Ctl) (lt : Z) :
  buttons cfg !! k = Some idx → 0 <= idx →
  btn_view k st = (true, lt) →
  events (button_run cfg k (emit e)
            (List.map (λ t, (t, one_button idx true)) ts) st)
  = events st ∧
  btn_view k (button_run cfg k (emit e)
                (List.map (λ t, (t, one_button idx true)) ts) st)
  = (true, lt).
Proof.
  intros Hb Hidx. revert st. induction ts as [|t ts IH]; intros st Hv;
    [done|].
  destruct (check_button_emit cfg t idx true k e st _ _ Hb Hidx Hv)
    as [Hev Hv'].
  simpl in Hev, Hv'. rewrite app_nil_r in Hev.
  simpl. destruct (IH _ Hv') as [Hev'' Hv'']. by rewrite Hev'', Hev.
Qed.

(** X25: a button of the main window triggers on the press edge only and
    is debounced from the last trigger.  A press at [t0], at least the
    debounce delay after the last trigger, calls the action once, however
    long the button is held; a second press earlier than the debounce
    delay after [t0] calls nothing, and neither do the releases; a press at
    least the debounce delay after [t0] calls the action again. *)
Theorem main_button_debounce (cfg : Config) (idx : Z) (k : string)
    (e : Event) (st : Ctl) (T t0 tr t1 tr' t2 : Z) (ths : list Z) :
  buttons cfg !! k = Some idx → 0 <= idx →
  btn_view k st = (false, T) →
  debounce_delay cfg <= t0 - T →
  t1 - t0 < debounce_delay cfg →
  debounce_delay cfg <= t2 - t0 →
  let down t := (t, one_button idx true) in
  let up t := (t, one_button idx false) in
  let s1 := button_run cfg k (emit e) [down t0] st in
  let s2 := button_run cfg k (emit e) (List.map down ths) s1 in
  let s3 := button_run cfg k (emit e) [up tr; down t1; up tr'] s2 in
  let s4 := button_run cfg k (emit e) [down t2] s3 in
  events s1 = (events st ++ [e])%list ∧
  events s2 = (events st ++ [e])%list ∧
  events s3 = (events st ++ [e])%list ∧
  events s4 = (events st ++ [e; e])%list.
Proof.
  intros Hb Hidx Hv Ht0 Ht1 Ht2 down up s1 s2 s3 s4.
  set (cb now d := check_button cfg now (one_button idx d) k (emit e)).
  change s1 with (cb t0 true st) in *.
  change s3 with (cb tr' false (cb t1 true (cb tr false s2))) in *.
  change s4 with
    (cb t2 true (cb tr' false (cb t1 true (cb tr false s2)))).
  destruct (check_button_emit cfg t0 idx true k e st _ _ Hb Hidx Hv)
    as [He1 Hv1].
  fold (cb t0 true st) in He1, Hv1. simpl in He1, Hv1.
  destruct (Z.leb_spec (debounce_delay cfg) (t0 - T)); [|lia].
  destruct (button_run_held cfg idx k e ths _ _ Hb Hidx Hv1) as [He2 Hv2].
  fold down in He2, Hv2. fold s2 in He2, Hv2.
  destruct (check_button_emit cfg tr idx false k e s2 _ _ Hb Hidx Hv2)
    as [He3a Hv3a].
  fold (cb tr false s2) in He3a, Hv3a.
  simpl in He3a, Hv3a. rewrite app_nil_r in He3a.
  destruct (check_button_emit cfg t1 idx true k e _ _ _ Hb Hidx Hv3a)
    as [He3b Hv3b].
  fold (cb t1 true (cb tr false s2)) in He3b, Hv3b.
  simpl in He3b, Hv3b.
  destruct (Z.leb_spec (debounce_delay cfg) (t1 - t0)); [lia|].
  rewrite app_nil_r in He3b.
  destruct (check_button_emit cfg tr' idx false k e _ _ _ Hb Hidx Hv3b)
    as [He3c Hv3c].
  fold (cb tr' false (cb t1 true (cb tr false s2))) in He3c, Hv3c.
  simpl in He3c, Hv3c. rewrite app_nil_r in He3c.
  destruct (check_button_emit cfg t2 idx true k e _ _ _ Hb Hidx Hv3c)
    as [He4 _].
  fold (cb t2 true (cb tr' false (cb t1 true (cb tr false s2)))) in He4.
  simpl in He4.
  destruct (Z.leb_spec (debounce_delay cfg) (t2 - t0)); [|lia].
  rewrite He4, He3c, He3b, He3a, He2, He1, <-(assoc_L _).
  done.
Qed.

Lemma main_button_debounce_witness :
  events
    (button_run default_config "button_select" (emit LaunchSelected)
       [(450, one_button 0 true)]
       (button_run default_config "button_select" (emit LaunchSelected)
          [(260, one_button 0 false); (300, one_button 0 true);
           (320, one_button 0 false)]
          (button_run default_config "button_select" (emit LaunchSelected)
             (List.map (λ t, (t, one_button 0 true)) [220; 240])
             (button_run default_config "button_select" (emit LaunchSelected)
                [(200, one_button 0 true)] (init 10 5)))))
  = (events (init 10 5) ++ [LaunchSelected; LaunchSelected])%list.
Proof.
  destruct (main_button_debounce default_config 0 "button_select"
              LaunchSelected (init 10 5) 0 200 260 300 320 450 [220; 240])
    as (_ & _ & _ & H4).
  - vm_compute. reflexivity.
  - lia.
  - vm_compute. reflexivity.
  - vm_compute. discriminate.
  - vm_compute. reflexivity.
  - vm_compute. discriminate.
  - exact H4.
Defined.

(** X26: in the favorites dialog a release stamps the time too, so a
    button is debounced from its last trigger or release, whichever is
    later: after a press at [t0] that triggers and a release at [tr], a
    press at [t1] calls the action exactly when it comes at least the
    debounce delay after [tr], however long after [t0]; in the main window
    the same press calls it exactly when it comes at least the debounce
    delay after [t0]. *)
Theorem fav_button_debounce_from_release (cfg : Config) (idx : Z)
    (k : string) (e : Event) (st : Ctl) (T t0 tr t1 : Z) :
  buttons cfg !! k = Some idx → 0 <= idx →
  btn_view k st = (false, T) →
  debounce_delay cfg <= t0 - T →
  let ticks :=
    [(t0, one_button idx true); (tr, one_button idx false);
     (t1, one_button idx true)] in
  events (fav_button_run cfg k (emit e) ticks st)
  = (events st ++ [e]
     ++ if debounce_delay cfg <=? t1 - tr then [e] else [])%list ∧
  events (button_run cfg k (emit e) ticks st)
  = (events st ++ [e]
     ++ if debounce_delay cfg <=? t1 - t0 then [e] else [])%list.
Proof.
  intros Hb Hidx Hv Ht0 ticks. split.
  - set (cb now d := fav_check_button cfg now (one_button idx d) k (emit e)).
    change (fav_button_run cfg k (emit e) ticks st)
      with (cb t1 true (cb tr false (cb t0 true st))).
    destruct (fav_check_button_emit cfg t0 idx true k e st _ _ Hb Hidx Hv)
      as [He1 Hv1].
    fold (cb t0 true st) in He1, Hv1. simpl in He1, Hv1.
    destruct (Z.leb_spec (debounce_delay cfg) (t0 - T)); [|lia].
    simpl in Hv1.
    destruct (fav_check_button_emit cfg tr idx false k e _ _ _ Hb Hidx Hv1)
      as [He2 Hv2].
    fold (cb tr false (cb t0 true st)) in He2, Hv2.
    simpl in He2, Hv2. rewrite app_nil_r in He2.
    destruct (fav_check_button_emit cfg t1 idx true k e _ _ _ Hb Hidx Hv2)
      as [He3 _].
    fold (cb t1 true (cb tr false (cb t0 true st))) in He3.
    simpl in He3.
    by rewrite He3, He2, He1, <-(assoc_L _).
  - set (cb now d := check_button cfg now (one_button idx d) k (emit e)).
    change (button_run cfg k (emit e) ticks st)
      with (cb t1 true (cb tr false (cb t0 true st))).
    destruct (check_button_emit cfg t0 idx true k e st _ _ Hb Hidx Hv)
      as [He1 Hv1].
    fold (cb t0 true st) in He1, Hv1. simpl in He1, Hv1.
    destruct (Z.leb_spec (debounce_delay cfg) (t0 - T)); [|lia].
    destruct (check_button_emit cfg tr idx false k e _ _ _ Hb Hidx Hv1)
      as [He2 Hv2].
    fold (cb tr false (cb t0 true st)) in He2, Hv2.
    simpl in He2, Hv2. rewrite app_nil_r in He2.
    destruct (check_button_emit cfg t1 idx true k e _ _ _ Hb Hidx Hv2)
      as [He3 _].
    fold (cb t1 true (cb tr false (cb t0 true st))) in He3.
    simpl in He3.
    by rewrite He3, He2, He1, <-(assoc_L _).
Qed.

Lemma fav_button_debounce_from_release_witness :
  events
    (fav_button_run default_config "button_select" (emit LaunchSelected)
       [(200, one_button 0 true); (350, one_button 0 false);
        (450, one_button 0 true)] (init 10 5))
  = (events (init 10 5) ++ [LaunchSelected]
     ++ if debounce_delay default_config <=? 450 - 350
        then [LaunchSelected] else [])%list.
Proof.
  apply (fav_button_debounce_from_release default_config 0 "button_select"
           LaunchSelected (init 10 5) 0 200 350 450).
  - vm_compute. reflexivity.
  - lia.
  - vm_compute. reflexivity.
  - vm_compute. discriminate.
Defined.

End Controller.

(** ** Input controller: the multi-step axis over time *)

Section MultiStepClaim.
Import Input Keys.
Local Open Scope Z_scope.

#[local] Arguments hat_step : simpl never.
#[local] Arguments scroll_list : simpl never.
#[local] Arguments check_button : simpl never.
#[local] Arguments set_state : simpl never.
#[local] Arguments set_time : simpl never.

(** C3, as stated, fails when the axis is driven by the right arrow key:
    the event filter marks the key held at the press, at time 0, so the
    tick at time 0 finds no held edge and moves nothing, and after the
    ticks at 0, 20 and 21 ms row 10 is current, not row 20. *)
Lemma C3_counterexample :
  dir_view true "right"
    (run default_config (no_joystick [0]) (key_press "right" 0 (init 50 0)))
  = (50, 0, [], true, 0) ∧
  dir_view true "right"
    (run default_config (no_joystick [0; 20; 21])
       (key_press "right" 0 (init 50 0)))
  = (50, 10, [SetCurrentRow 10], true, 51).
Proof. vm_compute. split; reflexivity. Qed.

(** One tick with the hat held to the right, in a state in which the
    direction is held already, with the default configuration on a list
    of 50 items. *)
Lemma tick_repeat_right (nb now : Z) (st : Ctl) (r tm : Z)
    (evs : list Event) :
  keys_view st = (false, false) →
  right_view st = (50, r, evs, true, tm) →
  0 <= r < 50 →
  right_view (run default_config (hold_right nb [now]) st)
  = (if now - tm >? 20
     then (50, Z.min 49 (r + 10),
           (evs ++ [SetCurrentRow (Z.min 49 (r + 10))])%list, true,
           now - (20 - 50))
     else (50, r, evs, true, tm)) ∧
  keys_view (run default_config (hold_right nb [now]) st) = (false, false).
Proof.
  intros Hk Hv Hr.
  destruct (tick_hold_right default_config now nb st _ _ _ _ _ Hk Hv)
    as [Hv' Hk'].
  split; [|exact Hk']. rewrite Hv'. cbv zeta. simpl negb. cbv iota.
  change (fastest_delay_ms default_config) with 20.
  change (fastest_steps default_config) with 10.
  change (50 - 1) with 49. cbv beta.
  assert (((0 <=? Z.min 49 (r + 10)) && (Z.min 49 (r + 10) <? 50)) = true)
    as -> by (apply andb_true_iff; split; [apply Z.leb_le|apply Z.ltb_lt]; lia).
  destruct (Z.gtb_spec (now - tm) 20); [done|].
  destruct (Z.gtb_spec (now - tm) 200); [lia|done].
Qed.

(** C3 (amended): the axis driven by the hat while no arrow key is held,
    with 10 steps and a fast delay of 20 ms, on a list of 50 items with row
    0 current.  The tick at [t0] that first finds the hat held to the right
    selects row 10 at once; while the hat stays held, no tick up to
    [t0 + 20] moves the selection, and the first tick after [t0 + 20], at
    [t1], selects row 20 and sets the time stamp to [t1 - (20 - 50)].
    Every later tick obeys the same rule, whatever the repeats before it:
    in a state in which the direction is held with the time stamp [tm], a
    tick at [now] moves the selection, by 10 rows and to row 49 at most,
    exactly when [now - tm > 20], and then sets the time stamp to
    [now - (20 - 50)]; so after a repeat at [tp] no tick up to [tp + 50]
    moves the selection and the first tick after [tp + 50] does.  Driven
    by the right arrow key instead, pressed at [tk], the axis moves nothing
    at the press nor at a tick up to [tk + 20], and the first tick after
    [tk + 20] selects row 10. *)
Theorem C3_multi_step_timeline (nb t0 t1 : Z) (ts1 : list Z) :
  Forall (λ t, t <= t0 + 20) ts1 → t0 + 20 < t1 →
  let s1 := run default_config (hold_right nb [t0]) (init 50 0) in
  let s2 := run default_config (hold_right nb ts1) s1 in
  let s3 := run default_config (hold_right nb [t1]) s2 in
  right_view s1 = (50, 10, [SetCurrentRow 10], true, t0) ∧
  right_view s2 = right_view s1 ∧
  right_view s3
  = (50, 20, [SetCurrentRow 10; SetCurrentRow 20], true, t1 - (20 - 50)) ∧
  (∀ (st : Ctl) (r tm now : Z) (evs : list Event),
     keys_view st = (false, false) →
     right_view st = (50, r, evs, true, tm) → 0 <= r < 50 →
     right_view (run default_config (hold_right nb [now]) st)
     = (if now - tm >? 20
        then (50, Z.min 49 (r + 10),
              (evs ++ [SetCurrentRow (Z.min 49 (r + 10))])%list, true,
              now - (20 - 50))
        else (50, r, evs, true, tm)) ∧
     keys_view (run default_config (hold_right nb [now]) st)
     = (false, false)) ∧
  (∀ (st : Ctl) (r tp t : Z) (evs : list Event) (ts : list Z),
     keys_view st = (false, false) →
     right_view st = (50, r, evs, true, tp - (20 - 50)) → 0 <= r < 50 →
     Forall (λ t', t' <= tp + 50) ts → tp + 50 < t →
     right_view (run default_config (hold_right nb ts) st) = right_view st ∧
     right_view
       (run default_config (hold_right nb [t])
          (run default_config (hold_right nb ts) st))
     = (50, Z.min 49 (r + 10),
        (evs ++ [SetCurrentRow (Z.min 49 (r + 10))])%list, true,
        t - (20 - 50))) ∧
  (∀ (tk t : Z) (ts : list Z),
     Forall (λ t', t' <= tk + 20) ts → tk + 20 < t →
     dir_view true "right" (key_press "right" tk (init 50 0))
     = (50, 0, [], true, tk) ∧
     dir_view true "right"
       (run default_config (no_joystick ts)
          (key_press "right" tk (init 50 0)))
     = (50, 0, [], true, tk) ∧
     dir_view true "right"
       (run default_config (no_joystick [t])
          (run default_config (no_joystick ts)
             (key_press "right" tk (init 50 0))))
     = (50, 10, [SetCurrentRow 10], true, t - (20 - 50))).
Proof.
  intros Hts1 Ht1 s1 s2 s3.
  destruct (tick_hold_right default_config t0 nb (init 50 0)
              50 0 0 [] false) as [Hv1 Hk1];
    [vm_compute; reflexivity..|].
  fold s1 in Hv1, Hk1. simpl in Hv1.
  destruct (run_hold_right_waiting default_config nb ts1 s1 _ _ _ _ Hk1 Hv1)
    as [Hv2 Hk2].
  { eapply Forall_impl; [exact Hts1|]. simpl. lia. }
  fold s2 in Hv2, Hk2.
  destruct (tick_repeat_right nb t1 s2 10 t0 _ Hk2 Hv2) as [Hv3 _]; [lia|].
  fold s3 in Hv3.
  destruct (Z.gtb_spec (t1 - t0) 20); [|lia].
  split_and!; [exact Hv1|by rewrite Hv2, Hv1|exact Hv3|..].
  - intros st r tm now evs Hk Hv Hr. by apply tick_repeat_right.
  - intros st r tp t evs ts Hk Hv Hr Hts Ht.
    destruct (run_hold_right_waiting default_config nb ts st _ _ _ _ Hk Hv)
      as [Hv' Hk'].
    { eapply Forall_impl; [exact Hts|]. simpl. lia. }
    split; [by rewrite Hv', Hv|].
    destruct (tick_repeat_right nb t _ r _ evs Hk' Hv' Hr) as [Hv'' _].
    rewrite Hv''.
    destruct (Z.gtb_spec (t - (tp - (20 - 50))) 20); [done|lia].
  - intros tk t ts Hts Ht.
    assert (dir_view true "right" (key_press "right" tk (init 50 0))
            = (50, 0, [], true, tk)) as Hv0.
    { unfold key_press, dir_view, set_state, set_time, state_dict, time_dict.
      simpl. by rewrite !lookup_insert_eq. }
    assert (default false
              (last_key_held (key_press "right" tk (init 50 0)) !! "left")
            = false) as Hl0.
    { unfold key_press, set_state, set_time. simpl.
      by rewrite lookup_insert_ne. }
    destruct (run_key_right_waiting default_config ts _ _ _ _ _ Hl0 Hv0)
      as [Hw Hlw].
    { eapply Forall_impl; [exact Hts|]. simpl. lia. }
    destruct (tick_key_right default_config t _ _ _ _ _ _ Hlw Hw) as [Hm _].
    split_and!; [exact Hv0|exact Hw|].
    rewrite Hm. cbv zeta. cbv iota.
    change (fastest_delay_ms default_config) with 20.
    destruct (Z.gtb_spec (t - tk) 20); [done|lia].
Qed.

Lemma C3_witness :
  right_view (run default_config (hold_right 8 [0]) (init 50 0))
  = (50, 10, [SetCurrentRow 10], true, 0) ∧
  right_view
    (run default_config (hold_right 8 [21])
       (run default_config (hold_right 8 [5; 20])
          (run default_config (hold_right 8 [0]) (init 50 0))))
  = (50, 20, [SetCurrentRow 10; SetCurrentRow 20], true, 21 - (20 - 50)).
Proof.
  destruct (C3_multi_step_timeline 8 0 21 [5; 20]) as (H1 & _ & H3 & _).
  - repeat constructor; lia.
  - lia.
  - split; [exact H1|exact H3].
Defined.

End MultiStepClaim.

(** ** Input controller: moves stay in the list *)

Section SelectionClaim.
Import Input Keys.
Local Open Scope Z_scope.

#[local] Arguments fav_scroll_list : simpl never.
#[local] Arguments fav_check_button : simpl never.
#[local] Arguments set_state : simpl never.
#[local] Arguments set_time : simpl never.

(** A tick of the favorites dialog with the hat up and no button down, seen
    from the direction [up]. *)
Lemma fav_tick_hat_up (cfg : Config) (now nb : Z) (st : Ctl)
    (n r tm : Z) (evs : list Event) (h : bool) :
  dir_view false "up" st = (n, r, evs, h, tm) →
  dir_view false "up"
    (fav_poll_joystick cfg now (plugged (hat_only (0, 1) nb)) st)
  = (let row := Z.max 0 (r - 1) in
     if negb h || (scroll_cooldown_ms cfg <=? now - tm) then
       (n, (if (0 <=? row) && (row <? n) then row else -1),
        (evs ++ [SetCurrentRow row])%list, true, now)
     else (n, r, evs, h, tm)).
Proof.
  intros Hv. unfold fav_poll_joystick, plugged, hat_only.
  cbn [active joystick numhats hat fst snd negb].
  change (0 <? 1) with true. change (1 =? 1) with true.
  change (1 =? -1) with false. cbv iota.
  rewrite !fav_check_button_up_dir by done.
  change (fav_scroll_list cfg now (currentRow st) (count st) false 1 "down" ?s)
    with (set_state false "down" false s).
  rewrite dir_view_set_state by (right; done).
  assert (count st = n) as -> by (by injection Hv).
  assert (currentRow st = r) as -> by (by injection Hv).
  by rewrite fav_scroll_list_view, Hv.
Qed.

(** A button of the favorites dialog leaves the last state and the last
    time of the other keys as they are, and adds events only. *)
Lemma fav_check_button_other (cfg : Config) (now : Z) (j : Joystick)
    (k k' : string) (action : Ctl → Ctl) (st : Ctl) :
  k ≠ k' →
  (∀ s, last_button_states (action s) = last_button_states s ∧
        last_button_times (action s) = last_button_times s) →
  btn_view k (fav_check_button cfg now j k' action st) = btn_view k st.
Proof.
  intros Hk Hact. unfold fav_check_button, btn_view. cbv zeta.
  repeat case_match; simpl; rewrite ?lookup_insert_ne by done;
    try done; by destruct (Hact st) as [-> ->].
Qed.

Lemma fav_check_button_events (cfg : Config) (now : Z) (j : Joystick)
    (k : string) (action : Ctl → Ctl) (st : Ctl) :
  (∀ s, ∃ evs, events (action s) = (events s ++ evs)%list) →
  ∃ evs, events (fav_check_button cfg now j k action st)
         = (events st ++ evs)%list.
Proof.
  intros Hact. unfold fav_check_button. cbv zeta.
  repeat case_match; simpl; try (exists []; by rewrite app_nil_r).
  apply Hact.
Qed.

(** C7, as stated, fails in the favorites dialog when there is no favorite:
    the list is empty and no row is current (the state in which the dialog
    starts), yet a tick that finds the hat up calls [setCurrentRow(0)] and
    marks the direction held, a tick that finds the hat down calls
    [setCurrentRow(-1)], and a tick that finds the select button down
    calls [launch_selected_favorite]. *)
Lemma C7_counterexample :
  count (init 0 (-1)) = 0 ∧ currentRow (init 0 (-1)) = -1 ∧
  events (fav_poll_joystick default_config 1000 (plugged (hat_only (0, 1) 8))
            (init 0 (-1)))
  = [SetCurrentRow 0] ∧
  last_hat_held (init 0 (-1)) !! "up" = Some false ∧
  last_hat_held
    (fav_poll_joystick default_config 1000 (plugged (hat_only (0, 1) 8))
       (init 0 (-1))) !! "up"
  = Some true ∧
  events (fav_poll_joystick default_config 1000
            (plugged (hat_only (0, -1) 8)) (init 0 (-1)))
  = [SetCurrentRow (-1)] ∧
  buttons default_config !! "button_select" = Some 0 ∧
  events (fav_poll_joystick default_config 1000
            (plugged (one_button 0 true)) (init 0 (-1)))
  = [LaunchSelected].
Proof. vm_compute. repeat split. Qed.

(** C7 (amended): a tick that starts on a list of at least one item, with
    the current row a row of the list or -1 and at least one step per fast
    move.  In the main window the events that the tick adds are moves and
    callbacks followed by changes of system: every call of [setCurrentRow]
    has an argument from 0 to the size less one and comes before any change
    of system; when no system button triggers the list keeps its size and
    the current row is a row of the list or -1; when one triggers the list
    is rebuilt and no row is current.  In the favorites dialog every call
    of [setCurrentRow] has such an argument, the list keeps its size and
    the current row is a row of the list or -1.  On an empty list, in the
    favorites dialog, nothing is guarded: every call of [setCurrentRow] has
    the argument 0 or -1 and no row becomes current; the tick that first
    finds the hat up calls [setCurrentRow(0)], the one that first finds it
    down calls [setCurrentRow(-1)], each marks the direction held and
    stamps the time; and the select button, pressed after the debounce
    delay, calls its callback. *)
Theorem C7_moves_stay_in_list (cfg : Config) (now : Z) (s : Sample)
    (st : Ctl) :
  1 <= fastest_steps cfg →
  -1 <= currentRow st < Z.max (count st) 0 →
  (1 <= count st →
   (∃ moves tabs,
      events (poll_joystick cfg now s st)
      = (events st ++ moves ++ tabs)%list ∧
      rows_ok (λ r, 0 <= r < count st) moves ∧
      tabs `sublist_of` [PrevTab; NextTab] ∧
      (tabs = [] →
       count (poll_joystick cfg now s st) = count st ∧
       -1 <= currentRow (poll_joystick cfg now s st) < count st) ∧
      (tabs ≠ [] →
       currentRow (poll_joystick cfg now s st) = -1 ∧
       (count (poll_joystick cfg now s st) = prev_tab_rows s ∨
        count (poll_joystick cfg now s st) = next_tab_rows s))) ∧
   tick_inv (λ r, 0 <= r < count st) (count st) (events st)
            (fav_poll_joystick cfg now s st)) ∧
  (count st = 0 →
   tick_inv (λ r, r = 0 ∨ r = -1) 0 (events st)
            (fav_poll_joystick cfg now s st) ∧
   (∀ nb, default false (last_hat_held st !! "up") = false →
      dir_view false "up"
        (fav_poll_joystick cfg now (plugged (hat_only (0, 1) nb)) st)
      = (0, -1, (events st ++ [SetCurrentRow 0])%list, true, now)) ∧
   (∀ nb, default false (last_hat_held st !! "down") = false →
      dir_view false "down"
        (fav_poll_joystick cfg now (plugged (hat_only (0, -1) nb)) st)
      = (0, -1, (events st ++ [SetCurrentRow (-1)])%list, true, now)) ∧
   (∀ idx lt,
      buttons cfg !! "button_select" = Some idx → 0 <= idx →
      btn_view "button_select" st = (false, lt) →
      debounce_delay cfg <= now - lt →
      ∃ evs,
        events (fav_poll_joystick cfg now (plugged (one_button idx true)) st)
        = (events st ++ evs)%list ∧
        LaunchSelected ∈ evs)).
Proof.
  intros Hsteps Hrow.
  assert (∀ ok, tick_inv ok (count st) (events st) st) as Hinit.
  { intros ok. split; [reflexivity|]. split; [exact Hrow|].
    exists []. split; [by rewrite app_nil_r|constructor]. }
  split.
  - intros Hn. split.
    + destruct (tick_inv_poll_joystick (λ r, 0 <= r < count st) (count st)
                  (events st) (fastest_steps cfg)) with (cfg := cfg)
        (now := now) (s := s) (st := st)
        as (stm & tabs & Hstm & Hev & Htabs & Hnone & Hsome); try done.
      { intros b from k Hfrom Hk. unfold target. destruct b; lia. }
      destruct Hstm as (Hc & Hr & moves & Hmoves & Hok).
      exists moves, tabs. rewrite Hev, Hmoves, <-(assoc_L _).
      split_and!; [done..| |done].
      intros Ht. destruct (Hnone Ht) as [-> ->]. split; [done|lia].
    + apply (tick_inv_fav_poll_joystick _ _ _ (fastest_steps cfg)); try done.
      intros b from k Hfrom Hk. unfold target. destruct b; lia.
  - intros Hn. rewrite Hn in Hrow.
    assert (currentRow st = -1) as Hcur by lia.
    split_and!.
    + specialize (Hinit (λ r, r = 0 ∨ r = -1)). rewrite Hn in Hinit.
      apply (tick_inv_fav_poll_joystick _ _ _ (fastest_steps cfg)); try done.
      intros b from k Hfrom Hk. unfold target. destruct b; lia.
    + intros nb Hh.
      rewrite (fav_tick_hat_up cfg now nb st 0 (-1)
                 (default 0 (last_hat_held_time st !! "up")) (events st)
                 false).
      * done.
      * unfold dir_view. simpl. by rewrite Hn, Hcur, Hh.
    + intros nb Hh.
      apply (fav_tick_hat_down cfg now nb true st 0 (-1)
               (default 0 (last_hat_held_time st !! "down")) (events st)
               false).
      unfold dir_view. simpl. by rewrite Hn, Hcur, Hh.
    + intros idx lt Hb Hidx Hv Hd.
      unfold fav_poll_joystick, plugged. cbn [active joystick negb].
      change (0 <? numhats (one_button idx true)) with false. cbv iota.
      set (j := one_button idx true).
      set (a := fav_check_button cfg now j "button_up" action_up st).
      set (b := fav_check_button cfg now j "button_down" action_down a).
      assert (btn_view "button_select" b = (false, lt)) as Hvb.
      { unfold b, a. by rewrite !fav_check_button_other. }
      destruct (fav_check_button_events cfg now j "button_up" action_up st)
        as [e1 He1].
      { intros s'. by exists [SetCurrentRow (Z.max 0 (currentRow s' - 1))]. }
      destruct (fav_check_button_events cfg now j "button_down" action_down a)
        as [e2 He2].
      { intros s'.
        by exists [SetCurrentRow (Z.min (count s' - 1) (currentRow s' + 1))]. }
      fold a in He1. fold b in He2.
      destruct (fav_check_button_emit cfg now idx true "button_select"
                  LaunchSelected b false lt Hb Hidx Hvb) as [He3 _].
      fold j in He3. simpl in He3.
      destruct (Z.leb_spec (debounce_delay cfg) (now - lt)); [|lia].
      set (c := fav_check_button cfg now j "button_select" _ b) in *.
      destruct (fav_check_button_events cfg now j "button_favorites"
                  (emit CloseDialog) c) as [e4 He4].
      { intros s'. by exists [CloseDialog]. }
      exists (e1 ++ e2 ++ [LaunchSelected] ++ e4)%list.
      split; [|set_solver].
      rewrite He4, He3, He2, He1. by rewrite <-!(assoc_L _).
Qed.

Lemma C7_witness :
  tick_inv (λ r, 0 <= r < 10) 10 []
    (fav_poll_joystick default_config 1000 (plugged (hat_only (0, 1) 8))
       (init 10 5)) ∧
  tick_inv (λ r, r = 0 ∨ r = -1) 0 []
    (fav_poll_joystick default_config 1000 (plugged (hat_only (0, 1) 8))
       (init 0 (-1))).
Proof.
  split.
  - destruct (C7_moves_stay_in_list default_config 1000
                (plugged (hat_only (0, 1) 8)) (init 10 5)) as [Hlist _].
    + vm_compute. discriminate.
    + vm_compute. split; [discriminate|reflexivity].
    + apply Hlist. vm_compute. discriminate.
  - destruct (C7_moves_stay_in_list default_config 1000
                (plugged (hat_only (0, 1) 8)) (init 0 (-1))) as [_ Hempty].
    + vm_compute. discriminate.
    + vm_compute. split; [discriminate|reflexivity].
    + apply Hempty. reflexivity.
Defined.

End SelectionClaim.
